(** * DBC generator: a shallow embedding of the matrix-to-DBC pipeline

    The development follows the repository's layout:
    - [Py]      the Python built-ins the generators call (text, integers, floats);
    - [Frame]   the pandas table the generators read (cells, rows, columns);
    - [Excel]   [core/excel_handler.py], the node-column rule of the modular tool;
    - [Core]    [core/dbc_generator.py], the modular generator;
    - [Cli]     [cli/commands.py], the command line of the modular tool;
    - [Legacy]  [dbc_generator.py], the single-file generator;
    then the properties of the specification, one theorem each, and further
    properties of the code. *)

From Stdlib Require Import ZArith NArith QArith Qround Qabs List Sorted Permutation
  String Ascii Bool Lia.
Import ListNotations.

Set Implicit Arguments.

(** ** Python built-ins

    Text is exact on code points; the whitespace table is Python's.  Three
    things are narrower than CPython: the letter, digit and case tables are
    the ASCII ones; [int] and [float] read ASCII digits only; the limit of
    4300 digits that [int] and [str] put on a conversion is left out.
    Floats are exact: a finite binary64 value is a rational, conversions
    round to nearest with ties to even, [repr] gives the shortest digits
    that read back. *)

Module Py.

(** A Python [str] is its sequence of code points. *)
Definition str := list N.

(** Literals are written as Rocq strings and read as UTF-8. *)
Fixpoint utf8_decode (bs : list N) : str :=
  match bs with
  | [] => []
  | b0 :: r0 =>
    if (b0 <? 128)%N then b0 :: utf8_decode r0
    else match r0 with
    | [] => []
    | b1 :: r1 =>
      if (b0 <? 224)%N then ((b0 - 192) * 64 + (b1 - 128))%N :: utf8_decode r1
      else match r1 with
      | [] => []
      | b2 :: r2 =>
        if (b0 <? 240)%N
        then ((b0 - 224) * 4096 + (b1 - 128) * 64 + (b2 - 128))%N :: utf8_decode r2
        else match r2 with
        | [] => []
        | b3 :: r3 =>
          ((b0 - 240) * 262144 + (b1 - 128) * 4096 + (b2 - 128) * 64 + (b3 - 128))%N
            :: utf8_decode r3
        end
      end
    end
  end.

Definition py (s : string) : str :=
  utf8_decode (List.map N_of_ascii (list_ascii_of_string s)).



Definition str_eqb (a b : str) : bool :=
  if list_eq_dec N.eq_dec a b then true else false.

(** *** Character classes

    [isspace] is Python's table of whitespace code points.  The letter and
    digit classes and the case mappings are the ASCII ones: a code point
    above 127 is taken as caseless and neither a letter nor a digit. *)

Definition whitespace : list N :=
  [9; 10; 11; 12; 13; 28; 29; 30; 31; 32; 133; 160; 5760;
   8192; 8193; 8194; 8195; 8196; 8197; 8198; 8199; 8200; 8201; 8202;
   8232; 8233; 8239; 8287; 12288]%N.

Definition isspace_cp (c : N) : bool := existsb (N.eqb c) whitespace.

(** The whitespace [int] and [float] skip around a numeral: the same table
    without the four ASCII separators 28 to 31. *)
Definition isspace_num_cp (c : N) : bool :=
  isspace_cp c && negb ((28 <=? c) && (c <=? 31))%N.
Definition isupper_cp (c : N) : bool := ((65 <=? c) && (c <=? 90))%N.
Definition islower_cp (c : N) : bool := ((97 <=? c) && (c <=? 122))%N.
Definition isalpha_cp (c : N) : bool := isupper_cp c || islower_cp c.
Definition isdigit_cp (c : N) : bool := ((48 <=? c) && (c <=? 57))%N.

Definition lower_cp (c : N) : N := if isupper_cp c then (c + 32)%N else c.
Definition upper_cp (c : N) : N := if islower_cp c then (c - 32)%N else c.

Definition lower (s : str) : str := List.map lower_cp s.
Definition upper (s : str) : str := List.map upper_cp s.

(** [s.isalpha()]: non-empty and every character a letter. *)
Definition isalpha (s : str) : bool :=
  negb (str_eqb s []) && forallb isalpha_cp s.

(** [s.isupper()]: no lower-case character and at least one upper-case one. *)
Definition isupper (s : str) : bool :=
  forallb (fun c => negb (islower_cp c)) s && existsb isupper_cp s.

(** [s.isdigit()]. *)
Definition isdigit (s : str) : bool :=
  negb (str_eqb s []) && forallb isdigit_cp s.

(** *** Slicing and searching *)

Fixpoint lstrip_by (sp : N -> bool) (s : str) : str :=
  match s with
  | [] => []
  | c :: r => if sp c then lstrip_by sp r else s
  end.

Definition strip_by (sp : N -> bool) (s : str) : str :=
  rev (lstrip_by sp (rev (lstrip_by sp s))).

(** [s.strip()]. *)
Definition strip (s : str) : str := strip_by isspace_cp s.

(** [s.rstrip(chars)] for a one-character [chars]. *)
Fixpoint lstrip_cp (c : N) (s : str) : str :=
  match s with
  | [] => []
  | d :: r => if (d =? c)%N then lstrip_cp c r else s
  end.

Definition rstrip_cp (c : N) (s : str) : str := rev (lstrip_cp c (rev s)).

Fixpoint startswith (p s : str) : bool :=
  match p, s with
  | [], _ => true
  | _ :: _, [] => false
  | a :: p', b :: s' => (a =? b)%N && startswith p' s'
  end.

Definition endswith (p s : str) : bool := startswith (rev p) (rev s).

(** [sub in s]. *)
Fixpoint contains (sub s : str) : bool :=
  startswith sub s ||
  match s with
  | [] => false
  | _ :: r => contains sub r
  end.

(** [s.split(sep)] for a one-character separator: never empty. *)
Fixpoint split (sep : N) (s : str) : list str :=
  match s with
  | [] => [[]]
  | c :: r =>
    if (c =? sep)%N then [] :: split sep r
    else match split sep r with
         | [] => [[c]]
         | p :: ps => (c :: p) :: ps
         end
  end.

(** [sep.join(parts)]. *)
Fixpoint join (sep : str) (parts : list str) : str :=
  match parts with
  | [] => []
  | [p] => p
  | p :: ps => p ++ sep ++ join sep ps
  end.

(** [parts[-1]] and [parts[:-1]] of a list. *)
Definition last_part (parts : list str) : str := last parts [].
Definition init_parts (parts : list str) : list str := removelast parts.

(** *** Integers: [str(n)], [int(s)], [int(s, 16)] *)

Fixpoint digits_acc (b : Z) (up : bool) (fuel : nat) (n : Z) (acc : str) : str :=
  match fuel with
  | O => acc
  | S f =>
    let d := (n mod b)%Z in
    let c := if (d <? 10)%Z then Z.to_N (48 + d)
             else if up then Z.to_N (55 + d) else Z.to_N (87 + d) in
    if (n <? b)%Z then c :: acc else digits_acc b up f (n / b)%Z (c :: acc)
  end.

(** The numeral of [n >= 0] in base [b]; a number below [2^k] has at most [k] digits. *)
Definition numeral (b : Z) (up : bool) (n : Z) : str :=
  digits_acc b up (S (Z.to_nat (Z.log2 n))) n [].

Definition minus_sign : N := 45%N.

(** [str(n)] for an [int]. *)
Definition str_of_int (n : Z) : str :=
  if (n <? 0)%Z then minus_sign :: numeral 10 false (- n) else numeral 10 false n.

(** [f"{n:X}"]. *)
Definition hex_of_int (n : Z) : str :=
  if (n <? 0)%Z then minus_sign :: numeral 16 true (- n) else numeral 16 true n.

Definition digit_value (c : N) : option Z :=
  if isdigit_cp c then Some (Z.of_N c - 48)%Z
  else if islower_cp c then Some (Z.of_N c - 87)%Z
  else if isupper_cp c then Some (Z.of_N c - 55)%Z
  else None.

Definition is_digit_in (b : Z) (c : N) : bool :=
  match digit_value c with
  | Some v => (v <? b)%Z
  | None => false
  end.

Definition underscore : N := 95%N.

(** Digits of base [b], single underscores allowed between two digits. *)
Fixpoint digits_value (b : Z) (acc : Z) (s : str) : option Z :=
  match s with
  | [] => Some acc
  | c :: r =>
    if (c =? underscore)%N then
      match r with
      | d :: _ => if is_digit_in b d then digits_value b acc r else None
      | [] => None
      end
    else
      match digit_value c with
      | Some v => if (v <? b)%Z then digits_value b (acc * b + v)%Z r else None
      | None => None
      end
  end.

Definition nonempty_digits (b : Z) (s : str) : option Z :=
  match s with
  | c :: _ => if is_digit_in b c then digits_value b 0 s else None
  | [] => None
  end.

(** [int(s, base)] on a [str], for base 10 and base 16; [None] is [ValueError].
    Surrounding whitespace is stripped, a sign may lead, base 16 accepts a
    [0x]/[0X] prefix, which one underscore may follow. *)
Definition unsigned_of_str (b : Z) (s : str) : option Z :=
  match s with
  | 48%N :: x :: r =>
    if ((b =? 16)%Z && ((x =? 120) || (x =? 88))%N)%bool then
      match r with
      | c :: r' => if (c =? underscore)%N then nonempty_digits b r' else nonempty_digits b r
      | [] => None
      end
    else nonempty_digits b s
  | _ => nonempty_digits b s
  end.

Definition int_of_str (b : Z) (s : str) : option Z :=
  match strip_by isspace_num_cp s with
  | 43%N :: r => unsigned_of_str b r
  | 45%N :: r => option_map Z.opp (unsigned_of_str b r)
  | r => unsigned_of_str b r
  end.

(** [int(s, 2)]: as base 16, with the prefix [0b] or [0B]. *)
Definition unsigned_of_bits (s : str) : option Z :=
  match s with
  | 48%N :: x :: r =>
    if ((x =? 98) || (x =? 66))%N then
      match r with
      | c :: r' => if (c =? underscore)%N then nonempty_digits 2 r' else nonempty_digits 2 r
      | [] => None
      end
    else nonempty_digits 2 s
  | _ => nonempty_digits 2 s
  end.

Definition int_of_bits (s : str) : option Z :=
  match strip_by isspace_num_cp s with
  | 43%N :: r => unsigned_of_bits r
  | 45%N :: r => option_map Z.opp (unsigned_of_bits r)
  | r => unsigned_of_bits r
  end.

(** *** Floats

    A finite binary64 value is the rational it denotes; the zero with a
    sign bit, the infinities and the NaN are apart. *)

Inductive float : Type :=
| FFin (q : Q)
| FNegZero
| FInf (neg : bool)
| FNan.

Definition pow2 (k : Z) : Q := Qpower (2 # 1) k.
Definition pow10 (k : Z) : Q := Qpower (10 # 1) k.

(** Nearest integer, ties to the even one. *)
Definition round_half_even (q : Q) : Z :=
  let f := Qfloor q in
  match Qcompare (Qminus q (inject_Z f)) (1 # 2) with
  | Lt => f
  | Gt => (f + 1)%Z
  | Eq => if Z.even f then f else (f + 1)%Z
  end.

(** [floor (log2 q)] for [q > 0]. *)
Definition floor_log2 (q : Q) : Z :=
  let k := (Z.log2 (Qnum q) - Z.log2 (Zpos (Qden q)))%Z in
  if Qle_bool (pow2 k) q then k else (k - 1)%Z.

(** The binary64 value nearest to [q > 0] (53 significant bits, least
    exponent -1074), or [None] past the largest finite value. *)
Definition nearest_positive (q : Q) : option Q :=
  let p := Z.max (floor_log2 q - 52) (-1074) in
  let m := round_half_even (Qdiv q (pow2 p)) in
  let v := Qred (Qmult (inject_Z m) (pow2 p)) in
  if Qle_bool (pow2 1024) v then None else Some v.

Definition nearest_double (q : Q) : float :=
  match Qcompare q 0 with
  | Eq => FFin 0
  | Gt => match nearest_positive q with
          | Some v => FFin v
          | None => FInf false
          end
  | Lt => match nearest_positive (Qopp q) with
          | Some v => if Qeq_bool v 0 then FNegZero else FFin (Qred (Qopp v))
          | None => FInf true
          end
  end.

(** What a failed call raises. *)
Inductive exn : Type := ValueError | TypeError | OverflowError | KeyError.

Definition result (A : Type) : Type := (exn + A)%type.
Definition ok {A} (a : A) : result A := inr a.
Definition raise {A} (e : exn) : result A := inl e.
Definition bind {A B} (r : result A) (k : A -> result B) : result B :=
  match r with
  | inl e => inl e
  | inr a => k a
  end.

Notation "x <- e ;; k" := (bind e (fun x => k))
  (at level 61, e at next level, right associativity).

(** [try: r except (ValueError, TypeError): h]. *)
Definition except_value_type {A} (r : result A) (h : result A) : result A :=
  match r with
  | inl ValueError => h
  | inl TypeError => h
  | _ => r
  end.

Definition of_option {A} (e : exn) (o : option A) : result A :=
  match o with
  | Some a => ok a
  | None => raise e
  end.

(** [float(n)] for an [int]: [OverflowError] when too large. *)
Definition float_of_int (n : Z) : result float :=
  match nearest_double (inject_Z n) with
  | FInf _ => raise OverflowError
  | f => ok f
  end.

(** [int(x)] for a [float]: truncation toward zero. *)
Definition int_of_float (x : float) : result Z :=
  match x with
  | FFin q => ok (Z.quot (Qnum q) (Zpos (Qden q)))
  | FNegZero => ok 0%Z
  | FInf _ => raise OverflowError
  | FNan => raise ValueError
  end.


(** [float(s)] on a [str]; [None] is [ValueError].  Underscores are first
    checked (each one between two digits) and removed. *)
Fixpoint drop_underscores (prev : N) (s : str) : option str :=
  match s with
  | [] => if (prev =? underscore)%N then None else Some []
  | c :: r =>
    if (c =? underscore)%N then
      if isdigit_cp prev then drop_underscores c r else None
    else if ((prev =? underscore)%N && negb (isdigit_cp c))%bool then None
    else option_map (cons c) (drop_underscores c r)
  end.

Fixpoint span_digits (s : str) : str * str :=
  match s with
  | c :: r => if isdigit_cp c
              then let '(d, t) := span_digits r in (c :: d, t)
              else ([], s)
  | [] => ([], [])
  end.

Definition value_of_digits (d : str) : Z :=
  fold_left (fun acc c => (acc * 10 + (Z.of_N c - 48))%Z) d 0%Z.

(** The exponent part [e[+-]ddd] that must end the text. *)
Definition exponent_of (s : str) : option Z :=
  match s with
  | [] => Some 0%Z
  | c :: r =>
    if ((c =? 101) || (c =? 69))%N then
      let '(neg, r1) := match r with
                        | 45%N :: t => (true, t)
                        | 43%N :: t => (false, t)
                        | _ => (false, r)
                        end in
      match span_digits r1 with
      | ((_ :: _) as d, []) => Some (if neg then (- value_of_digits d)%Z else value_of_digits d)
      | _ => None
      end
    else None
  end.

Definition decimal_of (s : str) : option Q :=
  let '(ip, r) := span_digits s in
  let '(fp, r') := match r with
                   | 46%N :: t => span_digits t
                   | _ => ([], r)
                   end in
  match ip ++ fp with
  | [] => None
  | m => match exponent_of r' with
         | Some e => Some (Qmult (inject_Z (value_of_digits m))
                                 (pow10 (e - Z.of_nat (List.length fp))))
         | None => None
         end
  end.

Definition unsigned_float_of (neg : bool) (s : str) : option float :=
  let l := lower s in
  if str_eqb l (py "inf") || str_eqb l (py "infinity") then Some (FInf neg)
  else if str_eqb l (py "nan") then Some FNan
  else match decimal_of s with
       | Some q => if Qeq_bool q 0
                   then Some (if neg then FNegZero else FFin 0)
                   else Some (nearest_double (if neg then Qopp q else q))
       | None => None
       end.

Definition float_of_str (s : str) : option float :=
  match drop_underscores 0%N (strip_by isspace_num_cp s) with
  | Some (45%N :: r) => unsigned_float_of true r
  | Some (43%N :: r) => unsigned_float_of false r
  | Some r => unsigned_float_of false r
  | None => None
  end.

(** [repr(x)] of a float: the shortest digits that read back as [x]. *)
Definition floor_log10 (q : Q) : Z :=
  let k := (Z.of_nat (List.length (numeral 10 false (Qnum q)))
            - Z.of_nat (List.length (numeral 10 false (Zpos (Qden q)))))%Z in
  if Qle_bool (pow10 k) q then k else (k - 1)%Z.

Definition reads_back (q : Q) (c : Z) (e : Z) : bool :=
  match nearest_double (Qmult (inject_Z c) (pow10 e)) with
  | FFin v => Qeq_bool v q
  | _ => false
  end.

(** The candidate with [n] digits, if one reads back as [q]; [decpt] places
    the decimal point: [q] lies in [[10^(decpt-1), 10^decpt)]. *)
Definition candidate (q : Q) (decpt : Z) (n : Z) : option Z :=
  let scaled := Qmult q (pow10 (n - decpt)) in
  let lo := Qfloor scaled in
  let hi := (lo + 1)%Z in
  let near := round_half_even scaled in
  match reads_back q lo (decpt - n), reads_back q hi (decpt - n) with
  | true, true => Some near
  | true, false => Some lo
  | false, true => Some hi
  | false, false => None
  end.

Fixpoint shortest (q : Q) (decpt : Z) (fuel : nat) (n : Z) : Z * Z :=
  match fuel with
  | O => (round_half_even (Qmult q (pow10 (n - decpt))), n)
  | S f => match candidate q decpt n with
           | Some c => (c, n)
           | None => shortest q decpt f (n + 1)%Z
           end
  end.

Definition zero_cp : N := 48%N.
Definition dot_cp : N := 46%N.

(** Digits without trailing zeros, and the position of the decimal point. *)
Definition shortest_digits (q : Q) : str * Z :=
  let decpt := (floor_log10 q + 1)%Z in
  let '(c, n) := shortest q decpt 16 1 in
  let ds := rstrip_cp zero_cp (numeral 10 false c) in
  (ds, if (c =? 10 ^ n)%Z then (decpt + 1)%Z else decpt).

Definition pad_left (w : nat) (s : str) : str :=
  repeat zero_cp (w - List.length s) ++ s.

Definition repr_positive (q : Q) : str :=
  let '(ds, decpt) := shortest_digits q in
  if ((decpt <=? -4)%Z || (16 <? decpt)%Z)%bool then
    let e := (decpt - 1)%Z in
    (match ds with
     | d :: ((_ :: _) as r) => d :: dot_cp :: r
     | _ => ds
     end)
    ++ [101%N] ++ (if (e <? 0)%Z then [45%N] else [43%N])
    ++ pad_left 2 (numeral 10 false (Z.abs e))
  else if (decpt <=? 0)%Z then
    [zero_cp; dot_cp] ++ repeat zero_cp (Z.to_nat (- decpt)) ++ ds
  else if (Z.of_nat (List.length ds) <=? decpt)%Z then
    ds ++ repeat zero_cp (Z.to_nat decpt - List.length ds) ++ [dot_cp; zero_cp]
  else firstn (Z.to_nat decpt) ds ++ [dot_cp] ++ skipn (Z.to_nat decpt) ds.

Definition float_repr (x : float) : str :=
  match x with
  | FNan => py "nan"
  | FInf neg => if neg then py "-inf" else py "inf"
  | FNegZero => py "-0.0"
  | FFin q => match Qcompare q 0 with
              | Eq => py "0.0"
              | Gt => repr_positive q
              | Lt => minus_sign :: repr_positive (Qopp q)
              end
  end.

(** [f"{x:.3f}"]: the exact value rounded to three decimals, ties to even. *)
Definition format_3f (x : float) : str :=
  match x with
  | FNan => py "nan"
  | FInf neg => if neg then py "-inf" else py "inf"
  | FNegZero => py "-0.000"
  | FFin q =>
    let k := round_half_even (Qmult (Qabs q) (1000 # 1)) in
    (match Qcompare q 0 with Lt => [minus_sign] | _ => [] end)
    ++ numeral 10 false (k / 1000) ++ [dot_cp]
    ++ pad_left 3 (numeral 10 false (k mod 1000))
  end.


(** *** Ordered text: [sorted(set(xs))] and [os.path.splitext] *)

Fixpoint str_compare (a b : str) : comparison :=
  match a, b with
  | [], [] => Eq
  | [], _ :: _ => Lt
  | _ :: _, [] => Gt
  | x :: a', y :: b' =>
    match N.compare x y with
    | Eq => str_compare a' b'
    | c => c
    end
  end.

Fixpoint set_insert (x : str) (l : list str) : list str :=
  match l with
  | [] => [x]
  | y :: r =>
    match str_compare x y with
    | Lt => x :: l
    | Eq => l
    | Gt => y :: set_insert x r
    end
  end.

(** [sorted(set(xs))]: the distinct elements in code-point order. *)
Definition sorted_set (xs : list str) : list str := fold_right set_insert [] xs.

Inductive platform : Type := Posix | Windows.

Definition is_sep (os : platform) (c : N) : bool :=
  match os with
  | Posix => (c =? 47)%N
  | Windows => ((c =? 92) || (c =? 47))%N
  end.

(** The file name of a path, reversed: what follows the last separator. *)
Fixpoint rev_basename (os : platform) (r : str) : str :=
  match r with
  | [] => []
  | c :: t => if is_sep os c then [] else c :: rev_basename os t
  end.

(** The extension of a reversed file name, reversed ([gnp.] for [.png]), when
    a dot other than the leading ones exists. *)
Fixpoint rev_ext (r : str) : option str :=
  match r with
  | [] => None
  | c :: t =>
    if (c =? dot_cp)%N
    then if forallb (N.eqb dot_cp) t then None else Some [c]
    else option_map (cons c) (rev_ext t)
  end.

(** [os.path.splitext(p)]. *)
Definition splitext (os : platform) (p : str) : str * str :=
  match rev_ext (rev_basename os (rev p)) with
  | Some e => (firstn (List.length p - List.length e) p, rev e)
  | None => (p, [])
  end.


End Py.

(** ** The table read from the spreadsheet *)

Module Frame.
Import Py.

(** A cell of the table: missing ([None], or the float NaN), a number or
    text.  Dates and booleans are left out. *)
Inductive cell : Type :=
| CNone
| CInt (z : Z)
| CFloat (f : float)
| CStr (s : str).

(** [pd.isna(c)]. *)
Definition isna (c : cell) : bool :=
  match c with
  | CNone => true
  | CFloat FNan => true
  | _ => false
  end.

Definition notna (c : cell) : bool := negb (isna c).

(** [str(c)]. *)
Definition str_of (c : cell) : str :=
  match c with
  | CNone => py "None"
  | CInt z => str_of_int z
  | CFloat f => float_repr f
  | CStr s => s
  end.

(** [float(c)]. *)
Definition float_of (c : cell) : result float :=
  match c with
  | CNone => raise TypeError
  | CInt z => float_of_int z
  | CFloat f => ok f
  | CStr s => of_option ValueError (float_of_str s)
  end.

(** [int(c)]. *)
Definition int_of (c : cell) : result Z :=
  match c with
  | CNone => raise TypeError
  | CInt z => ok z
  | CFloat f => int_of_float f
  | CStr s => of_option ValueError (int_of_str 10 s)
  end.

(** [int(float(c))]. *)
Definition int_of_float_of (c : cell) : result Z :=
  bind (float_of c) int_of_float.

(** Equality of cell values, as [unique()] and [==] see it: an [int] and a
    [float] of the same value are equal. *)
Definition cell_eqb (a b : cell) : bool :=
  match a, b with
  | CInt x, CInt y => (x =? y)%Z
  | CInt x, CFloat (FFin q) | CFloat (FFin q), CInt x => Qeq_bool (inject_Z x) q
  | CInt x, CFloat FNegZero | CFloat FNegZero, CInt x => (x =? 0)%Z
  | CFloat (FFin p), CFloat (FFin q) => Qeq_bool p q
  | CFloat (FFin p), CFloat FNegZero | CFloat FNegZero, CFloat (FFin p) => Qeq_bool p 0
  | CFloat FNegZero, CFloat FNegZero => true
  | CFloat (FInf x), CFloat (FInf y) => Bool.eqb x y
  | CStr x, CStr y => str_eqb x y
  | CNone, CNone => true
  | _, _ => false
  end.

(** The table: its column labels, and one list of cells per row.  Labels
    are text and pairwise distinct, as the spreadsheet reader makes them. *)
Record DataFrame : Type := {
  columns : list str;
  data : list (list cell)
}.

(** A row as [iterrows()] yields it: cells under their labels. *)
Definition row : Type := list (str * cell).

Definition iterrows (df : DataFrame) : list row :=
  List.map (fun cells => combine (columns df) cells) (data df).

Fixpoint lookup (r : row) (col : str) : option cell :=
  match r with
  | [] => None
  | (k, v) :: t => if str_eqb k col then Some v else lookup t col
  end.

(** [col in row]. *)
Definition has (r : row) (col : str) : bool :=
  match lookup r col with
  | Some _ => true
  | None => false
  end.

(** [row[col]]. *)
Definition at_ (r : row) (col : str) : result cell :=
  of_option KeyError (lookup r col).

(** [row.get(col, default)], for a column name that may be [None]. *)
Definition get_or (r : row) (col : option str) (default : cell) : cell :=
  match col with
  | Some c => match lookup r c with
              | Some v => v
              | None => default
              end
  | None => default
  end.

(** [row.get(col)]. *)
Definition get (r : row) (col : option str) : cell := get_or r col CNone.

(** [df[col]]: the cells of a column, top to bottom. *)
Definition column (df : DataFrame) (col : str) : result (list cell) :=
  if existsb (str_eqb col) (columns df)
  then ok (List.map (fun r => get r (Some col)) (iterrows df))
  else raise KeyError.

(** [series.dropna().unique()]. *)
Fixpoint unique_acc (seen : list cell) (l : list cell) : list cell :=
  match l with
  | [] => []
  | c :: t => if existsb (cell_eqb c) seen then unique_acc seen t
              else c :: unique_acc (c :: seen) t
  end.

Definition dropna_unique (l : list cell) : list cell :=
  unique_acc [] (filter notna l).

(** [df.dropna(axis=0, how='all')]: the rows that hold a cell that is not
    missing. *)
Definition dropna_all (df : DataFrame) : DataFrame :=
  {| columns := columns df;
     data := filter (fun cells => negb (forallb isna cells)) (data df) |}.

End Frame.

(** ** [core/excel_handler.py] *)

Module Excel.
Import Py Frame.

(** The test of [ExcelHandler.extract_node_columns] on one stripped label. *)
Definition is_node_column (col_str : str) : bool :=
  contains [underscore] col_str &&
  (let parts := split underscore col_str in
   let suffix := last_part parts in
   let prefix := join [underscore] (init_parts parts) in
   (isalpha suffix && isupper suffix) &&
   negb (startswith (py "LV") prefix || endswith (py "EV") prefix)).

Definition extract_node_columns (matrix_data : option DataFrame) : list str :=
  match matrix_data with
  | None => []
  | Some df => filter is_node_column (List.map strip (columns df))
  end.

(** [read_matrix_file]: what the handler holds afterwards, [None] when the
    call returns [False].  [sheet] is the table the first reader that
    succeeds gives, [None] when every reader fails; opening the file is
    left to them. *)
Definition read_matrix_file (file_path : str) (sheet : option DataFrame)
    : option DataFrame :=
  match file_path with
  | [] => None
  | _ => option_map dropna_all sheet
  end.

End Excel.

(** ** [core/dbc_generator.py] *)

Module Core.
Import Py Frame.

(** A [dict] with text keys, in insertion order. *)
Definition dict (V : Type) : Type := list (str * V).

Fixpoint dict_get {V} (d : dict V) (k : str) : option V :=
  match d with
  | [] => None
  | (k', v) :: t => if str_eqb k' k then Some v else dict_get t k
  end.

Definition dict_mem {V} (d : dict V) (k : str) : bool :=
  match dict_get d k with
  | Some _ => true
  | None => false
  end.

(** A loop whose body may raise. *)
Fixpoint foldM {A S} (f : S -> A -> result S) (l : list A) (st : S) : result S :=
  match l with
  | [] => ok st
  | a :: t => bind (f st a) (foldM f t)
  end.

Definition dq : N := 34%N.
Definition Vector__XXX : str := py "Vector__XXX".

Record Signal : Type := {
  sig_name : str;
  sig_start_bit : str;
  sig_length : str;
  sig_byte_order : str;
  sig_value_type : str;
  sig_factor : str;
  sig_offset : str;
  sig_min : str;
  sig_max : str;
  sig_unit : str;
  sig_receiver : str
}.

Record Message : Type := {
  msg_id : str;
  msg_hex_id : str;
  msg_name : str;
  msg_dlc : str;
  msg_sender : str;
  msg_signals : list Signal
}.

Record DBCGenerator : Type := {
  matrix_data : option DataFrame;
  node_columns : list str
}.


(** *** [_generate_header] *)

Definition newline : str := [10%N].

Definition _generate_header (is_canfd : bool) : str :=
  join newline
    ([py "VERSION " ++ [dq; dq]; []; []]
     ++ List.map py
       ["NS_ : "; " NS_DESC_"; " CM_"; " BA_DEF_"; " BA_"; " VAL_"; " CAT_DEF_";
        " CAT_"; " FILTER"; " BA_DEF_DEF_"; " EV_DATA_"; " ENVVAR_DATA_";
        " SGTYPE_"; " SGTYPE_VAL_"; " BA_DEF_SGTYPE_"; " BA_SGTYPE_";
        " SIG_TYPE_REF_"; " VAL_TABLE_"; " SIG_GROUP_"; " SIG_VALTYPE_";
        " SIGTYPE_VALTYPE_"; " BO_TX_BU_"; " BA_DEF_REL_"; " BA_REL_";
        " BA_DEF_DEF_REL_"; " BU_SG_REL_"; " BU_EV_REL_"; " BU_BO_REL_";
        " SG_MUL_VAL_"; ""]%string
     ++ List.map py ["BS_:"; ""]%string
     ++ [[]]).

(** *** [_extract_nodes] and [_generate_nodes] *)

Definition node_name_of (col : str) : list str :=
  if contains [underscore] col then
    let node_name := strip (last_part (split underscore col)) in
    if str_eqb node_name [] then [] else [node_name]
  else [].

Definition is_controller_col (col_str : str) : bool :=
  contains (py "Controller") col_str || contains (py "控制器") col_str.

Definition controller_names (df : DataFrame) : list str :=
  match find is_controller_col (columns df) with
  | Some col =>
    filter (fun ctrl_str => negb (str_eqb ctrl_str []))
      (List.map (fun controller => strip (str_of controller))
         (dropna_unique (List.map (fun r => get r (Some col)) (iterrows df))))
  | None => []
  end.

Definition _extract_nodes (df : DataFrame) (node_cols : list str) : list str :=
  sorted_set (flat_map node_name_of node_cols ++ controller_names df).

Definition _generate_nodes (nodes : list str) : str :=
  match nodes with
  | [] => newline ++ newline ++ newline
  | _ =>
    let nodes' := if existsb (str_eqb Vector__XXX) nodes then nodes
                  else nodes ++ [Vector__XXX] in
    py "BU_: " ++ join (py " ") nodes' ++ newline ++ newline ++ newline
  end.

(** *** [_extract_messages] *)

Definition is_message_id_col (col_str : str) : bool :=
  contains (py "ID") col_str &&
  (contains (py "Msg") col_str || contains (py "报文") col_str).

Definition is_message_name_col (col_str : str) : bool :=
  (contains (py "Name") col_str && contains (py "Msg") col_str)
  || contains (py "报文名称") col_str.

Definition is_dlc_col (col_str : str) : bool :=
  (contains (py "Length") col_str && contains (py "Msg") col_str)
  || contains (py "报文长度") col_str.

Definition has_hex_prefix (s : str) : bool :=
  startswith (py "0x") s || startswith (py "0X") s.

(** The body of the [try] that reads the id text: the pair
    [(message_id_dec, message_id_hex)], or [ValueError]. *)
Definition message_id_forms (message_id : str) : result (str * str) :=
  if has_hex_prefix message_id then
    bind (of_option ValueError (int_of_str 16 message_id)) (fun n =>
    ok (str_of_int n, message_id))
  else
    bind (of_option ValueError (int_of_str 10 message_id)) (fun n =>
    ok (message_id, py "0x" ++ hex_of_int n)).

Definition message_name_of (message_name_col : option str) (r : row)
    (message_id_hex : str) : str :=
  let message_name :=
    match message_name_col with
    | Some _ => strip (str_of (get_or r message_name_col (CStr [])))
    | None => []
    end in
  if str_eqb message_name [] then py "MSG_" ++ message_id_hex else message_name.

Definition dlc_of (dlc_col : option str) (r : row) : result str :=
  match dlc_col with
  | Some _ =>
    let dlc_val := get r dlc_col in
    if notna dlc_val then
      let dlc_str := strip (str_of dlc_val) in
      if isdigit dlc_str then
        bind (of_option ValueError (int_of_str 10 dlc_str)) (fun dlc_num =>
        ok (if ((0 <=? dlc_num) && (dlc_num <=? 15))%Z then dlc_str else py "8"))
      else ok (py "8")
    else ok (py "8")
  | None => ok (py "8")
  end.

(** One turn of the loop over the rows. *)
Definition message_step (message_id_col message_name_col dlc_col : option str)
    (messages : dict Message) (r : row) : result (dict Message) :=
  let message_id_val := get r message_id_col in
  if isna message_id_val then ok messages
  else
    let message_id := strip (str_of message_id_val) in
    if str_eqb message_id [] then ok messages
    else
      match message_id_forms message_id with
      | inl ValueError => ok messages
      | inl e => raise e
      | inr (message_id_dec, message_id_hex) =>
        let message_name := message_name_of message_name_col r message_id_hex in
        bind (dlc_of dlc_col r) (fun dlc =>
        let sender := Vector__XXX in
        if dict_mem messages message_id_dec then ok messages
        else ok (messages ++
                 [(message_id_dec,
                   {| msg_id := message_id_dec; msg_hex_id := message_id_hex;
                      msg_name := message_name; msg_dlc := dlc;
                      msg_sender := sender; msg_signals := [] |})]))
      end.

Definition _extract_messages (df : DataFrame) : result (dict Message) :=
  match find is_message_id_col (columns df) with
  | None => ok []
  | Some c =>
    foldM (message_step (Some c)
             (find is_message_name_col (columns df))
             (find is_dlc_col (columns df)))
      (iterrows df) []
  end.

(** *** [_extract_signals] *)

Definition is_signal_name_col (col_str : str) : bool :=
  let col_lower := lower col_str in
  contains (py "signal") col_lower &&
  (contains (py "name") col_lower || contains (py "名称") col_lower).

(** The columns the signal attributes are read from. *)
Record SignalColumns : Type := {
  start_bit_col : option str;
  start_byte_col : option str;
  signal_length_col : option str;
  byte_order_col : option str;
  value_type_col : option str;
  factor_col : option str;
  offset_col : option str;
  unit_col : option str;
  min_val_col : option str;
  max_val_col : option str
}.

Definition no_columns : SignalColumns :=
  {| start_bit_col := None; start_byte_col := None; signal_length_col := None;
     byte_order_col := None; value_type_col := None; factor_col := None;
     offset_col := None; unit_col := None; min_val_col := None;
     max_val_col := None |}.

(** One turn of the loop that looks for the attribute columns: the first
    keyword test that holds names the role, and a later column of the same
    role replaces an earlier one. *)
Definition assign_column (cs : SignalColumns) (col : str) : SignalColumns :=
  let col_lower := lower col in
  let has kw := contains kw col_lower in
  let '(Build_SignalColumns sbit sbyte len bo vt fa off un mi ma) := cs in
  if has (py "start bit") || has (py "起始位") then
    Build_SignalColumns (Some col) sbyte len bo vt fa off un mi ma
  else if has (py "start byte") || has (py "起始字节") then
    Build_SignalColumns sbit (Some col) len bo vt fa off un mi ma
  else if has (py "bit length") || has (py "信号长度") then
    Build_SignalColumns sbit sbyte (Some col) bo vt fa off un mi ma
  else if has (py "byte order") || has (py "排列格式") then
    Build_SignalColumns sbit sbyte len (Some col) vt fa off un mi ma
  else if has (py "date type") || has (py "数据类型") then
    Build_SignalColumns sbit sbyte len bo (Some col) fa off un mi ma
  else if has (py "factor") || has (py "比例因子") then
    Build_SignalColumns sbit sbyte len bo vt (Some col) off un mi ma
  else if has (py "offset") || has (py "偏移量") then
    Build_SignalColumns sbit sbyte len bo vt fa (Some col) un mi ma
  else if has (py "unit") then
    Build_SignalColumns sbit sbyte len bo vt fa off (Some col) mi ma
  else if has (py "min") || has (py "最小值") then
    Build_SignalColumns sbit sbyte len bo vt fa off un (Some col) ma
  else if has (py "max") || has (py "最大值") then
    Build_SignalColumns sbit sbyte len bo vt fa off un mi (Some col)
  else cs.

Definition signal_columns (df : DataFrame) : SignalColumns :=
  fold_left assign_column (columns df) no_columns.

Definition mem_str (x : str) (l : list str) : bool := existsb (str_eqb x) l.

Definition byte_order_of (cs : SignalColumns) (r : row) : str :=
  match byte_order_col cs with
  | Some _ =>
    let byte_order_val := get r (byte_order_col cs) in
    if notna byte_order_val then
      if mem_str (lower (strip (str_of byte_order_val)))
           [py "intel"; py "little endian"; py "little"]
      then py "Intel" else py "Motorola"
    else py "Motorola"
  | None => py "Motorola"
  end.

Definition signal_length_of (cs : SignalColumns) (r : row) : result str :=
  match signal_length_col cs with
  | Some _ =>
    let length_val := get r (signal_length_col cs) in
    if notna length_val then
      except_value_type
        (bind (int_of_float_of length_val) (fun length =>
         ok (if (0 <? length)%Z then str_of_int length else py "8")))
        (ok (py "8"))
    else ok (py "8")
  | None => ok (py "8")
  end.

Definition value_type_of (cs : SignalColumns) (r : row) : str :=
  match value_type_col cs with
  | Some _ =>
    let value_type_val := get r (value_type_col cs) in
    if notna value_type_val then
      if mem_str (lower (strip (str_of value_type_val))) [py "unsigned"; py "无符号"]
      then py "Unsigned" else py "Signed"
    else py "Unsigned"
  | None => py "Unsigned"
  end.

(** The start bit: start byte and bit within the byte, counted the Intel
    way whatever byte order the row declares. *)
Definition actual_start_bit_of (cs : SignalColumns) (r : row) : result Z :=
  let start_byte_val := get_or r (start_byte_col cs) (CInt 0) in
  let start_bit_val := get_or r (start_bit_col cs) (CInt 0) in
  if notna start_byte_val && notna start_bit_val then
    except_value_type
      (bind (int_of_float_of start_byte_val) (fun start_byte =>
       bind (int_of_float_of start_bit_val) (fun bit_in_byte =>
       ok (start_byte * 8 + bit_in_byte)%Z)))
      (ok 0%Z)
  else ok 0%Z.

(** A column read as [str(float(cell))], keeping [default] when the column
    is not mapped, the cell is missing or the conversion fails. *)
Definition float_text_of (col : option str) (r : row) (default : str) : result str :=
  match col with
  | Some _ =>
    let v := get r col in
    if notna v then
      except_value_type (bind (float_of v) (fun x => ok (float_repr x))) (ok default)
    else ok default
  | None => ok default
  end.

Definition unit_of (cs : SignalColumns) (r : row) : str :=
  match unit_col cs with
  | Some _ =>
    let unit_val := get r (unit_col cs) in
    if notna unit_val then strip (str_of unit_val) else []
  | None => []
  end.

(** The signal built from a signal row. *)
Definition signal_of_row (cs : SignalColumns) (r : row) (signal_name : str)
    : result Signal :=
  let byte_order := byte_order_of cs r in
  bind (signal_length_of cs r) (fun signal_length =>
  let value_type := value_type_of cs r in
  bind (actual_start_bit_of cs r) (fun actual_start_bit =>
  let start_bit := str_of_int actual_start_bit in
  bind (float_text_of (factor_col cs) r (py "1.0")) (fun factor =>
  bind (float_text_of (offset_col cs) r (py "0.0")) (fun offset =>
  let unit := unit_of cs r in
  bind (float_text_of (min_val_col cs) r (py "0")) (fun min_val =>
  bind (float_text_of (max_val_col cs) r (py "0")) (fun max_val =>
  ok {| sig_name := signal_name; sig_start_bit := start_bit;
        sig_length := signal_length; sig_byte_order := byte_order;
        sig_value_type := value_type; sig_factor := factor;
        sig_offset := offset; sig_min := min_val; sig_max := max_val;
        sig_unit := unit; sig_receiver := Vector__XXX |})))))).

(** [signals[k].append(v)], the list created when the key is new. *)
Fixpoint dict_append {V} (d : dict (list V)) (k : str) (v : V) : dict (list V) :=
  match d with
  | [] => [(k, [v])]
  | (k', l) :: t =>
    if str_eqb k' k then (k', l ++ [v]) :: t else (k', l) :: dict_append t k v
  end.

(** The state of the loop over the rows: the id of the message whose
    signals are being read, and the signals found. *)
Record SignalState : Type := {
  current_msg_id : option str;
  signals : dict (list Signal)
}.

(** The header branch: a row whose id cell is not missing. *)
Definition header_step (st : SignalState) (msg_id_val : cell) : SignalState :=
  let msg_id_str := strip (str_of msg_id_val) in
  if str_eqb msg_id_str [] then st
  else
    {| current_msg_id :=
         match (if has_hex_prefix msg_id_str
                then int_of_str 16 msg_id_str
                else int_of_str 10 msg_id_str) with
         | Some n => Some (str_of_int n)
         | None => None
         end;
       signals := signals st |}.

Definition signal_step (message_id_col signal_name_col : option str)
    (cs : SignalColumns) (st : SignalState) (r : row) : result SignalState :=
  let msg_id_val := get r message_id_col in
  if notna msg_id_val then ok (header_step st msg_id_val)
  else
    match current_msg_id st with
    | Some id =>
      if str_eqb id [] then ok st
      else
        let signal_name_val := get r signal_name_col in
        if notna signal_name_val then
          let signal_name := strip (str_of signal_name_val) in
          if str_eqb signal_name [] then ok st
          else
            bind (signal_of_row cs r signal_name) (fun signal =>
            ok {| current_msg_id := current_msg_id st;
                  signals := dict_append (signals st) id signal |})
        else ok st
    | None => ok st
    end.

Definition _extract_signals (df : DataFrame) : result (dict (list Signal)) :=
  match find is_message_id_col (columns df) with
  | None => ok []
  | Some mc =>
    match find is_signal_name_col (columns df) with
    | None => ok []
    | Some sc =>
      bind (foldM (signal_step (Some mc) (Some sc) (signal_columns df))
              (iterrows df) {| current_msg_id := None; signals := [] |})
        (fun st => ok (signals st))
    end
  end.


(** *** [_generate_messages_and_signals] *)

Definition bo_line (msg_id : str) (msg : Message) : str :=
  py "BO_ " ++ msg_id ++ py " " ++ msg_name msg ++ py ": " ++ msg_dlc msg
  ++ py " " ++ msg_sender msg.

Definition sg_line (signal : Signal) : str :=
  let factor := sig_factor signal in
  let offset := sig_offset signal in
  let min_val := sig_min signal in
  let max_val := sig_max signal in
  let unit := strip (sig_unit signal) in
  (py " SG_ " ++ sig_name signal ++ py " : " ++ sig_start_bit signal ++ py "|"
   ++ sig_length signal ++ py "@1"
   ++ (if str_eqb (sig_value_type signal) (py "Unsigned") then py "+" else py "-"))
  ++ (py " (" ++ factor ++ py "," ++ offset ++ py ") [" ++ min_val ++ py "|"
      ++ max_val ++ py "] " ++ [dq] ++ unit ++ [dq] ++ py " " ++ sig_receiver signal).

(** The lines one message contributes. *)
Definition message_lines (sigs : dict (list Signal)) (entry : str * Message)
    : list str :=
  let '(msg_id, msg) := entry in
  [bo_line msg_id msg; []]
  ++ match dict_get sigs msg_id with
     | Some l => List.map sg_line l
     | None => []
     end
  ++ [[]; []].

Definition _generate_messages_and_signals (messages : dict Message)
    (sigs : dict (list Signal)) : str :=
  join newline (flat_map (message_lines sigs) messages).

(** *** [_generate_messages] and [_generate_signals], the separate writers *)

Definition _generate_messages (messages : dict Message) : str :=
  match messages with
  | [] => []
  | _ => join newline (List.map (fun entry => bo_line (fst entry) (snd entry)) messages)
  end.

(** The two lines [_generate_signals] writes for a signal. *)
Definition separate_sg_line (signal : Signal) : str :=
  (py " SG_ " ++ sig_name signal ++ py " : " ++ sig_start_bit signal ++ py "|"
   ++ sig_length signal ++ py "@"
   ++ (if str_eqb (sig_byte_order signal) (py "Intel") then py "1" else py "0")
   ++ (if str_eqb (sig_value_type signal) (py "Unsigned") then py "+" else py "-")
   ++ newline)
  ++ (py "            (1.0,0.0) [0|0] " ++ [dq; dq] ++ py " " ++ sig_receiver signal).

Definition _generate_signals (sigs : dict (list Signal)) : str :=
  match sigs with
  | [] => []
  | _ =>
    join newline
      (flat_map (fun entry : str * list Signal =>
                   List.map separate_sg_line (snd entry) ++ [[]])
         sigs)
  end.

(** *** [generate_dbc] *)

(** The bus suffix a node column contributes: the text after its last
    underscore, when the column holds at least one cell. *)
Definition bus_suffix_of (df : DataFrame) (col : str) : result (list str) :=
  if contains [underscore] col then
    let parts := split underscore col in
    if (2 <=? List.length parts)%nat then
      let bus_suffix := last_part parts in
      bind (column df col) (fun cells =>
      let non_na_count := List.length (filter notna cells) in
      ok (if (0 <? non_na_count)%nat then [bus_suffix] else []))
    else ok []
  else ok [].

Definition detect_bus_types (df : DataFrame) (node_cols : list str)
    : result (list str) :=
  bind (foldM (fun acc col => bind (bus_suffix_of df col) (fun l => ok (acc ++ l)))
          node_cols [])
    (fun l => ok (sorted_set l)).

(** The text written to every file of a run. *)
Definition file_content (df : DataFrame) (node_cols : list str) (is_canfd : bool)
    : result str :=
  let header := _generate_header is_canfd in
  let nodes := _extract_nodes df node_cols in
  bind (_extract_messages df) (fun messages =>
  bind (_extract_signals df) (fun sigs =>
  ok (header ++ _generate_nodes nodes
      ++ _generate_messages_and_signals messages sigs))).

Definition bus_output_file (os : platform) (output_file bus_type : str) : str :=
  let '(base_name, ext) := splitext os output_file in
  base_name ++ py "_" ++ bus_type ++ py "CAN" ++ ext.

Definition truthy (s : option str) : bool :=
  match s with
  | Some (_ :: _) => true
  | _ => false
  end.

(** [generate_dbc]: the files of a run that returns [True], as pairs of a
    name and a text, or [None] when it returns [False].  The set of bus
    types is walked here in sorted order; Python fixes no order. *)
Definition generate_dbc (os : platform) (self : DBCGenerator) (output_file : str)
    (node_type controller_name target_bus_type : option str) (is_canfd : bool)
    : option (list (str * str)) :=
  match matrix_data self, node_columns self with
  | None, _ => None
  | _, [] => None
  | Some df, _ =>
    match detect_bus_types df (node_columns self) with
    | inl _ => None
    | inr detected =>
      let chosen :=
        if truthy target_bus_type then
          match target_bus_type with
          | Some t => if mem_str t detected then Some [t] else None
          | None => None
          end
        else Some detected in
      match chosen with
      | None => None
      | Some bus_types =>
        match foldM (fun files bus_type =>
                       bind (file_content df (node_columns self) is_canfd)
                         (fun content =>
                          ok (files ++ [(bus_output_file os output_file bus_type,
                                         content)])))
                bus_types [] with
        | inl _ => None
        | inr files => Some files
        end
      end
    end
  end.


End Core.

(** ** [cli/commands.py] *)

Module Cli.
Import Py Frame.



End Cli.

(** ** [dbc_generator.py], the single-file generator *)

Module Legacy.
Import Py Frame.

Definition dict := Core.dict.
Definition dq : N := 34%N.
Definition newline : str := [10%N].

(** A literal in which the apostrophe stands for the double quote. *)
Definition q (s : string) : str :=
  List.map (fun c => if (c =? 39)%N then dq else c) (py s).

(** A number: an [int] or a [float]. *)
Inductive num : Type :=
| NInt (z : Z)
| NFloat (f : float).

Record Signal : Type := {
  msg_name : str;
  sig_name : str;
  start_bit : Z;
  signal_length : Z;
  byte_order : str;
  is_signed : Z;
  factor : num;
  offset : num;
  min_phys : num;
  max_phys : num;
  unit : str;
  receivers : list str
}.

Record Message : Type := {
  id : str;
  dlc : Z;
  sender : str;
  cycle_time : Z;
  signals : list Signal
}.

Record DBCGenerator : Type := {
  matrix_data : option DataFrame;
  node_columns : list str;
  available_node_types : list str
}.

(** *** [load_matrix]: the node-type columns *)

(** The test on one stripped label. *)
Definition is_node_type_column (col_str : str) : bool :=
  contains [underscore] col_str &&
  (let parts := split underscore col_str in
   let suffix := last_part parts in
   let prefix := join [underscore] (init_parts parts) in
   (isalpha suffix && isupper suffix) &&
   (negb (startswith (py "LV") prefix) && negb (endswith (py "EV") col_str))).

Definition always_included : list str :=
  List.map py ["PCU_P"; "PCU_E"; "VCU_P"; "VCU_E"; "VCU_C"; "VCU_T"; "VCU_B"]%string.

Definition identify_node_columns (df : DataFrame) : list str :=
  sorted_set
    (filter is_node_type_column (List.map strip (columns df))
     ++ filter (fun c => Core.mem_str c (columns df)) always_included).

(** The generator once [load_matrix] has read the table. *)
Definition load_matrix (df : DataFrame) : DBCGenerator :=
  {| matrix_data := Some df;
     node_columns := identify_node_columns df;
     available_node_types := identify_node_columns df |}.

(** *** [_parse_hex_value] *)

Definition _parse_hex_value (value : cell) : result Z :=
  except_value_type
    (match value with
     | CStr s =>
       let value := upper (strip s) in
       if startswith (py "0X") value then of_option ValueError (int_of_str 16 value)
       else if startswith (py "0B") value then of_option ValueError (int_of_bits value)
       else of_option ValueError (int_of_str 10 value)
     | _ => int_of value
     end)
    (ok 0%Z).

(** *** [_format_message_id] *)

Definition _format_message_id (message_id : cell) : str :=
  let message_id := upper (strip (str_of message_id)) in
  if startswith (py "0X") message_id then message_id
  else py "0x" ++ message_id.

(** *** [_extract_message_info] *)

Definition col_msg_name : str := py "Msg Name" ++ newline ++ py "报文名称".
Definition col_msg_id : str := py "Msg ID" ++ newline ++ py "报文标识符".
Definition col_msg_length : str := py "Msg Length (Byte)" ++ newline ++ py "报文长度".
Definition col_cycle_time : list str :=
  [py "Msg Cycle Time (ms)" ++ newline ++ py "报文周期时间";
   py "Msg Cycle Time (ms)" ++ newline ++ py "报文 周期时间"].

(** [str(row[col]).strip() if pd.notna(row[col]) else default]. *)
Definition text_at (r : row) (col : str) (default : str) : result str :=
  v <- at_ r col ;;
  ok (if notna v then strip (str_of v) else default).

(** [int(row[col]) if pd.notna(row[col]) else default]. *)
Definition int_at (r : row) (col : str) (default : Z) : result Z :=
  v <- at_ r col ;;
  if notna v then int_of v else ok default.

(** [col in row and pd.notna(row[col]) and row[col] == marker]. *)
Definition marked (r : row) (marker : str) (col : str) : bool :=
  match lookup r col with
  | Some v => notna v && cell_eqb v (CStr marker)
  | None => false
  end.

(** The sender: the first node column, in order, that reads [Tx]. *)
Definition sender_of (node_cols : list str) (r : row) : str :=
  match find (marked r (py "Tx")) node_cols with
  | Some col => col
  | None => py "Unknown"
  end.

Definition present (r : row) (col : str) : bool :=
  match lookup r col with
  | Some v => notna v
  | None => false
  end.

Definition cycle_time_of (r : row) : result Z :=
  match find (present r) col_cycle_time with
  | Some col => except_value_type (int_of (get r (Some col))) (ok 0%Z)
  | None => ok 0%Z
  end.

Definition message_info_step (node_cols : list str) (messages : dict Message)
    (r : row) : result (dict Message) :=
  msg_name <- text_at r col_msg_name [] ;;
  if negb (str_eqb msg_name []) && negb (Core.dict_mem messages msg_name) then
    id_val <- at_ r col_msg_id ;;
    let msg_id := _format_message_id id_val in
    msg_len <- int_at r col_msg_length 8 ;;
    let sender := sender_of node_cols r in
    cycle_time <- cycle_time_of r ;;
    ok (messages ++
        [(msg_name, {| id := msg_id; dlc := msg_len; sender := sender;
                       cycle_time := cycle_time; signals := [] |})])
  else ok messages.

Definition _extract_message_info (self : DBCGenerator) (df : DataFrame)
    : result (dict Message) :=
  Core.foldM (message_info_step (node_columns self)) (iterrows df) [].

(** *** [_extract_signal_info] *)

Definition col_signal_name : str := py "Signal Name" ++ newline ++ py "信号名称".
Definition col_start_byte : str := py "Start Byte" ++ newline ++ py "起始字节".
Definition col_start_bit : str := py "Start Bit" ++ newline ++ py "起始位".
Definition col_bit_length : str := py "Bit Length (Bit)" ++ newline ++ py "信号长度".
Definition col_byte_order : str := py "Byte Order" ++ newline ++ py "排列格式".
Definition col_value_type : str := py "Date Type" ++ newline ++ py "数据类型".
Definition col_factor : list str :=
  [py "Factor" ++ newline ++ py "比例因子"; py "Factor" ++ newline ++ py "比例因子 "].
Definition col_offset : list str :=
  [py "Offset" ++ newline ++ py "偏移量"; py "Offset" ++ newline ++ py "偏移 量"].
Definition col_min_phys : list str :=
  [py "Signal Min. Value (phys)" ++ newline ++ py "物理最小值"].
Definition col_max_phys : list str :=
  [py "Signal Max. Value (phys)" ++ newline ++ py "物理最大值"].
Definition col_unit : list str := [py "Unit" ++ newline ++ py "单位"].

(** [get_column_value(row, col_names, default, float)]. *)
Definition get_float_value (r : row) (col_names : list str) (default : float)
    : result num :=
  match find (present r) col_names with
  | Some col =>
    except_value_type (x <- float_of (get r (Some col)) ;; ok (NFloat x))
      (ok (NFloat default))
  | None => ok (NFloat default)
  end.

(** [get_column_value(row, col_names, '', str)]. *)
Definition get_str_value (r : row) (col_names : list str) : str :=
  match find (present r) col_names with
  | Some col => str_of (get r (Some col))
  | None => []
  end.

Definition signal_of_row (node_cols : list str) (r : row)
    (current_msg_name sig_name : str) : result Signal :=
  start_byte <- int_at r col_start_byte 0 ;;
  start_bit <- int_at r col_start_bit 0 ;;
  let intel_start_bit := (start_byte * 8 + start_bit)%Z in
  sig_len <- int_at r col_bit_length 8 ;;
  byte_order <- text_at r col_byte_order (py "Intel") ;;
  value_type <- text_at r col_value_type (py "Unsigned") ;;
  let is_signed := if str_eqb (lower value_type) (py "signed") then 1%Z else 0%Z in
  factor <- get_float_value r col_factor (FFin 1) ;;
  offset <- get_float_value r col_offset (FFin 0) ;;
  min_phys <- get_float_value r col_min_phys (FFin 0) ;;
  max_phys <- get_float_value r col_max_phys (FFin 0) ;;
  let unit := strip (get_str_value r col_unit) in
  let receivers := filter (marked r (py "Rx")) node_cols in
  ok {| msg_name := current_msg_name; sig_name := sig_name;
        start_bit := intel_start_bit; signal_length := sig_len;
        byte_order := byte_order; is_signed := is_signed;
        factor := factor; offset := offset;
        min_phys := min_phys; max_phys := max_phys;
        unit := unit; receivers := receivers |}.

(** One turn of the loop: the state is the current message name and the
    signals found so far. *)
Definition signal_info_step (node_cols : list str) (st : str * list Signal)
    (r : row) : result (str * list Signal) :=
  let '(current_msg_name, sigs) := st in
  msg_name <- text_at r col_msg_name [] ;;
  let current_msg_name :=
    if str_eqb msg_name [] then current_msg_name else msg_name in
  sig_name <- text_at r col_signal_name [] ;;
  if negb (str_eqb current_msg_name []) && negb (str_eqb sig_name []) then
    signal <- signal_of_row node_cols r current_msg_name sig_name ;;
    ok (current_msg_name, sigs ++ [signal])
  else ok (current_msg_name, sigs).

Definition _extract_signal_info (self : DBCGenerator) (df : DataFrame)
    : result (list Signal) :=
  st <- Core.foldM (signal_info_step (node_columns self)) (iterrows df) ([], []) ;;
  ok (snd st).

(** *** [generate_dbc] *)

(** [format_num]: an integral value without a fractional part, any other
    with three decimals, trailing zeros and a trailing point removed. *)
Definition format_num (n : num) : result str :=
  match n with
  | NInt z => ok (str_of_int z)
  | NFloat x =>
    i <- int_of_float x ;;
    if cell_eqb (CFloat x) (CInt i) then ok (str_of_int i)
    else ok (rstrip_cp dot_cp (rstrip_cp zero_cp (format_3f x)))
  end.

(** The messages kept when a node type is asked for. *)
Definition filter_message (node_type : str) (entry : str * Message)
    : list (str * Message) :=
  let '(name, msg_info) := entry in
  let is_sender := str_eqb (sender msg_info) node_type in
  let filtered_signals :=
    filter (fun signal => Core.mem_str node_type (receivers signal) || is_sender)
      (signals msg_info) in
  match filtered_signals with
  | [] => []
  | _ => [(name, {| id := id msg_info; dlc := dlc msg_info;
                    sender := sender msg_info;
                    cycle_time := cycle_time msg_info;
                    signals := filtered_signals |})]
  end.

(** The signals of each message: those that carry its name, in order. *)
Definition attach_signals (sigs : list Signal) (messages : dict Message)
    : dict Message :=
  List.map (fun entry : str * Message =>
    let '(name, m) := entry in
    (name, {| id := id m; dlc := dlc m; sender := sender m;
              cycle_time := cycle_time m;
              signals := signals m
                         ++ filter (fun sg => str_eqb (msg_name sg) name) sigs |}))
    messages.

Definition namespace_block : str :=
  flat_map (fun l => py l ++ newline)
    ["NS_ : "; " NS_DESC_"; " CM_"; " BA_DEF_"; " BA_"; " VAL_"; " CAT_DEF_";
     " CAT_"; " FILTER"; " BA_DEF_DEF_"; " EV_DATA_"; " ENVVAR_DATA_";
     " SGTYPE_"; " SGTYPE_VAL_"; " BA_DEF_SGTYPE_"; " BA_SGTYPE_";
     " SIG_TYPE_REF_"; " VAL_TABLE_"; " SIG_GROUP_"; " SIG_VALTYPE_";
     " SIGTYPE_VALTYPE_"; " BO_TX_BU_"; " BA_DEF_REL_"; " BA_REL_";
     " BA_DEF_DEF_REL_"; " BU_SG_REL_"; " BU_EV_REL_"; " BU_BO_REL_";
     " SG_MUL_VAL_"]%string
  ++ newline.

(** The attribute definitions, the same in every file. *)
Definition attribute_block : str :=
  flat_map (fun l => q l ++ newline) [
    "BA_DEF_ BO_  'GenMsgStartDelayTime' INT 0 0;";
    "BA_DEF_ BO_  'GenMsgDelayTime' INT 0 0;";
    "BA_DEF_ BO_  'GenMsgNrOfRepetition' INT 0 0;";
    "BA_DEF_ BO_  'GenMsgCycleTimeFast' INT 0 0;";
    "BA_DEF_ BO_  'GenMsgCycleTime' INT 0 0;";
    "BA_DEF_ BO_  'GenMsgSendType' ENUM  'Cyclic','NotUsed','NotUsed','NotUsed','NotUsed','NotUsed','NotUsed','IfActive','NoMsgSendType','NotUsed';";
    "BA_DEF_ SG_  'GenSigStartValue' INT 0 0;";
    "BA_DEF_ SG_  'GenSigInactiveValue' INT 0 0;";
    "BA_DEF_ SG_  'GenSigCycleTimeActive' INT 0 0;";
    "BA_DEF_ SG_  'GenSigCycleTime' INT 0 0;";
    "BA_DEF_ SG_  'GenSigSendType' ENUM  'Cyclic','OnWrite','OnWriteWithRepetition','OnChange','OnChangeWithRepetition','IfActive','IfActiveWithRepetition','NoSigSendType','NotUsed','NotUsed','NotUsed','NotUsed','NotUsed';";
    "BA_DEF_  'Baudrate' INT 0 1000000;";
    "BA_DEF_  'BusType' STRING ;";
    "BA_DEF_  'NmType' STRING ;";
    "BA_DEF_  'Manufacturer' STRING ;";
    "BA_DEF_ BO_  'TpTxIndex' INT 0 255;";
    "BA_DEF_ BU_  'NodeLayerModules' STRING ;";
    "BA_DEF_ BU_  'NmStationAddress' HEX 0 255;";
    "BA_DEF_ BU_  'NmNode' ENUM  'no','yes';";
    "BA_DEF_ BO_  'NmMessage' ENUM  'no','yes';";
    "BA_DEF_  'NmAsrWaitBusSleepTime' INT 0 65535;";
    "BA_DEF_  'NmAsrTimeoutTime' INT 1 65535;";
    "BA_DEF_  'NmAsrRepeatMessageTime' INT 0 65535;";
    "BA_DEF_ BU_  'NmAsrNodeIdentifier' HEX 0 255;";
    "BA_DEF_ BU_  'NmAsrNode' ENUM  'no','yes';";
    "BA_DEF_  'NmAsrMessageCount' INT 1 256;";
    "BA_DEF_ BO_  'NmAsrMessage' ENUM  'no','yes';";
    "BA_DEF_ BU_  'NmAsrCanMsgReducedTime' INT 1 65535;";
    "BA_DEF_  'NmAsrCanMsgCycleTime' INT 1 65535;";
    "BA_DEF_ BU_  'NmAsrCanMsgCycleOffset' INT 0 65535;";
    "BA_DEF_  'NmAsrBaseAddress' HEX 0 2047;";
    "BA_DEF_ BU_  'ILUsed' ENUM  'no','yes';";
    "BA_DEF_  'ILTxTimeout' INT 0 65535;";
    "BA_DEF_ SG_  'GenSigTimeoutValue' INT 0 65535;";
    "BA_DEF_ SG_  'GenSigTimeoutTime' INT 0 65535;";
    "BA_DEF_ BO_  'GenMsgILSupport' ENUM  'no','yes';";
    "BA_DEF_ BO_  'GenMsgFastOnStart' INT 0 65535;";
    "BA_DEF_ BO_  'DiagUudtResponse' ENUM  'false','true';";
    "BA_DEF_ BO_  'DiagUudResponse' ENUM  'False','True';";
    "BA_DEF_ BO_  'DiagState' ENUM  'no','yes';";
    "BA_DEF_ BO_  'DiagResponse' ENUM  'no','yes';";
    "BA_DEF_ BO_  'DiagRequest' ENUM  'no','yes';";
    "BA_DEF_  'DBName' STRING ;";
    "BA_DEF_DEF_  'GenMsgStartDelayTime' 0;";
    "BA_DEF_DEF_  'GenMsgDelayTime' 0;";
    "BA_DEF_DEF_  'GenMsgNrOfRepetition' 0;";
    "BA_DEF_DEF_  'GenMsgCycleTimeFast' 0;";
    "BA_DEF_DEF_  'GenMsgCycleTime' 0;";
    "BA_DEF_DEF_  'GenMsgSendType' 'Cyclic';";
    "BA_DEF_DEF_  'GenSigStartValue' 0;";
    "BA_DEF_DEF_  'GenSigInactiveValue' 0;";
    "BA_DEF_DEF_  'GenSigCycleTimeActive' 0;";
    "BA_DEF_DEF_  'GenSigCycleTime' 0;";
    "BA_DEF_DEF_  'GenSigSendType' 'Cyclic';";
    "BA_DEF_DEF_  'Baudrate' 500000;";
    "BA_DEF_DEF_  'BusType' '';";
    "BA_DEF_DEF_  'NmType' '';";
    "BA_DEF_DEF_  'Manufacturer' 'Vector';";
    "BA_DEF_DEF_  'TpTxIndex' 0;";
    "BA_DEF_DEF_  'NodeLayerModules' ' ';";
    "BA_DEF_DEF_  'NmStationAddress' 0;";
    "BA_DEF_DEF_  'NmNode' 'no';";
    "BA_DEF_DEF_  'NmMessage' 'no';";
    "BA_DEF_DEF_  'NmAsrWaitBusSleepTime' 1500;";
    "BA_DEF_DEF_  'NmAsrTimeoutTime' 2000;";
    "BA_DEF_DEF_  'NmAsrRepeatMessageTime' 3200;";
    "BA_DEF_DEF_  'NmAsrNodeIdentifier' 50;";
    "BA_DEF_DEF_  'NmAsrNode' 'no';";
    "BA_DEF_DEF_  'NmAsrMessageCount' 128;";
    "BA_DEF_DEF_  'NmAsrMessage' 'no';";
    "BA_DEF_DEF_  'NmAsrCanMsgReducedTime' 320;";
    "BA_DEF_DEF_  'NmAsrCanMsgCycleTime' 640;";
    "BA_DEF_DEF_  'NmAsrCanMsgCycleOffset' 0;";
    "BA_DEF_DEF_  'NmAsrBaseAddress' 1280;";
    "BA_DEF_DEF_  'ILUsed' 'no';";
    "BA_DEF_DEF_  'ILTxTimeout' 0;";
    "BA_DEF_DEF_  'GenSigTimeoutValue' 0;";
    "BA_DEF_DEF_  'GenSigTimeoutTime' 0;";
    "BA_DEF_DEF_  'GenMsgILSupport' 'no';";
    "BA_DEF_DEF_  'GenMsgFastOnStart' 0;";
    "BA_DEF_DEF_  'DiagUudtResponse' 'false';";
    "BA_DEF_DEF_  'DiagUudResponse' 'False';";
    "BA_DEF_DEF_  'DiagState' 'no';";
    "BA_DEF_DEF_  'DiagResponse' 'no';";
    "BA_DEF_DEF_  'DiagRequest' 'no';";
    "BA_DEF_DEF_  'DBName' '';";
    "BA_ 'Manufacturer' 'Vector';";
    "BA_ 'NmType' 'NmAsr';";
    "BA_ 'BusType' 'CAN';";
    "BA_ 'Baudrate' 500000;";
    "BA_ 'NmAsrWaitBusSleepTime' 2000;";
    "BA_ 'DBName' 'Generated_DBC_File';"
  ]%string
  ++ newline.

Definition truthy (s : option str) : bool :=
  match s with
  | Some (_ :: _) => true
  | _ => false
  end.

Definition bu_line (self : DBCGenerator) (node_type : option str) : str :=
  match node_type with
  | Some ((_ :: _) as nt) => py "BU_: " ++ nt ++ newline ++ newline ++ newline
  | _ =>
    match available_node_types self with
    | [] => py "BU_: PCU_P" ++ newline ++ newline ++ newline
    | l => py "BU_: " ++ join (py " ") l ++ newline ++ newline ++ newline
    end
  end.

(** The receivers written on every [SG_] line. *)
Definition sg_receivers (self : DBCGenerator) (node_type : option str) : list str :=
  match node_type with
  | Some ((_ :: _) as nt) => [nt]
  | _ => match available_node_types self with
         | [] => [py "PCU_P"]
         | l => l
         end
  end.

Definition signal_def (self : DBCGenerator) (node_type : option str)
    (signal : Signal) : result str :=
  let byte_order_str := lower (byte_order signal) in
  let byte_order_val :=
    if contains (py "intel") byte_order_str then py "1" else py "0" in
  let value_type := if (is_signed signal =? 1)%Z then py "-" else py "+" in
  let receivers := sg_receivers self node_type in
  fstart <- format_num (NInt (start_bit signal)) ;;
  flen <- format_num (NInt (signal_length signal)) ;;
  ffactor <- format_num (factor signal) ;;
  foffset <- format_num (offset signal) ;;
  fmin <- format_num (min_phys signal) ;;
  fmax <- format_num (max_phys signal) ;;
  ok (py "SG_ " ++ sig_name signal ++ py " : " ++ fstart ++ py "|" ++ flen
      ++ py "@" ++ byte_order_val ++ value_type
      ++ py " (" ++ ffactor ++ py "," ++ foffset ++ py ") [" ++ fmin ++ py "|"
      ++ fmax ++ py "] " ++ [dq] ++ unit signal ++ [dq] ++ py " "
      ++ join (py " ") receivers ++ newline).

(** [int(msg_info['id'], 16)]. *)
Definition msg_id_dec_of (msg_info : Message) : result Z :=
  of_option ValueError (int_of_str 16 (id msg_info)).

Definition emitted_sender (msg_info : Message) : str :=
  if str_eqb (sender msg_info) (py "Unknown") then py "Vector__XXX"
  else sender msg_info.

(** The [BO_] line of a message and the [SG_] lines of its signals. *)
Definition message_block (self : DBCGenerator) (node_type : option str)
    (entry : str * Message) : result str :=
  let '(name, msg_info) := entry in
  msg_id_dec <- msg_id_dec_of msg_info ;;
  let sender := emitted_sender msg_info in
  let bo := py "BO_ " ++ str_of_int msg_id_dec ++ py " " ++ name ++ py ": "
            ++ str_of_int (dlc msg_info) ++ py " " ++ sender ++ newline in
  sgs <- Core.foldM (fun acc signal =>
                       d <- signal_def self node_type signal ;; ok (acc ++ d))
           (signals msg_info) [] ;;
  ok (bo ++ sgs ++ newline ++ newline).

Definition attribute_values (entry : str * Message) : result str :=
  let '(_, msg_info) := entry in
  msg_id_dec <- msg_id_dec_of msg_info ;;
  let i := str_of_int msg_id_dec in
  ok (q "BA_ 'GenMsgSendType' BO_ " ++ i ++ py " 0;" ++ newline
      ++ q "BA_ 'GenMsgCycleTime' BO_ " ++ i ++ py " 100;" ++ newline
      ++ flat_map (fun signal =>
           q "BA_ 'GenSigStartValue' SG_ " ++ i ++ py " " ++ sig_name signal
           ++ py " 0;" ++ newline) (signals msg_info)).

Definition value_tables (entry : str * Message) : result str :=
  let '(_, msg_info) := entry in
  msg_id_dec <- msg_id_dec_of msg_info ;;
  ok (flat_map (fun signal =>
        py "VAL_ " ++ str_of_int msg_id_dec ++ py " " ++ sig_name signal
        ++ py " ;" ++ newline) (signals msg_info)).

Definition concatM {A} (f : A -> result str) (l : list A) : result str :=
  Core.foldM (fun acc a => t <- f a ;; ok (acc ++ t)) l [].

(** The text built before the post-processing. *)
Definition dbc_content_of (self : DBCGenerator) (node_type : option str)
    (filtered_messages : dict Message) : result str :=
  blocks <- concatM (message_block self node_type) filtered_messages ;;
  values <- concatM attribute_values filtered_messages ;;
  tables <- concatM value_tables filtered_messages ;;
  ok (py "VERSION " ++ [dq; dq] ++ newline ++ newline ++ newline
      ++ namespace_block
      ++ py "BS_:" ++ newline ++ newline ++ newline
      ++ bu_line self node_type
      ++ blocks
      ++ attribute_block
      ++ values
      ++ newline
      ++ tables
      ++ newline).

(** [content.replace('\r\n', '\n').replace('\r', '\n')]. *)
Fixpoint replace_crlf (s : str) : str :=
  match s with
  | 13%N :: 10%N :: r => 10%N :: replace_crlf r
  | c :: r => c :: replace_crlf r
  | [] => []
  end.

Definition replace_cr (s : str) : str :=
  List.map (fun c => if (c =? 13)%N then 10%N else c) s.

Definition normalize_newlines (s : str) : str := replace_cr (replace_crlf s).

Definition omega : N := 937%N.

(** [ensure_ascii]: what one character contributes. *)
Definition ensure_ascii_char (char : N) : str :=
  if (char <? 128)%N then [char]
  else if (char =? omega)%N then py "Ohm"
  else [].

Definition ensure_ascii (content : str) : str :=
  flat_map ensure_ascii_char content.

Definition post_process (content : str) : str :=
  ensure_ascii (normalize_newlines content).

(** [generate_dbc]: the name and the text of the file written, or [None]
    when the run returns [False].  Creating the output directory and the
    write itself are left to the file system. *)
Definition generate_dbc (self : DBCGenerator) (output_file : str)
    (node_type controller_name can_bus_type : option str)
    : option (str * str) :=
  match matrix_data self with
  | None => None
  | Some df =>
    let run :=
      messages <- _extract_message_info self df ;;
      sigs <- _extract_signal_info self df ;;
      let messages := attach_signals sigs messages in
      let filtered_messages :=
        match node_type with
        | Some ((_ :: _) as nt) => flat_map (filter_message nt) messages
        | _ => messages
        end in
      dbc_content <- dbc_content_of self node_type filtered_messages ;;
      let output_file :=
        if endswith (py ".dbc") (lower output_file) then output_file
        else output_file ++ py ".dbc" in
      ok (output_file, post_process dbc_content) in
    match run with
    | inl _ => None
    | inr file => Some file
    end
  end.


(** *** [convert_from_excel] and [main] *)


(** The bus type [main] names the output file after. *)
Definition bus_type_of (node_type : str) : str :=
  if contains [underscore] node_type then
    let suffix := last_part (split underscore node_type) in
    if str_eqb suffix (py "P") then py "PCAN"
    else if str_eqb suffix (py "E") then py "ECAN"
    else if str_eqb suffix (py "C") then py "CCAN"
    else if str_eqb suffix (py "T") then py "TCAN"
    else if str_eqb suffix (py "B") then py "BCAN"
    else suffix ++ py "CAN"
  else node_type ++ py "_CAN".

(** The output path [main] passes on: the default path is replaced when a
    node type is given.  [base_name] is the name of the input file without
    directory and extension. *)
Definition named_output_path (base_name output_path : str)
    (node_type : option str) : str :=
  if str_eqb output_path (py "output.dbc") && truthy node_type then
    match node_type with
    | Some nt => base_name ++ py "_" ++ bus_type_of nt ++ py ".dbc"
    | None => output_path
    end
  else output_path.

End Legacy.

(** ** Notions the properties are stated with *)

Module Spec.
Import Py Frame.

(** [int(x)] of a finite float: the integer part. *)
Definition trunc (q : Q) : Z := Z.quot (Qnum q) (Zpos (Qden q)).

Definition is_integral (q : Q) : bool := Qeq_bool (inject_Z (trunc q)) q.

(** The digits after the point once the trailing zeros are gone, for a
    number of thousandths below 1000. *)
Definition fraction_digits (m : Z) : str :=
  rstrip_cp zero_cp (pad_left 3 (numeral 10 false m)).

(** A value with three decimals at most: sign, integer part, then the
    point and the digits that remain, if any. *)
Definition three_decimals (q : Q) : str :=
  let k := round_half_even (Qmult (Qabs q) (1000 # 1)) in
  (match Qcompare q 0 with Lt => [minus_sign] | _ => [] end)
  ++ numeral 10 false (k / 1000)
  ++ match fraction_digits (k mod 1000) with
     | [] => []
     | f => dot_cp :: f
     end.

(** Reading one more decimal digit. *)
Definition digit_step (acc : Z) (c : N) : Z := (acc * 10 + (Z.of_N c - 48))%Z.

(** The order [sorted] puts text in: by code points, a prefix first. *)
Definition str_lt (a b : str) : Prop := str_compare a b = Lt.

(** A message whose sender is the default marker node. *)
Definition default_sender (entry : str * Core.Message) : Prop :=
  Core.msg_sender (snd entry) = py "Vector__XXX".


(** The column of a field is not mapped, or the cell of the row under it is
    empty. *)
Definition missing (col : option str) (r : row) : bool :=
  match col with
  | None => true
  | Some _ => isna (get r col)
  end.

(** The signal made of defaults alone. *)
Definition default_signal (name : str) : Core.Signal :=
  {| Core.sig_name := name; Core.sig_start_bit := py "0";
     Core.sig_length := py "8"; Core.sig_byte_order := py "Motorola";
     Core.sig_value_type := py "Unsigned"; Core.sig_factor := py "1.0";
     Core.sig_offset := py "0.0"; Core.sig_min := py "0";
     Core.sig_max := py "0"; Core.sig_unit := [];
     Core.sig_receiver := py "Vector__XXX" |}.

(** A node column holds data: it is a column of the table and one of its
    cells at least is not empty. *)
Definition has_data (df : DataFrame) (col : str) : Prop :=
  exists cells, column df col = ok cells /\ existsb notna cells = true.

(** The bus suffix of a node column: the text after its last underscore. *)
Definition bus_suffix (col : str) : str := last_part (split underscore col).

(** How a header row reads its id text: base 16 after a [0x] or [0X]
    prefix, base 10 otherwise. *)
Definition read_id (t : str) : option Z :=
  if Core.has_hex_prefix t then int_of_str 16 t else int_of_str 10 t.

(** What the digits after the point satisfy: they are the padded numeral
    without its zeros at the end, three at most, none of them a final zero. *)
Definition fraction_check (m : Z) : bool :=
  let p := pad_left 3 (numeral 10 false m) in
  let f := fraction_digits m in
  str_eqb p (f ++ repeat zero_cp (3 - List.length f))
  && (List.length f <=? 3)%nat
  && forallb isdigit_cp f
  && match rev f with
     | [] => true
     | d :: _ => negb (d =? zero_cp)%N
     end.

(** [format_num] applied to the float a literal denotes. *)
Definition format_literal (s : string) : option (result str) :=
  option_map (fun x => Legacy.format_num (Legacy.NFloat x)) (float_of_str (py s)).


(** The attributes of a signal that are read from a column found by
    keyword, in the order in which the keywords are tried. *)
Inductive role : Type :=
| StartBit | StartByte | BitLength | ByteOrder | ValueType
| Factor | Offset | Unit | MinVal | MaxVal.

Definition roles : list role :=
  [StartBit; StartByte; BitLength; ByteOrder; ValueType;
   Factor; Offset; Unit; MinVal; MaxVal].

Definition role_eqb (a b : role) : bool :=
  match a, b with
  | StartBit, StartBit | StartByte, StartByte | BitLength, BitLength
  | ByteOrder, ByteOrder | ValueType, ValueType | Factor, Factor
  | Offset, Offset | Unit, Unit | MinVal, MinVal | MaxVal, MaxVal => true
  | _, _ => false
  end.

(** A label names a role when, in lower case, it holds a keyword of it. *)
Definition names_role (r : role) (col : str) : bool :=
  let l := lower col in
  match r with
  | StartBit => contains (py "start bit") l || contains (py "起始位") l
  | StartByte => contains (py "start byte") l || contains (py "起始字节") l
  | BitLength => contains (py "bit length") l || contains (py "信号长度") l
  | ByteOrder => contains (py "byte order") l || contains (py "排列格式") l
  | ValueType => contains (py "date type") l || contains (py "数据类型") l
  | Factor => contains (py "factor") l || contains (py "比例因子") l
  | Offset => contains (py "offset") l || contains (py "偏移量") l
  | Unit => contains (py "unit") l
  | MinVal => contains (py "min") l || contains (py "最小值") l
  | MaxVal => contains (py "max") l || contains (py "最大值") l
  end.

(** The role a label is given: the first one, in the order of [roles],
    that it names. *)
Definition role_of (col : str) : option role :=
  find (fun r => names_role r col) roles.

Definition has_role (r : role) (col : str) : bool :=
  match role_of col with
  | Some r' => role_eqb r' r
  | None => false
  end.

Definition column_of (cs : Core.SignalColumns) (r : role) : option str :=
  match r with
  | StartBit => Core.start_bit_col cs
  | StartByte => Core.start_byte_col cs
  | BitLength => Core.signal_length_col cs
  | ByteOrder => Core.byte_order_col cs
  | ValueType => Core.value_type_col cs
  | Factor => Core.factor_col cs
  | Offset => Core.offset_col cs
  | Unit => Core.unit_col cs
  | MinVal => Core.min_val_col cs
  | MaxVal => Core.max_val_col cs
  end.

(** A column of the table without any cell that holds something. *)
Definition no_data (df : DataFrame) (col : str) : Prop :=
  exists cells, column df col = ok cells /\ existsb notna cells = false.

(** What every message the modular generator stores satisfies. *)
Definition well_formed_message (entry : str * Core.Message) : Prop :=
  Core.msg_id (snd entry) = fst entry
  /\ Core.msg_signals (snd entry) = []
  /\ Core.msg_name (snd entry) <> []
  /\ exists n, int_of_str 10 (Core.msg_dlc (snd entry)) = Some n /\ (0 <= n <= 15)%Z.

(** A digit of an upper-case hexadecimal numeral. *)
Definition hex_char (c : N) : Prop := (48 <= c <= 57)%N \/ (65 <= c <= 70)%N.

(** A key of the signals: the numeral [str] gives for an integer. *)
Definition canonical_id (k : str) : Prop := exists n, k = str_of_int n.

(** What the loop over the signal rows keeps true of its state. *)
Definition signal_state_ok (st : Core.SignalState) : Prop :=
  (forall id, Core.current_msg_id st = Some id -> canonical_id id)
  /\ Forall (fun entry : str * list Core.Signal =>
               canonical_id (fst entry) /\ snd entry <> []) (Core.signals st)
  /\ NoDup (List.map fst (Core.signals st)).

(** The characters [repr] writes a float with: digits, and those of
    [.e+-] and of [nan] and [inf]. *)
Definition float_char (c : N) : Prop :=
  isdigit_cp c = true \/ In c [46; 101; 43; 45; 110; 97; 105; 102]%N.

(** A message of the single-file generator with another cycle time. *)
Definition with_cycle_time (m : Legacy.Message) (t : Z) : Legacy.Message :=
  {| Legacy.id := Legacy.id m; Legacy.dlc := Legacy.dlc m;
     Legacy.sender := Legacy.sender m; Legacy.cycle_time := t;
     Legacy.signals := Legacy.signals m |}.

(** The signals the node type filter keeps of a message. *)
Definition kept_signals (node_type : str) (m : Legacy.Message) : list Legacy.Signal :=
  filter (fun sg => Core.mem_str node_type (Legacy.receivers sg)
                    || str_eqb (Legacy.sender m) node_type)
    (Legacy.signals m).

End Spec.

(** ** Tables the properties are tried on *)

Module Examples.
Import Py Frame.

Definition text (s : string) : cell := CStr (py s).
Definition number (q : Q) : cell := CFloat (FFin q).

(** The labels of the matrix sheet. *)
Definition sheet_columns : list str :=
  [Legacy.col_msg_id; Legacy.col_msg_name; Legacy.col_msg_length;
   Legacy.col_signal_name; Legacy.col_start_byte; Legacy.col_start_bit;
   Legacy.col_bit_length; Legacy.col_byte_order; Legacy.col_value_type;
   py "Factor" ++ [10%N] ++ py "比例因子"; py "Unit" ++ [10%N] ++ py "单位";
   py "VCU_P"; py "VCU_E"; py "LV1_EV"].

(** One message sent by [VCU_P], with one signal whose unit is the ohm. *)
Definition engine_with_id (id : cell) : DataFrame :=
  {| columns := sheet_columns;
     data :=
       [[id; text "EngineStatus"; CInt 8; CNone; CNone; CNone; CNone;
         CNone; CNone; CNone; CNone; text "Tx"; CNone; CNone];
        [CNone; CNone; CNone; text "EngineSpeed"; number 0; number 0; number 16;
         text "Motorola"; text "Unsigned"; number (3602879701896397 # 36028797018963968);
         text "Ω"; CNone; text "Rx"; CNone]] |}.

Definition engine : DataFrame := engine_with_id (text "0x100").

(** The same table with a header row whose id does not parse put between
    the message and its signal. *)
Definition engine_interrupted : DataFrame :=
  {| columns := sheet_columns;
     data :=
       match data engine with
       | header :: rest =>
         header
         :: [text "zz"; text "Broken"; CInt 8; CNone; CNone; CNone; CNone;
             CNone; CNone; CNone; CNone; CNone; CNone; CNone]
         :: rest
       | [] => []
       end |}.

(** A signal row that places a signal at bit 3 of byte 2 and declares the
    byte order [order]. *)
Definition placed_row (order : string) : row :=
  combine sheet_columns
    [CNone; CNone; CNone; text "Torque"; number 2; number 3; number 12;
     text order; text "Unsigned"; CNone; CNone; CNone; text "Rx"; CNone].

Definition role_columns : Core.SignalColumns :=
  Core.signal_columns {| columns := sheet_columns; data := [] |}.

(** A sheet with a start byte column and no start bit column: one
    message, one signal at byte 2. *)
Definition no_start_bit : DataFrame :=
  {| columns := [Legacy.col_msg_id; Legacy.col_signal_name; Legacy.col_start_byte];
     data := [[text "0x100"; CNone; CNone];
              [CNone; text "Torque"; number 2]] |}.

(** The start bits of the signals found, message by message. *)
Definition signal_start_bits (found : result (Core.dict (list Core.Signal)))
    : option (list (str * list str)) :=
  match found with
  | inr d => Some (List.map (fun e => (fst e, List.map Core.sig_start_bit (snd e))) d)
  | inl _ => None
  end.

(** The modular generator over a table whose node columns are [cols]. *)
Definition core_with (df : DataFrame) (cols : list string) : Core.DBCGenerator :=
  {| Core.matrix_data := Some df; Core.node_columns := List.map py cols |}.

(** The names of the signals found, message by message. *)
Definition signal_names (found : result (Core.dict (list Core.Signal)))
    : option (list (str * list str)) :=
  match found with
  | inr d => Some (List.map (fun e => (fst e, List.map Core.sig_name (snd e))) d)
  | inl _ => None
  end.

Definition core_of (df : DataFrame) : Core.DBCGenerator :=
  {| Core.matrix_data := Some df;
     Core.node_columns := Excel.extract_node_columns (Some df) |}.

(** A row of the sheet from its first cells: the cells after them are empty. *)
Definition sheet_row (cells : list cell) : list cell :=
  cells ++ repeat CNone (List.length sheet_columns - List.length cells).

(** One message with one signal whose factor cell is [factor]. *)
Definition with_factor (factor : cell) : DataFrame :=
  {| columns := sheet_columns;
     data := [sheet_row [text "0x100"; text "EngineStatus"; CInt 8];
              sheet_row [CNone; CNone; CNone; text "EngineSpeed"; CInt 0; CInt 0;
                         CInt 16; CNone; CNone; factor]] |}.

End Examples.

(** * Properties *)

(** ** Facts about the built-ins *)

Section TextFacts.
Import Py.

Lemma str_eqb_eq (a b : str) : str_eqb a b = true <-> a = b.
Proof. unfold str_eqb. destruct (list_eq_dec N.eq_dec a b); split; congruence. Qed.

Lemma str_eqb_refl (a : str) : str_eqb a a = true.
Proof. now apply str_eqb_eq. Qed.

Lemma str_eqb_neq (a b : str) : str_eqb a b = false <-> a <> b.
Proof. unfold str_eqb. destruct (list_eq_dec N.eq_dec a b); split; congruence. Qed.

(** Stripping one character from the left stops at the first other one. *)
Lemma lstrip_cp_stop (c d : N) (s : str) :
  d <> c -> lstrip_cp c (d :: s) = d :: s.
Proof. intros H. simpl. now apply N.eqb_neq in H as ->. Qed.

Lemma lstrip_cp_app (c : N) (a b : str) :
  Forall (eq c) a -> lstrip_cp c (a ++ b) = lstrip_cp c b.
Proof.
  induction 1 as [|x l Hx _ IH]; simpl; [reflexivity|].
  subst x. now rewrite N.eqb_refl.
Qed.

(** [rstrip] removes a run of [c] at the end and nothing before a last
    character that differs. *)
Lemma rstrip_cp_run (c : N) (a z : str) :
  Forall (eq c) z -> rstrip_cp c (a ++ z) = rstrip_cp c a.
Proof.
  intros H. unfold rstrip_cp. rewrite rev_app_distr.
  rewrite lstrip_cp_app; [reflexivity|].
  now apply Forall_rev.
Qed.

Lemma rstrip_cp_last (c d : N) (a : str) :
  d <> c -> rstrip_cp c (a ++ [d]) = a ++ [d].
Proof.
  intros H. unfold rstrip_cp. rewrite rev_app_distr. simpl rev at 2. simpl app.
  rewrite lstrip_cp_stop by assumption.
  simpl. now rewrite rev_involutive.
Qed.

End TextFacts.

(** ** The post-processing of the single-file generator *)

Section PostProcessing.
Import Py Legacy.

Lemma replace_cr_no_cr (s : str) : Forall (fun c => c <> 13%N) (replace_cr s).
Proof.
  induction s as [|c r IH]; simpl; constructor; try assumption.
  destruct (N.eqb_spec c 13); [discriminate | assumption].
Qed.

Lemma replace_cr_id (s : str) :
  Forall (fun c => c <> 13%N) s -> replace_cr s = s.
Proof.
  induction 1 as [|c r Hc _ IH]; simpl; [reflexivity|].
  apply N.eqb_neq in Hc. now rewrite Hc, IH.
Qed.

Lemma replace_crlf_id (s : str) :
  Forall (fun c => c <> 13%N) s -> replace_crlf s = s.
Proof.
  induction 1 as [|c r Hc _ IH]; [reflexivity|].
  assert (E : replace_crlf (c :: r) = c :: replace_crlf r).
  { destruct c as [|p]; [reflexivity|].
    do 4 (destruct p as [p|p|]; try reflexivity). congruence. }
  now rewrite E, IH.
Qed.

Lemma ensure_ascii_char_ascii (c : N) :
  Forall (fun d => (d < 128)%N /\ (d = 13%N -> c = 13%N)) (ensure_ascii_char c).
Proof.
  unfold ensure_ascii_char.
  destruct (N.ltb_spec c 128).
  - repeat constructor; auto.
  - destruct (N.eqb_spec c omega).
    + cbn. repeat constructor; try lia; discriminate.
    + constructor.
Qed.

Lemma ensure_ascii_spec (s : str) :
  Forall (fun d => (d < 128)%N /\ (d = 13%N -> In 13%N s)) (ensure_ascii s).
Proof.
  unfold ensure_ascii. induction s as [|c r IH]; simpl; [constructor|].
  apply Forall_app. split.
  - eapply Forall_impl; [|apply ensure_ascii_char_ascii].
    cbn. intros d [H1 H2]. split; auto.
  - eapply Forall_impl; [|exact IH]. cbn. intros d [H1 H2]. auto.
Qed.

Lemma post_process_ascii (content : str) :
  Forall (fun c => (c < 128)%N) (post_process content).
Proof.
  eapply Forall_impl; [|apply ensure_ascii_spec]. cbn. tauto.
Qed.

Lemma post_process_no_cr (content : str) :
  Forall (fun c => c <> 13%N) (post_process content).
Proof.
  eapply Forall_impl; [|apply ensure_ascii_spec].
  cbn. intros d [_ H] E. specialize (H E).
  pose proof (replace_cr_no_cr (replace_crlf content)) as F.
  rewrite Forall_forall in F. now apply (F _ H).
Qed.

Lemma ensure_ascii_id (s : str) :
  Forall (fun c => (c < 128)%N) s -> ensure_ascii s = s.
Proof.
  unfold ensure_ascii. induction 1 as [|c r Hc _ IH]; [reflexivity|].
  cbn [flat_map]. rewrite IH. unfold ensure_ascii_char.
  apply N.ltb_lt in Hc. now rewrite Hc.
Qed.

(** A text of ASCII characters without carriage return goes through
    unchanged. *)
Lemma post_process_id (s : str) :
  Forall (fun c => (c < 128)%N) s -> Forall (fun c => c <> 13%N) s ->
  post_process s = s.
Proof.
  intros A C. unfold post_process, normalize_newlines.
  rewrite (@replace_crlf_id s C), (@replace_cr_id s C).
  now apply ensure_ascii_id.
Qed.





End PostProcessing.

(** ** Numerals *)

Section Numerals.
Import Py.

Lemma digit_char (up : bool) (d : Z) :
  (0 <= d < 10)%Z ->
  (if (d <? 10)%Z then Z.to_N (48 + d)
   else if up then Z.to_N (55 + d) else Z.to_N (87 + d)) = Z.to_N (48 + d)
  /\ isdigit_cp (Z.to_N (48 + d)) = true
  /\ digit_value (Z.to_N (48 + d)) = Some d.
Proof.
  intros H. assert (E : (d <? 10)%Z = true) by (apply Z.ltb_lt; lia).
  rewrite E. split; [reflexivity|].
  assert (D : isdigit_cp (Z.to_N (48 + d)) = true).
  { unfold isdigit_cp. apply andb_true_iff. split; apply N.leb_le; lia. }
  split; [exact D|].
  unfold digit_value. rewrite D. f_equal. lia.
Qed.

Lemma digits_acc_S (b : Z) (up : bool) (f : nat) (n : Z) (acc : str) :
  digits_acc b up (S f) n acc =
  let d := (n mod b)%Z in
  let c := if (d <? 10)%Z then Z.to_N (48 + d)
           else if up then Z.to_N (55 + d) else Z.to_N (87 + d) in
  if (n <? b)%Z then c :: acc else digits_acc b up f (n / b)%Z (c :: acc).
Proof. reflexivity. Qed.

(** Every character of a decimal numeral is a digit. *)
Lemma digits_acc_digits (fuel : nat) : forall (n : Z) (acc : str),
  Forall (fun c => isdigit_cp c = true) acc ->
  Forall (fun c => isdigit_cp c = true) (digits_acc 10 false fuel n acc).
Proof.
  induction fuel as [|f IH]; intros n acc H; [assumption|].
  rewrite digits_acc_S. cbv zeta.
  assert (R : (0 <= n mod 10 < 10)%Z) by (apply Z.mod_pos_bound; lia).
  destruct (digit_char false R) as (E & D & _). rewrite E.
  destruct (n <? 10)%Z; [|apply IH]; constructor; assumption.
Qed.

Lemma digits_acc_length (fuel : nat) : forall (b : Z) (up : bool) (n : Z) (acc : str),
  (List.length acc < List.length (digits_acc b up (S fuel) n acc))%nat.
Proof.
  induction fuel as [|f IH]; intros b up n acc; rewrite digits_acc_S; cbv zeta.
  - destruct (n <? b)%Z; simpl; lia.
  - destruct (n <? b)%Z; [simpl; lia|].
    eapply Nat.lt_trans; [|apply IH]. simpl. lia.
Qed.

Lemma numeral_digits (n : Z) :
  Forall (fun c => isdigit_cp c = true) (numeral 10 false n).
Proof. apply digits_acc_digits. constructor. Qed.

Lemma numeral_nonempty (b : Z) (up : bool) (n : Z) : numeral b up n <> [].
Proof.
  unfold numeral. intros E.
  pose proof (digits_acc_length (Z.to_nat (Z.log2 n)) b up n []) as L.
  rewrite E in L. simpl in L. lia.
Qed.

(** A numeral ends with a digit. *)
Lemma numeral_last (n : Z) :
  exists ds d, numeral 10 false n = ds ++ [d] /\ isdigit_cp d = true.
Proof.
  destruct (exists_last (numeral_nonempty 10 false n)) as (ds & d & E).
  exists ds, d. split; [exact E|].
  pose proof (numeral_digits n) as F. rewrite E in F.
  apply Forall_app in F as [_ F]. now inversion F.
Qed.

Lemma isdigit_not_dot (d : N) : isdigit_cp d = true -> d <> dot_cp.
Proof. intros H ->. discriminate. Qed.

(** [str(n)] holds no decimal point. *)
Lemma str_of_int_no_dot (n : Z) :
  existsb (N.eqb dot_cp) (str_of_int n) = false.
Proof.
  assert (G : forall s, Forall (fun c => isdigit_cp c = true) s ->
              existsb (N.eqb dot_cp) s = false).
  { induction 1 as [|c r Hc _ IH]; [reflexivity|]. cbn [existsb]. rewrite IH.
    apply isdigit_not_dot in Hc. apply not_eq_sym, N.eqb_neq in Hc.
    now rewrite Hc. }
  unfold str_of_int.
  destruct (n <? 0)%Z;
    [cbn [existsb]; cbn [N.eqb dot_cp minus_sign Pos.eqb orb]|];
    apply G, numeral_digits.
Qed.

End Numerals.

(** ** Number formatting *)

Section Formatting.
Import Py Frame Legacy Spec.

Lemma fraction_check_all :
  forallb fraction_check (List.map Z.of_nat (seq 0 1000)) = true.
Proof. vm_compute. reflexivity. Qed.

Lemma fraction_check_ok (m : Z) : (0 <= m < 1000)%Z -> fraction_check m = true.
Proof.
  intros H. pose proof fraction_check_all as A.
  rewrite forallb_forall in A. apply A.
  apply in_map_iff. exists (Z.to_nat m). split; [lia|].
  apply in_seq. lia.
Qed.

(** Removing the zeros, then a point, at the end of a number written
    with three decimals. *)
Lemma strip_three_decimals (sign : str) (n m : Z) :
  (0 <= m < 1000)%Z ->
  rstrip_cp dot_cp
    (rstrip_cp zero_cp
       (sign ++ numeral 10 false n ++ [dot_cp] ++ pad_left 3 (numeral 10 false m)))
  = sign ++ numeral 10 false n
    ++ match fraction_digits m with
       | [] => []
       | f => dot_cp :: f
       end.
Proof.
  intros Hm. pose proof (fraction_check_ok Hm) as C.
  unfold fraction_check in C. cbv zeta in C.
  apply andb_true_iff in C as [C Hlast].
  apply andb_true_iff in C as [C Hdig].
  apply andb_true_iff in C as [Hpad _].
  apply str_eqb_eq in Hpad. rewrite Hpad.
  set (f := fraction_digits m) in *.
  assert (Z0 : Forall (eq zero_cp) (repeat zero_cp (3 - List.length f))).
  { apply Forall_forall. intros x Hx. now apply repeat_spec in Hx. }
  replace (sign ++ numeral 10 false n ++ [dot_cp]
           ++ f ++ repeat zero_cp (3 - List.length f))
    with ((sign ++ numeral 10 false n ++ [dot_cp] ++ f)
          ++ repeat zero_cp (3 - List.length f))
    by (now rewrite <- !app_assoc).
  rewrite rstrip_cp_run by exact Z0.
  destruct (numeral_last n) as (ds & d & En & Hd).
  destruct (rev f) as [|c r] eqn:Er.
  - assert (Ef : f = []) by (apply (f_equal (@rev N)) in Er;
      now rewrite rev_involutive in Er).
    rewrite Ef. rewrite app_nil_r.
    replace (sign ++ numeral 10 false n ++ [dot_cp])
      with ((sign ++ numeral 10 false n) ++ [dot_cp])
      by (now rewrite <- app_assoc).
    rewrite rstrip_cp_last by discriminate.
    rewrite rstrip_cp_run by (repeat constructor).
    rewrite En.
    replace (sign ++ ds ++ [d]) with ((sign ++ ds) ++ [d])
      by (now rewrite <- app_assoc).
    rewrite rstrip_cp_last by (now apply isdigit_not_dot).
    cbn [app]. now rewrite ?app_nil_r, <- ?app_assoc.
  - assert (Ef : f = rev r ++ [c]).
    { apply (f_equal (@rev N)) in Er. rewrite rev_involutive in Er.
      exact Er. }
    rewrite Ef in *.
    rewrite forallb_app in Hdig. apply andb_true_iff in Hdig as [_ Hc].
    simpl in Hc. rewrite andb_true_r in Hc.
    apply negb_true_iff, N.eqb_neq in Hlast.
    replace (sign ++ numeral 10 false n ++ [dot_cp] ++ rev r ++ [c])
      with ((sign ++ numeral 10 false n ++ [dot_cp] ++ rev r) ++ [c])
      by (now rewrite <- !app_assoc).
    rewrite rstrip_cp_last by exact Hlast.
    rewrite rstrip_cp_last by (now apply isdigit_not_dot).
    rewrite <- !app_assoc. simpl.
    destruct (rev r ++ [c]) eqn:E; [now destruct (rev r)|reflexivity].
Qed.

Lemma format_num_finite (q : Q) :
  format_num (NFloat (FFin q)) =
  ok (if is_integral q then str_of_int (trunc q) else three_decimals q).
Proof.
  unfold format_num, int_of_float. cbn [bind ok cell_eqb].
  change (Qeq_bool (inject_Z (Qnum q ÷ Z.pos (Qden q))) q) with (is_integral q).
  destruct (is_integral q); [reflexivity|].
  f_equal. unfold format_3f, three_decimals. cbv zeta.
  apply strip_three_decimals.
  apply Z.mod_pos_bound. lia.
Qed.

Lemma format_num_integer_float (z : Z) :
  format_num (NFloat (FFin (inject_Z z))) = ok (str_of_int z).
Proof.
  rewrite format_num_finite.
  assert (T : trunc (inject_Z z) = z) by (unfold trunc; simpl; apply Z.quot_1_r).
  unfold is_integral. rewrite T.
  now rewrite (proj2 (Qeq_bool_iff _ _) (Qeq_refl _)).
Qed.

Lemma fraction_digits_short (m : Z) :
  (List.length (fraction_digits (m mod 1000)) <= 3)%nat
  /\ forallb isdigit_cp (fraction_digits (m mod 1000)) = true
  /\ endswith [zero_cp] (fraction_digits (m mod 1000)) = false.
Proof.
  assert (Hm : (0 <= m mod 1000 < 1000)%Z) by (apply Z.mod_pos_bound; lia).
  pose proof (fraction_check_ok Hm) as C.
  unfold fraction_check in C. cbv zeta in C.
  apply andb_true_iff in C as [C Hlast].
  apply andb_true_iff in C as [C Hdig].
  apply andb_true_iff in C as [_ Hlen].
  split; [now apply Nat.leb_le|]. split; [exact Hdig|].
  unfold endswith. destruct (rev (fraction_digits (m mod 1000))) as [|d r].
  - reflexivity.
  - cbn [rev app startswith]. apply negb_true_iff in Hlast.
    rewrite N.eqb_sym, Hlast. reflexivity.
Qed.

End Formatting.

(** ** C7 and C8: the text written and the numbers in it *)

Section WrittenText.
Import Py Frame Legacy Spec.

(** C8: [format_num] writes an integral value as the integer numeral, with
    no decimal point, and any other finite value with three decimals at
    most: the value rounded to thousandths, the zeros at the end and then a
    point at the end removed.  The literals 8.000, 0.1 and 1.0005 come out
    as 8, 0.1 and 1. *)
Theorem C8_format_num :
  (forall z, format_num (NInt z) = ok (str_of_int z))
  /\ (forall z, format_num (NFloat (FFin (inject_Z z))) = ok (str_of_int z))
  /\ (forall z, existsb (N.eqb dot_cp) (str_of_int z) = false)
  /\ (forall q, format_num (NFloat (FFin q)) =
                ok (if is_integral q then str_of_int (trunc q) else three_decimals q))
  /\ (forall m, (List.length (fraction_digits (m mod 1000)) <= 3)%nat
                /\ forallb isdigit_cp (fraction_digits (m mod 1000)) = true
                /\ endswith [zero_cp] (fraction_digits (m mod 1000)) = false)
  /\ format_literal "8.000" = Some (ok (py "8"))
  /\ format_literal "0.1" = Some (ok (py "0.1"))
  /\ format_literal "1.0005" = Some (ok (py "1")).
Proof.
  split; [reflexivity|].
  split; [exact format_num_integer_float|].
  split; [exact str_of_int_no_dot|].
  split; [exact format_num_finite|].
  split; [exact fraction_digits_short|].
  repeat split; vm_compute; reflexivity.
Qed.




End WrittenText.

(** ** Splitting a label at its underscores *)

Section Splitting.
Import Py.

Lemma split_nonempty (sep : N) (s : str) : split sep s <> [].
Proof.
  destruct s as [|c r]; simpl; [discriminate|].
  destruct (c =? sep)%N; [discriminate|].
  destruct (split sep r); discriminate.
Qed.

Lemma split_cons_other (sep c : N) (r : str) :
  c <> sep ->
  exists p ps, split sep r = p :: ps /\ split sep (c :: r) = (c :: p) :: ps.
Proof.
  intros H. destruct (split sep r) as [|p ps] eqn:E.
  - now apply split_nonempty in E.
  - exists p, ps. split; [reflexivity|]. simpl.
    apply N.eqb_neq in H. now rewrite H, E.
Qed.

Lemma split_app (sep : N) (a b : str) :
  split sep (a ++ sep :: b) = split sep a ++ split sep b.
Proof.
  induction a as [|c a IH].
  - simpl. now rewrite N.eqb_refl.
  - destruct (N.eq_dec c sep) as [->|Hc].
    + simpl. rewrite N.eqb_refl. now rewrite IH.
    + destruct (split_cons_other a Hc) as (p & ps & E1 & E2).
      rewrite E2. simpl app at 1.
      destruct (split_cons_other (a ++ sep :: b) Hc) as (p' & ps' & E3 & E4).
      rewrite E4. rewrite IH, E1 in E3. simpl in E3.
      injection E3 as <- <-. reflexivity.
Qed.

Lemma split_no_sep (sep : N) (x : str) : ~ In sep x -> split sep x = [x].
Proof.
  induction x as [|c r IH]; intros H; [reflexivity|].
  assert (Hc : c <> sep) by (intros ->; apply H; now left).
  destruct (split_cons_other r Hc) as (p & ps & E1 & E2).
  rewrite E2. rewrite IH in E1 by (intros G; apply H; now right).
  now injection E1 as <- <-.
Qed.

Lemma join_split (sep : N) (s : str) : join [sep] (split sep s) = s.
Proof.
  induction s as [|c r IH]; [reflexivity|].
  destruct (N.eq_dec c sep) as [->|Hc].
  - simpl split. rewrite N.eqb_refl.
    destruct (split sep r) as [|p ps] eqn:E; [now apply split_nonempty in E|].
    change (join [sep] ([] :: p :: ps)) with ([] ++ [sep] ++ join [sep] (p :: ps)).
    now rewrite IH.
  - destruct (split_cons_other r Hc) as (p & ps & E1 & E2).
    rewrite E2. rewrite E1 in IH.
    destruct ps as [|p' ps'].
    + cbn [join] in *. now rewrite IH.
    + change (join [sep] ((c :: p) :: p' :: ps'))
        with (c :: (p ++ [sep] ++ join [sep] (p' :: ps'))).
      change (join [sep] (p :: p' :: ps'))
        with (p ++ [sep] ++ join [sep] (p' :: ps')) in IH.
      now rewrite IH.
Qed.

(** The text after the last separator, and the text before it. *)
Lemma split_at_last (sep : N) (a b : str) :
  ~ In sep b ->
  last_part (split sep (a ++ sep :: b)) = b
  /\ join [sep] (init_parts (split sep (a ++ sep :: b))) = a.
Proof.
  intros H. rewrite split_app, (@split_no_sep sep b H).
  unfold last_part, init_parts. split.
  - apply last_last.
  - rewrite removelast_last. apply join_split.
Qed.

Lemma last_separator (sep : N) (s : str) :
  In sep s -> exists a b, s = a ++ sep :: b /\ ~ In sep b.
Proof.
  induction s as [|c r IH]; intros H; [destruct H|].
  destruct (in_dec N.eq_dec sep r) as [Hr|Hr].
  - destruct (IH Hr) as (a & b & -> & Hb). now exists (c :: a), b.
  - destruct H as [->|H]; [|contradiction]. now exists [], r.
Qed.

Lemma contains_char (c : N) (s : str) : contains [c] s = true <-> In c s.
Proof.
  induction s as [|d r IH]; simpl.
  - split; [discriminate | tauto].
  - rewrite andb_true_r, orb_true_iff, IH, N.eqb_eq. intuition congruence.
Qed.



End Splitting.

(** ** Sorted sets of labels *)

Section SortedSets.
Import Py Spec.

Lemma str_compare_eq (a : str) : forall b, str_compare a b = Eq <-> a = b.
Proof.
  induction a as [|x a IH]; intros [|y b]; simpl; try (split; congruence).
  destruct (N.compare_spec x y) as [->|H|H].
  - rewrite IH. split; congruence.
  - split; [discriminate|]. intros E. injection E as -> _. lia.
  - split; [discriminate|]. intros E. injection E as -> _. lia.
Qed.

Lemma str_compare_refl (a : str) : str_compare a a = Eq.
Proof. now apply str_compare_eq. Qed.

Lemma str_compare_lt_trans (a : str) : forall b c,
  str_compare a b = Lt -> str_compare b c = Lt -> str_compare a c = Lt.
Proof.
  induction a as [|x a IH]; intros [|y b] [|z c]; simpl; try congruence.
  destruct (N.compare_spec x y) as [->|H|H]; try discriminate.
  - destruct (N.compare_spec y z) as [->|H'|H']; try discriminate; auto.
    + apply IH.
  - intros _. destruct (N.compare_spec y z) as [->|H'|H']; try discriminate.
    + intros _. now apply N.compare_lt_iff in H as ->.
    + intros _. assert (L : (x < z)%N) by lia.
      now apply N.compare_lt_iff in L as ->.
Qed.

Lemma str_compare_gt_lt (a : str) : forall b,
  str_compare a b = Gt -> str_compare b a = Lt.
Proof.
  induction a as [|x a IH]; intros [|y b]; simpl; try congruence.
  rewrite (N.compare_antisym x y).
  destruct (N.compare x y); simpl; try congruence. apply IH.
Qed.

Lemma set_insert_in (x y : str) (l : list str) :
  In y (set_insert x l) <-> y = x \/ In y l.
Proof.
  induction l as [|z r IH]; simpl; [intuition|].
  destruct (str_compare x z) eqn:E; simpl.
  - apply str_compare_eq in E. subst z. intuition.
  - intuition.
  - rewrite IH. intuition.
Qed.

Lemma sorted_set_in (y : str) (l : list str) : In y (sorted_set l) <-> In y l.
Proof.
  unfold sorted_set. induction l as [|x r IH]; simpl; [tauto|].
  rewrite set_insert_in, IH. intuition.
Qed.

Lemma set_insert_sorted (x : str) (l : list str) :
  StronglySorted str_lt l -> StronglySorted str_lt (set_insert x l).
Proof.
  induction 1 as [|z r Hs IH Hz]; simpl; [repeat constructor|].
  destruct (str_compare x z) eqn:E.
  - now constructor.
  - constructor; [now constructor|]. constructor; [exact E|].
    eapply Forall_impl; [|exact Hz]. intros w Hw.
    exact (str_compare_lt_trans _ _ _ E Hw).
  - constructor; [exact IH|]. apply Forall_forall. intros w Hw.
    apply set_insert_in in Hw as [->|Hw].
    + now apply str_compare_gt_lt.
    + rewrite Forall_forall in Hz. now apply Hz.
Qed.

Lemma sorted_set_sorted (l : list str) : StronglySorted str_lt (sorted_set l).
Proof.
  unfold sorted_set. induction l; simpl; [constructor | now apply set_insert_sorted].
Qed.

Lemma sorted_set_nodup (l : list str) : NoDup (sorted_set l).
Proof.
  pose proof (sorted_set_sorted l) as S.
  induction S as [|z r Hs IH Hz]; constructor; [|exact IH].
  intros Hin. rewrite Forall_forall in Hz. specialize (Hz z Hin).
  unfold str_lt in Hz. now rewrite str_compare_refl in Hz.
Qed.

End SortedSets.

(** ** C5: which labels are node columns *)

Section NodeColumns.
Import Py Frame.

Lemma mem_str_in (x : str) (l : list str) : Core.mem_str x l = true <-> In x l.
Proof.
  unfold Core.mem_str. rewrite existsb_exists. split.
  - intros (y & Hy & E). apply str_eqb_eq in E. now subst.
  - intros H. exists x. split; [exact H | apply str_eqb_refl].
Qed.


(** C5, on the modular tool: [ExcelHandler.extract_node_columns] tests the
    prefix, not the label, for the ending [EV].  The label [X_EV] ends with
    [EV] and is kept as a node column; [XEV_P] does not and is dropped.  The
    single-file generator decides both as the claim says, and both tools
    drop [LV1_EV] and keep [VCU_P]. *)
Theorem C5_core_tests_prefix_for_EV :
  let labels := {| columns := List.map py ["X_EV"; "XEV_P"; "LV1_EV"; "VCU_P"]%string;
                   data := [] |} in
  endswith (py "EV") (py "X_EV") = true
  /\ endswith (py "EV") (py "XEV_P") = false
  /\ Excel.extract_node_columns (Some labels) = List.map py ["X_EV"; "VCU_P"]%string
  /\ Legacy.identify_node_columns labels = List.map py ["VCU_P"; "XEV_P"]%string.
Proof. vm_compute. repeat split. Qed.

End NodeColumns.

(** ** Reading back a decimal numeral *)

Section ReadingNumerals.
Import Py Spec.

Lemma isdigit_value (c : N) :
  isdigit_cp c = true ->
  c <> underscore /\ digit_value c = Some (Z.of_N c - 48)%Z
  /\ (0 <= Z.of_N c - 48 < 10)%Z.
Proof.
  intros H. unfold digit_value. rewrite H. unfold isdigit_cp in H.
  apply andb_true_iff in H as [H1 H2]. apply N.leb_le in H1, H2.
  repeat split; try lia. intros ->. unfold underscore in *. lia.
Qed.

Lemma digits_value_digits (ds : str) : forall a,
  Forall (fun c => isdigit_cp c = true) ds ->
  digits_value 10 a ds = Some (fold_left digit_step ds a).
Proof.
  induction ds as [|c r IH]; intros a H; [reflexivity|].
  inversion H as [|? ? Hc Hr]; subst.
  destruct (isdigit_value c Hc) as (Hu & Hv & Hb).
  cbn [digits_value fold_left]. apply N.eqb_neq in Hu. rewrite Hu, Hv.
  assert (L : (Z.of_N c - 48 <? 10)%Z = true) by (apply Z.ltb_lt; lia).
  rewrite L. now apply IH.
Qed.

(** The digits [digits_acc] puts before [acc] read back as the number. *)
Lemma digits_acc_value (f : nat) : forall (n : Z) (acc : str),
  (0 <= n < 10 ^ Z.of_nat (S f))%Z ->
  exists ds, digits_acc 10 false (S f) n acc = ds ++ acc
    /\ forall a, fold_left digit_step ds a
                 = (a * 10 ^ Z.of_nat (List.length ds) + n)%Z.
Proof.
  induction f as [|f IH]; intros n acc Hn; rewrite digits_acc_S; cbv zeta.
  - assert (R : (0 <= n mod 10 < 10)%Z) by (apply Z.mod_pos_bound; lia).
    destruct (digit_char false R) as (E & _ & _). rewrite E.
    assert (L : (n <? 10)%Z = true) by (apply Z.ltb_lt; simpl in Hn; lia).
    rewrite L. exists [Z.to_N (48 + n mod 10)]. split; [reflexivity|].
    intros a. cbn [fold_left List.length]. unfold digit_step.
    rewrite Z.mod_small by (simpl in Hn; lia). rewrite Z2N.id by lia.
    change (10 ^ Z.of_nat 1)%Z with 10%Z. lia.
  - assert (R : (0 <= n mod 10 < 10)%Z) by (apply Z.mod_pos_bound; lia).
    destruct (digit_char false R) as (E & _ & _). rewrite E.
    destruct (Z.ltb_spec n 10) as [L|L].
    + exists [Z.to_N (48 + n mod 10)]. split; [reflexivity|].
      intros a. cbn [fold_left List.length]. unfold digit_step.
      rewrite Z.mod_small by lia. rewrite Z2N.id by lia.
      change (10 ^ Z.of_nat 1)%Z with 10%Z. lia.
    + assert (B : (0 <= n / 10 < 10 ^ Z.of_nat (S f))%Z).
      { split; [apply Z.div_pos; lia|].
        apply Z.div_lt_upper_bound; [lia|].
        replace (Z.of_nat (S (S f))) with (Z.succ (Z.of_nat (S f))) in Hn by lia.
        rewrite Z.pow_succ_r in Hn by lia. lia. }
      destruct (IH (n / 10)%Z (Z.to_N (48 + n mod 10) :: acc) B) as (ds & E1 & E2).
      exists (ds ++ [Z.to_N (48 + n mod 10)]). split.
      * rewrite E1. now rewrite <- app_assoc.
      * intros a. rewrite fold_left_app. cbn [fold_left]. rewrite E2.
        unfold digit_step. rewrite Z2N.id by lia.
        rewrite length_app. cbn [List.length].
        replace (Z.of_nat (List.length ds + 1)) with (Z.succ (Z.of_nat (List.length ds))) by lia.
        rewrite Z.pow_succ_r by lia.
        pose proof (Z.div_mod n 10). lia.
Qed.

Lemma numeral_value (n : Z) :
  (0 <= n)%Z -> fold_left digit_step (numeral 10 false n) 0%Z = n.
Proof.
  intros H. unfold numeral.
  assert (B : (0 <= n < 10 ^ Z.of_nat (S (Z.to_nat (Z.log2 n))))%Z).
  { split; [exact H|].
    destruct (Z.eq_dec n 0) as [->|Hz]; [reflexivity|].
    pose proof (Z.log2_spec n ltac:(lia)) as [_ U].
    pose proof (Z.log2_nonneg n).
    replace (Z.of_nat (S (Z.to_nat (Z.log2 n)))) with (Z.succ (Z.log2 n)) by lia.
    eapply Z.lt_le_trans; [exact U|].
    apply Z.pow_le_mono_l. lia. }
  destruct (@digits_acc_value _ n [] B) as (ds & E1 & E2).
  rewrite E1, app_nil_r, E2. lia.
Qed.

Lemma nonempty_digits_numeral (n : Z) :
  (0 <= n)%Z -> nonempty_digits 10 (numeral 10 false n) = Some n.
Proof.
  intros H. unfold nonempty_digits.
  pose proof (numeral_digits n) as D.
  pose proof (@numeral_nonempty 10 false n) as NE.
  destruct (numeral 10 false n) as [|c r] eqn:E; [congruence|].
  inversion D as [|? ? Hc _]; subst.
  destruct (isdigit_value c Hc) as (_ & Hv & Hb).
  unfold is_digit_in. rewrite Hv.
  assert (L : (Z.of_N c - 48 <? 10)%Z = true) by (apply Z.ltb_lt; lia).
  rewrite L, (@digits_value_digits _ 0%Z D), <- E. f_equal. now apply numeral_value.
Qed.

Lemma unsigned_of_str_decimal (s : str) :
  unsigned_of_str 10 s = nonempty_digits 10 s.
Proof.
  unfold unsigned_of_str.
  destruct s as [|c [|x r]]; try reflexivity;
    destruct c as [|p]; try reflexivity;
    do 6 (destruct p as [p|p|]; try reflexivity).
Qed.

Lemma lstrip_by_id (sp : N -> bool) (s : str) :
  Forall (fun c => sp c = false) s -> lstrip_by sp s = s.
Proof. intros H. destruct H as [|c r Hc _]; simpl; [reflexivity | now rewrite Hc]. Qed.

Lemma strip_by_id (sp : N -> bool) (s : str) :
  Forall (fun c => sp c = false) s -> strip_by sp s = s.
Proof.
  intros H. unfold strip_by. rewrite (@lstrip_by_id sp s H).
  rewrite lstrip_by_id by (now apply Forall_rev). apply rev_involutive.
Qed.

(** The characters of [str(n)]: digits, after a minus sign at most. *)
Lemma str_of_int_chars (n : Z) :
  Forall (fun c => isdigit_cp c = true \/ c = minus_sign) (str_of_int n).
Proof.
  unfold str_of_int.
  destruct (n <? 0)%Z; [constructor; [now right|]|];
    (eapply Forall_impl; [|apply numeral_digits]); cbn; auto.
Qed.

Lemma plain_char (c : N) :
  isdigit_cp c = true \/ c = minus_sign ->
  isspace_cp c = false /\ isspace_num_cp c = false
  /\ (c =? 120)%N = false /\ (c =? 88)%N = false.
Proof.
  intros [H | ->]; [|repeat split; reflexivity].
  unfold isdigit_cp in H. apply andb_true_iff in H as [H1 H2].
  apply N.leb_le in H1, H2.
  assert (S1 : isspace_cp c = false).
  { unfold isspace_cp, whitespace. cbn [existsb].
    repeat (match goal with
            | |- (N.eqb c ?k || _)%bool = false =>
              replace (N.eqb c k) with false by (symmetry; apply N.eqb_neq; lia);
              cbn [orb]
            end). reflexivity. }
  repeat split.
  - exact S1.
  - unfold isspace_num_cp. now rewrite S1.
  - apply N.eqb_neq. lia.
  - apply N.eqb_neq. lia.
Qed.

Lemma int_of_str_unsigned (b : Z) (s : str) (c : N) (r : str) :
  strip_by isspace_num_cp s = c :: r -> isdigit_cp c = true ->
  int_of_str b s = unsigned_of_str b (c :: r).
Proof.
  intros E H. unfold int_of_str. rewrite E.
  unfold isdigit_cp in H. apply andb_true_iff in H as [H1 H2].
  apply N.leb_le in H1, H2.
  destruct c as [|p]; [reflexivity|].
  do 6 (destruct p as [p|p|]; try reflexivity); lia.
Qed.

(** [int(str(n))] is [n]. *)
Lemma int_of_str_of_int (n : Z) : int_of_str 10 (str_of_int n) = Some n.
Proof.
  assert (S : strip_by isspace_num_cp (str_of_int n) = str_of_int n).
  { apply strip_by_id. eapply Forall_impl; [|apply str_of_int_chars].
    cbn. intros c H. now apply plain_char in H. }
  unfold str_of_int in *. destruct (Z.ltb_spec n 0) as [L|L].
  - unfold int_of_str. rewrite S. cbn [minus_sign].
    rewrite unsigned_of_str_decimal, nonempty_digits_numeral by lia.
    cbn. f_equal. lia.
  - pose proof (numeral_digits n) as D.
    pose proof (@numeral_nonempty 10 false n) as NE.
    destruct (numeral 10 false n) as [|c r] eqn:E; [congruence|].
    inversion D as [|? ? Hc _]; subst.
    rewrite (@int_of_str_unsigned 10 _ c r S Hc), <- E.
    rewrite unsigned_of_str_decimal. now apply nonempty_digits_numeral.
Qed.

Lemma str_of_int_no_prefix (n : Z) : Core.has_hex_prefix (str_of_int n) = false.
Proof.
  pose proof (str_of_int_chars n) as C. unfold Core.has_hex_prefix.
  change (py "0x") with [48; 120]%N. change (py "0X") with [48; 88]%N.
  destruct (str_of_int n) as [|a [|b r]]; try reflexivity.
  - cbn [startswith]. now rewrite !andb_false_r.
  - inversion C as [|? ? _ C']; subst. inversion C' as [|? ? Hb _]; subst.
    destruct (@plain_char b Hb) as (_ & _ & X1 & X2).
    cbn [startswith]. rewrite (N.eqb_sym 120 b), (N.eqb_sym 88 b), X1, X2.
    now rewrite !andb_false_r.
Qed.

End ReadingNumerals.

(** ** C2: the id of a [BO_] line *)

Section MessageIds.
Import Py Frame.

Lemma message_id_forms_hex (s : str) (n : Z) :
  Core.has_hex_prefix s = true -> int_of_str 16 s = Some n ->
  Core.message_id_forms s = ok (str_of_int n, s).
Proof. intros H E. unfold Core.message_id_forms. now rewrite H, E. Qed.

(** An id text without prefix that reads as a decimal integer is kept as
    it is written. *)
Lemma message_id_forms_decimal (s : str) (n : Z) :
  Core.has_hex_prefix s = false -> int_of_str 10 s = Some n ->
  Core.message_id_forms s = ok (s, py "0x" ++ hex_of_int n).
Proof. intros H E. unfold Core.message_id_forms. now rewrite H, E. Qed.

Lemma message_id_forms_numeral (n : Z) :
  Core.message_id_forms (str_of_int n) = ok (str_of_int n, py "0x" ++ hex_of_int n).
Proof.
  apply message_id_forms_decimal;
    [apply str_of_int_no_prefix | apply int_of_str_of_int].
Qed.







End MessageIds.

(** ** C3: a header row whose id does not parse *)

Section UnparsableIds.
Import Py Frame Spec.

Lemma header_step_unparsable (st : Core.SignalState) (v : cell) :
  strip (str_of v) <> [] -> read_id (strip (str_of v)) = None ->
  Core.header_step st v
  = {| Core.current_msg_id := None; Core.signals := Core.signals st |}.
Proof.
  intros Hne Hr. unfold Core.header_step. cbv zeta.
  apply str_eqb_neq in Hne. rewrite Hne.
  unfold read_id in Hr. now rewrite Hr.
Qed.

Lemma header_step_parsed (st : Core.SignalState) (v : cell) (n : Z) :
  strip (str_of v) <> [] -> read_id (strip (str_of v)) = Some n ->
  Core.header_step st v
  = {| Core.current_msg_id := Some (str_of_int n); Core.signals := Core.signals st |}.
Proof.
  intros Hne Hr. unfold Core.header_step. cbv zeta.
  apply str_eqb_neq in Hne. rewrite Hne.
  unfold read_id in Hr. now rewrite Hr.
Qed.

Lemma signal_step_header (mc sc : option str) (cs : Core.SignalColumns)
    (st : Core.SignalState) (r : row) :
  isna (get r mc) = false ->
  Core.signal_step mc sc cs st r = ok (Core.header_step st (get r mc)).
Proof.
  intros H. unfold Core.signal_step, notna. cbv zeta. now rewrite H.
Qed.

Lemma signal_step_no_message (mc sc : option str) (cs : Core.SignalColumns)
    (sigs : Core.dict (list Core.Signal)) (r : row) :
  isna (get r mc) = true ->
  Core.signal_step mc sc cs
    {| Core.current_msg_id := None; Core.signals := sigs |} r
  = ok {| Core.current_msg_id := None; Core.signals := sigs |}.
Proof.
  intros H. unfold Core.signal_step, notna. cbv zeta. now rewrite H.
Qed.

Lemma message_id_forms_raises (s : str) (e : exn) :
  Core.message_id_forms s = inl e -> e = ValueError.
Proof.
  unfold Core.message_id_forms.
  destruct (Core.has_hex_prefix s);
    [destruct (int_of_str 16 s) | destruct (int_of_str 10 s)];
    unfold of_option, bind, raise, ok; congruence.
Qed.

Lemma message_step_skips (idc namec dlcc : option str)
    (msgs : Core.dict Core.Message) (r : row) (e : exn) :
  Core.message_id_forms (strip (str_of (get r idc))) = inl e ->
  Core.message_step idc namec dlcc msgs r = ok msgs.
Proof.
  intros H. unfold Core.message_step. cbv zeta.
  destruct (isna (get r idc)); [reflexivity|].
  destruct (str_eqb (strip (str_of (get r idc))) []); [reflexivity|].
  pose proof (@message_id_forms_raises _ _ H) as ->. now rewrite H.
Qed.

(** C3, as amended.  In the modular generator a row whose id cell is not
    empty and does not parse is skipped without an error: no message is
    made of it, no signal is read from it, and the signals found so far are
    kept.  It closes the message that was open: the state of the signal
    loop becomes "no message", so the signal rows that follow are dropped
    until a header row with an id that parses opens a message. *)
Theorem C3_unparsable_id :
  (forall st v,
     strip (str_of v) <> [] -> read_id (strip (str_of v)) = None ->
     Core.header_step st v
     = {| Core.current_msg_id := None; Core.signals := Core.signals st |})
  /\ (forall mc sc cs st r,
        isna (get r mc) = false ->
        Core.signal_step mc sc cs st r = ok (Core.header_step st (get r mc)))
  /\ (forall mc sc cs sigs r,
        isna (get r mc) = true ->
        Core.signal_step mc sc cs
          {| Core.current_msg_id := None; Core.signals := sigs |} r
        = ok {| Core.current_msg_id := None; Core.signals := sigs |})
  /\ (forall st v n,
        strip (str_of v) <> [] -> read_id (strip (str_of v)) = Some n ->
        Core.header_step st v
        = {| Core.current_msg_id := Some (str_of_int n);
             Core.signals := Core.signals st |})
  /\ (forall idc namec dlcc msgs r e,
        Core.message_id_forms (strip (str_of (get r idc))) = inl e ->
        Core.message_step idc namec dlcc msgs r = ok msgs).
Proof.
  split; [exact header_step_unparsable|].
  split; [exact signal_step_header|].
  split; [exact signal_step_no_message|].
  split; [exact header_step_parsed | exact message_step_skips].
Qed.

(** The id text [zz] met while message 256 is open. *)
Lemma C3_unparsable_id_witness :
  Core.header_step
    {| Core.current_msg_id := Some (py "256"); Core.signals := [] |}
    (CStr (py "zz"))
  = {| Core.current_msg_id := None; Core.signals := [] |}.
Proof.
  apply (proj1 C3_unparsable_id
           {| Core.current_msg_id := Some (py "256"); Core.signals := [] |}
           (CStr (py "zz")));
    [discriminate | vm_compute; reflexivity].
Defined.

(** The single-file generator has no such recovery: it reads the id of
    every message with [int(id, 16)] while it writes the file, and a text
    that does not parse ends the run. *)
Lemma legacy_unparsable_id_aborts :
  Legacy.generate_dbc
    (Legacy.load_matrix (Examples.engine_with_id (Examples.text "zz")))
    (py "out") None None None
  = None.
Proof. vm_compute. reflexivity. Qed.

(** C3, as stated, fails: after the header row with the id text [zz] the
    signal row is no longer appended to message 256, which it is when that
    row is absent. *)
Lemma C3_signal_after_unparsable_id_is_dropped :
  Examples.signal_names (Core._extract_signals Examples.engine)
  = Some [(py "256", [py "EngineSpeed"])]
  /\ Examples.signal_names (Core._extract_signals Examples.engine_interrupted)
     = Some [].
Proof. vm_compute. split; reflexivity. Qed.

End UnparsableIds.

(** ** C1: the start bit *)

Section StartBit.
Import Py Frame Spec.

Lemma actual_start_bit (cs : Core.SignalColumns) (r : row) (sb bi : Z) :
  int_of_float_of (get_or r (Core.start_byte_col cs) (CInt 0)) = ok sb ->
  int_of_float_of (get_or r (Core.start_bit_col cs) (CInt 0)) = ok bi ->
  Core.actual_start_bit_of cs r = ok (sb * 8 + bi)%Z.
Proof.
  intros Hb Hi. unfold Core.actual_start_bit_of. cbv zeta.
  rewrite Hb, Hi. cbn [bind ok except_value_type].
  assert (N1 : forall v z, int_of_float_of v = ok z -> notna v = true).
  { intros v z. destruct v as [| |[| | |]|]; cbn; try reflexivity; discriminate. }
  now rewrite (N1 _ _ Hb), (N1 _ _ Hi).
Qed.

(** The only error a signal row can end in: a number too large for a
    float, in one of its numeric cells. *)
Lemma caught_conversion {A} (c : result A) (d : A) (e : exn) :
  (forall e', c = inl e' -> e' <> KeyError) ->
  except_value_type c (ok d) = inl e -> e = OverflowError.
Proof.
  intros K. destruct c as [[| | |]|a]; unfold except_value_type, ok;
    try congruence.
  intros _. now destruct (K KeyError eq_refl).
Qed.

Lemma float_of_not_key (v : cell) (e : exn) : float_of v = inl e -> e <> KeyError.
Proof.
  destruct v as [|z|f|s]; unfold float_of, raise, ok, of_option.
  - intros H. injection H as <-. discriminate.
  - unfold float_of_int, raise, ok.
    destruct (nearest_double (inject_Z z)); intros H; try discriminate H;
      injection H as <-; discriminate.
  - discriminate.
  - destruct (float_of_str s); intros H; try discriminate H;
      injection H as <-; discriminate.
Qed.

Lemma int_of_float_of_not_key (v : cell) (e : exn) :
  int_of_float_of v = inl e -> e <> KeyError.
Proof.
  unfold int_of_float_of. destruct (float_of v) as [e1|x] eqn:E; unfold bind.
  - intros H. injection H as <-. exact (@float_of_not_key _ _ E).
  - destruct x as [q| |b|]; unfold int_of_float, raise, ok; intros H;
      try discriminate H; injection H as <-; discriminate.
Qed.

Lemma signal_length_raises (cs : Core.SignalColumns) (r : row) (e : exn) :
  Core.signal_length_of cs r = inl e -> e = OverflowError.
Proof.
  unfold Core.signal_length_of.
  destruct (Core.signal_length_col cs); [|discriminate].
  destruct (notna _); [|discriminate].
  apply caught_conversion. intros e'.
  destruct (int_of_float_of _) as [e1|z] eqn:E; cbn; [|discriminate].
  intros H. injection H as <-. exact (int_of_float_of_not_key _ E).
Qed.

Lemma float_text_raises (col : option str) (r : row) (d : str) (e : exn) :
  Core.float_text_of col r d = inl e -> e = OverflowError.
Proof.
  unfold Core.float_text_of.
  destruct col; [|discriminate].
  destruct (notna _); [|discriminate].
  apply caught_conversion. intros e'.
  destruct (float_of _) as [e1|z] eqn:E; cbn; [|discriminate].
  intros H. injection H as <-. exact (float_of_not_key _ E).
Qed.

Lemma actual_start_bit_raises (cs : Core.SignalColumns) (r : row) (e : exn) :
  Core.actual_start_bit_of cs r = inl e -> e = OverflowError.
Proof.
  unfold Core.actual_start_bit_of. cbv zeta.
  destruct (notna _ && notna _); [|discriminate].
  apply caught_conversion. intros e'.
  destruct (int_of_float_of (get_or r (Core.start_byte_col cs) (CInt 0)))
    as [e1|z1] eqn:E1; cbn.
  - intros H. injection H as <-. exact (int_of_float_of_not_key _ E1).
  - destruct (int_of_float_of (get_or r (Core.start_bit_col cs) (CInt 0)))
      as [e2|z2] eqn:E2; cbn; [|discriminate].
    intros H. injection H as <-. exact (int_of_float_of_not_key _ E2).
Qed.

(** What [signal_of_row] returns, field by field. *)
Lemma signal_of_row_ok (cs : Core.SignalColumns) (r : row) (name : str)
    (sg : Core.Signal) :
  Core.signal_of_row cs r name = ok sg ->
  Core.sig_name sg = name
  /\ ok (Core.sig_start_bit sg)
     = bind (Core.actual_start_bit_of cs r) (fun z => ok (str_of_int z))
  /\ ok (Core.sig_length sg) = Core.signal_length_of cs r
  /\ Core.sig_byte_order sg = Core.byte_order_of cs r
  /\ Core.sig_value_type sg = Core.value_type_of cs r
  /\ ok (Core.sig_factor sg) = Core.float_text_of (Core.factor_col cs) r (py "1.0")
  /\ ok (Core.sig_offset sg) = Core.float_text_of (Core.offset_col cs) r (py "0.0")
  /\ ok (Core.sig_min sg) = Core.float_text_of (Core.min_val_col cs) r (py "0")
  /\ ok (Core.sig_max sg) = Core.float_text_of (Core.max_val_col cs) r (py "0")
  /\ Core.sig_unit sg = Core.unit_of cs r
  /\ Core.sig_receiver sg = Core.Vector__XXX.
Proof.
  unfold Core.signal_of_row. cbv zeta.
  destruct (Core.signal_length_of cs r) as [?|len]; [discriminate|].
  destruct (Core.actual_start_bit_of cs r) as [?|z]; [discriminate|].
  destruct (Core.float_text_of (Core.factor_col cs) r _) as [?|fa]; [discriminate|].
  destruct (Core.float_text_of (Core.offset_col cs) r _) as [?|off]; [discriminate|].
  destruct (Core.float_text_of (Core.min_val_col cs) r _) as [?|mi]; [discriminate|].
  destruct (Core.float_text_of (Core.max_val_col cs) r _) as [?|ma]; [discriminate|].
  cbn [bind ok]. intros H. injection H as <-. cbn. repeat split; reflexivity.
Qed.

(** A signal row fails only when a number of it is too large for a float. *)
Lemma signal_of_row_raises (cs : Core.SignalColumns) (r : row) (name : str)
    (e : exn) :
  Core.signal_of_row cs r name = inl e -> e = OverflowError.
Proof.
  unfold Core.signal_of_row. cbv zeta.
  destruct (Core.signal_length_of cs r) as [e1|len] eqn:E1;
    [cbn; intros H; injection H as <-; exact (signal_length_raises _ _ E1)|].
  destruct (Core.actual_start_bit_of cs r) as [e2|z] eqn:E2;
    [cbn; intros H; injection H as <-; exact (actual_start_bit_raises _ _ E2)|].
  destruct (Core.float_text_of (Core.factor_col cs) r _) as [e3|fa] eqn:E3;
    [cbn; intros H; injection H as <-; exact (float_text_raises _ _ _ E3)|].
  destruct (Core.float_text_of (Core.offset_col cs) r _) as [e4|off] eqn:E4;
    [cbn; intros H; injection H as <-; exact (float_text_raises _ _ _ E4)|].
  destruct (Core.float_text_of (Core.min_val_col cs) r _) as [e5|mi] eqn:E5;
    [cbn; intros H; injection H as <-; exact (float_text_raises _ _ _ E5)|].
  destruct (Core.float_text_of (Core.max_val_col cs) r _) as [e6|ma] eqn:E6;
    [cbn; intros H; injection H as <-; exact (float_text_raises _ _ _ E6)|].
  discriminate.
Qed.







End StartBit.

(** ** C6: the defaults of a signal *)

Section Defaults.
Import Py Frame Spec.

Lemma missing_float_text (col : option str) (r : row) (d : str) :
  missing col r = true -> Core.float_text_of col r d = ok d.
Proof.
  unfold missing, Core.float_text_of, notna.
  destruct col; [|reflexivity]. now intros ->.
Qed.

Lemma missing_length (cs : Core.SignalColumns) (r : row) :
  missing (Core.signal_length_col cs) r = true ->
  Core.signal_length_of cs r = ok (py "8").
Proof.
  unfold missing, Core.signal_length_of, notna.
  destruct (Core.signal_length_col cs); [|reflexivity]. now intros ->.
Qed.

Lemma missing_byte_order (cs : Core.SignalColumns) (r : row) :
  missing (Core.byte_order_col cs) r = true ->
  Core.byte_order_of cs r = py "Motorola".
Proof.
  unfold missing, Core.byte_order_of, notna.
  destruct (Core.byte_order_col cs); [|reflexivity]. now intros ->.
Qed.

Lemma missing_value_type (cs : Core.SignalColumns) (r : row) :
  missing (Core.value_type_col cs) r = true ->
  Core.value_type_of cs r = py "Unsigned".
Proof.
  unfold missing, Core.value_type_of, notna.
  destruct (Core.value_type_col cs); [|reflexivity]. now intros ->.
Qed.

Lemma missing_unit (cs : Core.SignalColumns) (r : row) :
  missing (Core.unit_col cs) r = true -> Core.unit_of cs r = [].
Proof.
  unfold missing, Core.unit_of, notna.
  destruct (Core.unit_col cs); [|reflexivity]. now intros ->.
Qed.

(** The start bit is 0 when one of the two cells is empty, and when
    neither column is mapped. *)
Lemma start_bit_empty_cell (cs : Core.SignalColumns) (r : row) :
  isna (get_or r (Core.start_byte_col cs) (CInt 0)) = true
  \/ isna (get_or r (Core.start_bit_col cs) (CInt 0)) = true ->
  Core.actual_start_bit_of cs r = ok 0%Z.
Proof.
  unfold Core.actual_start_bit_of, notna. cbv zeta.
  intros [-> | ->]; [reflexivity | now rewrite andb_false_r].
Qed.

Lemma start_bit_unmapped (cs : Core.SignalColumns) (r : row) :
  Core.start_byte_col cs = None -> Core.start_bit_col cs = None ->
  Core.actual_start_bit_of cs r = ok 0%Z.
Proof.
  intros E1 E2. unfold Core.actual_start_bit_of. now rewrite E1, E2.
Qed.

(** With no start bit column the bit within the byte counts as 0. *)
Lemma start_bit_column_unmapped (cs : Core.SignalColumns) (r : row) (sb : Z) :
  Core.start_bit_col cs = None ->
  int_of_float_of (get_or r (Core.start_byte_col cs) (CInt 0)) = ok sb ->
  Core.actual_start_bit_of cs r = ok (sb * 8)%Z.
Proof.
  intros E H. rewrite (@actual_start_bit cs r sb 0%Z H).
  - f_equal. lia.
  - now rewrite E.
Qed.

Lemma signal_of_defaults (r : row) (name : str) :
  Core.signal_of_row Core.no_columns r name = ok (default_signal name).
Proof. reflexivity. Qed.

(** C6, as amended.  The signal built from a row carries, for every field
    whose column is not mapped or whose cell is empty, the default of that
    field: length 8, byte order Motorola, value type Unsigned, factor 1.0,
    offset 0.0, min 0, max 0, unit empty; its receiver is always
    Vector__XXX.  Its start bit is 0 when the start byte cell or the start
    bit cell is empty and when neither column is mapped; when only the
    start bit column is not mapped, the bit within the byte counts as 0 and
    the start bit is eight times the start byte.  A row read with no
    attribute column at all gives the signal made of the defaults. *)
Theorem C6_signal_defaults (cs : Core.SignalColumns) (r : row) (name : str)
    (sg : Core.Signal) :
  Core.signal_of_row cs r name = ok sg ->
  (missing (Core.signal_length_col cs) r = true -> Core.sig_length sg = py "8")
  /\ (missing (Core.byte_order_col cs) r = true ->
        Core.sig_byte_order sg = py "Motorola")
  /\ (missing (Core.value_type_col cs) r = true ->
        Core.sig_value_type sg = py "Unsigned")
  /\ (missing (Core.factor_col cs) r = true -> Core.sig_factor sg = py "1.0")
  /\ (missing (Core.offset_col cs) r = true -> Core.sig_offset sg = py "0.0")
  /\ (missing (Core.min_val_col cs) r = true -> Core.sig_min sg = py "0")
  /\ (missing (Core.max_val_col cs) r = true -> Core.sig_max sg = py "0")
  /\ (missing (Core.unit_col cs) r = true -> Core.sig_unit sg = [])
  /\ Core.sig_receiver sg = py "Vector__XXX"
  /\ (isna (get_or r (Core.start_byte_col cs) (CInt 0)) = true
      \/ isna (get_or r (Core.start_bit_col cs) (CInt 0)) = true ->
      Core.sig_start_bit sg = py "0")
  /\ (Core.start_byte_col cs = None -> Core.start_bit_col cs = None ->
      Core.sig_start_bit sg = py "0")
  /\ (forall sb, Core.start_bit_col cs = None ->
        int_of_float_of (get_or r (Core.start_byte_col cs) (CInt 0)) = ok sb ->
        Core.sig_start_bit sg = str_of_int (sb * 8))
  /\ Core.signal_of_row Core.no_columns r name = ok (default_signal name).
Proof.
  intros H.
  destruct (signal_of_row_ok _ _ _ H)
    as (_ & Hs & Hl & Hbo & Hvt & Hfa & Hoff & Hmi & Hma & Hu & Hr).
  assert (inj : forall a b : str, ok a = ok b -> a = b)
    by (intros a b E; now injection E).
  repeat split.
  - intros M. apply inj. now rewrite Hl, missing_length.
  - intros M. now rewrite Hbo, missing_byte_order.
  - intros M. now rewrite Hvt, missing_value_type.
  - intros M. apply inj. now rewrite Hfa, missing_float_text.
  - intros M. apply inj. now rewrite Hoff, missing_float_text.
  - intros M. apply inj. now rewrite Hmi, missing_float_text.
  - intros M. apply inj. now rewrite Hma, missing_float_text.
  - intros M. now rewrite Hu, missing_unit.
  - exact Hr.
  - intros M. apply inj. now rewrite Hs, start_bit_empty_cell.
  - intros E1 E2. apply inj. now rewrite Hs, start_bit_unmapped.
  - intros sb E1 E2. apply inj.
    now rewrite Hs, (@start_bit_column_unmapped cs r sb E1 E2).
Qed.

(** The signal row of [Examples.engine] read with the columns of its
    sheet: offset, min and max have no column, and take their defaults. *)
Lemma C6_signal_defaults_witness :
  exists sg,
    Core.signal_of_row Examples.role_columns (Examples.placed_row "Motorola")
      (py "Torque") = ok sg
    /\ Core.sig_offset sg = py "0.0" /\ Core.sig_factor sg = py "1.0"
    /\ Core.sig_unit sg = [].
Proof.
  destruct (Core.signal_of_row Examples.role_columns
              (Examples.placed_row "Motorola") (py "Torque")) as [e|sg] eqn:E;
    [vm_compute in E; discriminate|].
  exists sg. split; [reflexivity|].
  pose proof (C6_signal_defaults Examples.role_columns
                (Examples.placed_row "Motorola") (py "Torque") E)
    as (_ & _ & _ & Hfa & Hoff & _ & _ & Hu & _).
  repeat split; [apply Hoff | apply Hfa | apply Hu]; reflexivity.
Defined.

(** C6, as stated, fails for the start bit: on a sheet with a start byte
    column and no start bit column, the signal at byte 2 gets start bit
    16, not the default 0. *)
Lemma C6_start_bit_with_unmapped_column :
  Core.start_bit_col (Core.signal_columns Examples.no_start_bit) = None
  /\ Examples.signal_start_bits (Core._extract_signals Examples.no_start_bit)
     = Some [(py "256", [py "16"])].
Proof. vm_compute. split; reflexivity. Qed.

End Defaults.

(** ** C4: the sender of a message *)

Section Senders.
Import Py Frame Spec.

(** What holds before a loop and is kept by every turn holds after it. *)
Lemma foldM_invariant {A S} (P : S -> Prop) (f : S -> A -> result S) (l : list A) :
  (forall st a st', P st -> f st a = ok st' -> P st') ->
  forall st st', P st -> Core.foldM f l st = ok st' -> P st'.
Proof.
  intros Hf. induction l as [|a t IH]; intros st st' Hp H.
  - cbn in H. injection H as <-. exact Hp.
  - cbn [Core.foldM] in H. destruct (f st a) as [e|st1] eqn:E; [discriminate|].
    cbn [bind] in H. exact (IH st1 st' (Hf st a st1 Hp E) H).
Qed.

Lemma message_step_sender (idc namec dlcc : option str)
    (msgs msgs' : Core.dict Core.Message) (r : row) :
  Forall default_sender msgs ->
  Core.message_step idc namec dlcc msgs r = ok msgs' ->
  Forall default_sender msgs'.
Proof.
  intros F. unfold Core.message_step. cbv zeta.
  destruct (isna _); [intros H; injection H as <-; exact F|].
  destruct (str_eqb _ []); [intros H; injection H as <-; exact F|].
  destruct (Core.message_id_forms _) as [[| | |]|[dec hex]]; try discriminate;
    [intros H; injection H as <-; exact F|].
  destruct (Core.dlc_of dlcc r) as [?|dlc]; [discriminate|]. cbn [bind].
  destruct (Core.dict_mem msgs dec); intros H; injection H as <-; [exact F|].
  apply Forall_app. split; [exact F|]. constructor; [reflexivity | constructor].
Qed.

(** X2: every message the modular generator extracts has the sender
    Vector__XXX, whatever its row holds under the node columns. *)
Theorem X2_core_sender_is_default (df : DataFrame) (msgs : Core.dict Core.Message) :
  Core._extract_messages df = ok msgs -> Forall default_sender msgs.
Proof.
  unfold Core._extract_messages.
  destruct (find Core.is_message_id_col (columns df)) as [c|];
    [|intros H; injection H as <-; constructor].
  apply foldM_invariant; [|constructor].
  intros st a st' Hp H. exact (message_step_sender _ _ _ _ Hp H).
Qed.

Lemma X2_core_sender_witness :
  exists msgs, Core._extract_messages Examples.engine = ok msgs
               /\ Forall default_sender msgs.
Proof.
  destruct (Core._extract_messages Examples.engine) as [e|msgs] eqn:E;
    [vm_compute in E; discriminate|].
  exists msgs. split; [reflexivity|].
  exact (X2_core_sender_is_default Examples.engine E).
Defined.



(** C4, on the modular generator: the header row of [Examples.engine]
    reads [Tx] under the node column VCU_P, and the [BO_] line names
    Vector__XXX as the sender; the single-file generator names VCU_P. *)
Theorem C4_core_ignores_tx :
  Legacy.marked (hd [] (iterrows Examples.engine)) (py "Tx") (py "VCU_P") = true
  /\ option_map
       (List.map (fun file : str * str =>
          (contains (py "BO_ 256 EngineStatus: 8 Vector__XXX") (snd file),
           contains (py "BO_ 256 EngineStatus: 8 VCU_P") (snd file))))
       (Core.generate_dbc Posix (Examples.core_of Examples.engine) (py "out.dbc")
          None None None false)
     = Some [(true, false); (true, false)]
  /\ option_map
       (fun file : str * str =>
          contains (py "BO_ 256 EngineStatus: 8 VCU_P") (snd file))
       (Legacy.generate_dbc (Legacy.load_matrix Examples.engine) (py "out")
          None None None)
     = Some true.
Proof. vm_compute. repeat split. Qed.

End Senders.

(** ** C9 and C10: one file per bus *)

Section Buses.
Import Py Frame Spec.

Lemma write_files (fc : result str) (name : str -> str) : forall bts acc,
  Core.foldM (fun files bt =>
                bind fc (fun content => ok (files ++ [(name bt, content)])))
    bts acc
  = match bts with
    | [] => ok acc
    | _ => bind fc (fun content =>
             ok (acc ++ List.map (fun bt => (name bt, content)) bts))
    end.
Proof.
  destruct fc as [e|c].
  - intros [|b t] acc; reflexivity.
  - induction bts as [|b t IH]; intros acc; [reflexivity|].
    cbn [Core.foldM bind]. unfold ok at 1. cbn [bind]. rewrite IH.
    destruct t as [|b' t']; cbn [bind List.map ok].
    + reflexivity.
    + now rewrite <- app_assoc.
Qed.

Lemma split_two_parts (col : str) :
  In underscore col -> (2 <=? List.length (split underscore col))%nat = true.
Proof.
  intros H. destruct (@last_separator underscore col H) as (a & b & -> & Hb).
  rewrite split_app, length_app.
  pose proof (@split_nonempty underscore a) as Na.
  pose proof (@split_nonempty underscore b) as Nb.
  apply Nat.leb_le.
  destruct (split underscore a); [congruence|].
  destruct (split underscore b); [congruence|]. simpl. lia.
Qed.

Lemma filter_notna_length (cells : list cell) :
  (0 <? List.length (filter notna cells))%nat = existsb notna cells.
Proof.
  induction cells as [|c t IH]; [reflexivity|].
  simpl. destruct (notna c); [reflexivity | exact IH].
Qed.

(** What a node column contributes to the set of bus types. *)
Lemma bus_suffix_of_data (df : DataFrame) (col : str) :
  In underscore col -> has_data df col ->
  Core.bus_suffix_of df col = ok [bus_suffix col].
Proof.
  intros Hu (cells & Hc & Hd). unfold Core.bus_suffix_of. cbv zeta.
  rewrite (proj2 (contains_char underscore col) Hu), (@split_two_parts col Hu), Hc.
  cbn [bind ok]. cbv zeta. rewrite filter_notna_length, Hd. reflexivity.
Qed.

Lemma bus_suffix_of_in (df : DataFrame) (col bt : str) (l : list str) :
  Core.bus_suffix_of df col = ok l -> In bt l ->
  bt = bus_suffix col /\ has_data df col.
Proof.
  unfold Core.bus_suffix_of. cbv zeta.
  destruct (contains [underscore] col); [|intros H; injection H as <-; intros []].
  destruct (2 <=? _)%nat; [|intros H; injection H as <-; intros []].
  destruct (column df col) as [e|cells] eqn:Hc; [discriminate|]. cbn [bind].
  cbv zeta. rewrite filter_notna_length.
  destruct (existsb notna cells) eqn:Hd; intros H; injection H as <-; intros Hin;
    [|destruct Hin].
  destruct Hin as [<-|[]]. split; [reflexivity|]. now exists cells.
Qed.

Lemma collected_suffixes (df : DataFrame) : forall ncs acc res,
  Core.foldM (fun acc col =>
                bind (Core.bus_suffix_of df col) (fun l => ok (acc ++ l)))
    ncs acc = ok res ->
  (forall bt, In bt res ->
     In bt acc \/ exists col, In col ncs /\ bt = bus_suffix col /\ has_data df col)
  /\ (forall bt, In bt acc -> In bt res)
  /\ (forall col, In col ncs -> In underscore col -> has_data df col ->
        In (bus_suffix col) res).
Proof.
  induction ncs as [|c t IH]; intros acc res H.
  - cbn in H. injection H as <-. repeat split; auto. intros col [].
  - cbn [Core.foldM] in H.
    destruct (Core.bus_suffix_of df c) as [e|l] eqn:E; [discriminate|].
    cbn [bind] in H. destruct (IH _ _ H) as (I1 & I2 & I3). split; [|split].
    + intros bt Hbt. destruct (I1 bt Hbt) as [Ha | (col & Hc & Hs)].
      * apply in_app_or in Ha as [Ha|Ha]; [now left|]. right.
        destruct (@bus_suffix_of_in df c bt l E Ha) as [-> Hd].
        exists c. repeat split; [now left | exact Hd].
      * right. exists col. split; [now right | exact Hs].
    + intros bt Hbt. apply I2, in_or_app. now left.
    + intros col [<-|Hc] Hu Hd.
      * rewrite (@bus_suffix_of_data df c Hu Hd) in E. injection E as <-.
        apply I2, in_or_app. right. now left.
      * now apply I3.
Qed.

(** The bus types of a run: the suffixes of the node columns that hold data. *)
Lemma detect_bus_types_in (df : DataFrame) (ncs detected : list str) :
  Core.detect_bus_types df ncs = ok detected ->
  NoDup detected
  /\ (forall bt, In bt detected ->
        exists col, In col ncs /\ bt = bus_suffix col /\ has_data df col)
  /\ (forall col, In col ncs -> In underscore col -> has_data df col ->
        In (bus_suffix col) detected).
Proof.
  unfold Core.detect_bus_types.
  destruct (Core.foldM _ ncs []) as [e|l] eqn:E; [discriminate|].
  cbn [bind]. intros H. injection H as <-.
  destruct (@collected_suffixes df ncs [] l E) as (I1 & _ & I3).
  split; [apply sorted_set_nodup|]. split.
  - intros bt Hbt. apply (proj1 (sorted_set_in _ _)) in Hbt.
    destruct (I1 bt Hbt) as [[]|Hc]. exact Hc.
  - intros col Hc Hu Hd. apply sorted_set_in. now apply I3.
Qed.

(** The files of a run that succeeds: one per bus type walked, all with the
    text [file_content] gives. *)
Lemma generate_dbc_files (os : platform) (self : Core.DBCGenerator)
    (output_file : str) (node_type controller_name target : option str)
    (is_canfd : bool) (files : list (str * str)) :
  Core.generate_dbc os self output_file node_type controller_name target is_canfd
  = Some files ->
  exists df detected bts,
    Core.matrix_data self = Some df
    /\ Core.detect_bus_types df (Core.node_columns self) = ok detected
    /\ ((Core.truthy target = false /\ bts = detected)
        \/ exists t, target = Some t /\ In t detected /\ bts = [t])
    /\ ((bts = [] /\ files = [])
        \/ exists content,
             Core.file_content df (Core.node_columns self) is_canfd = ok content
             /\ files = List.map (fun bt =>
                          (Core.bus_output_file os output_file bt, content)) bts).
Proof.
  unfold Core.generate_dbc.
  destruct (Core.matrix_data self) as [df|] eqn:Emd; [|discriminate].
  destruct (Core.node_columns self) as [|c0 ncs0] eqn:En; [discriminate|].
  rewrite <- En. clear En.
  destruct (Core.detect_bus_types df (Core.node_columns self)) as [e|detected] eqn:Ed;
    [discriminate|].
  set (chosen := if Core.truthy target then _ else _).
  assert (Hc : forall bts, chosen = Some bts ->
            (Core.truthy target = false /\ bts = detected)
            \/ exists t, target = Some t /\ In t detected /\ bts = [t]).
  { subst chosen. intros bts. destruct (Core.truthy target) eqn:Et.
    - destruct target as [t|]; [|discriminate].
      destruct (Core.mem_str t detected) eqn:Em; [|discriminate].
      intros H. injection H as <-. right. exists t.
      repeat split. now apply mem_str_in.
    - intros H. injection H as <-. now left. }
  destruct chosen as [bts|]; [|discriminate].
  rewrite write_files. intros H. exists df, detected, bts.
  split; [reflexivity|]. split; [exact Ed|]. split; [now apply Hc|].
  destruct bts as [|b t]; [left; split; [reflexivity | now injection H as <-]|].
  right. destruct (Core.file_content df (Core.node_columns self) is_canfd)
    as [e|content]; [discriminate|].
  cbn [bind ok app] in H. injection H as <-. now exists content.
Qed.

Lemma bus_output_file_inj (os : platform) (output_file a b : str) :
  Core.bus_output_file os output_file a = Core.bus_output_file os output_file b ->
  a = b.
Proof.
  unfold Core.bus_output_file. destruct (splitext os output_file) as [base ext].
  intros H. apply app_inv_head in H. apply app_inv_head in H.
  now apply app_inv_tail in H.
Qed.







(** C10: in the modular generator the text of a file does not depend on
    its bus.  All the files of a run, and the files of any two runs over
    the same table and node columns, whatever bus is asked for and whatever
    the output path, hold the same text: the one [file_content] builds from
    the table and the node columns alone.  The bus type only enters the
    file name. *)
Theorem C10_same_text_on_every_bus (os1 os2 : platform) (self : Core.DBCGenerator)
    (out1 out2 : str) (nt1 nt2 cn1 cn2 tb1 tb2 : option str) (is_canfd : bool)
    (files1 files2 : list (str * str)) (f1 c1 f2 c2 : str) :
  Core.generate_dbc os1 self out1 nt1 cn1 tb1 is_canfd = Some files1 ->
  Core.generate_dbc os2 self out2 nt2 cn2 tb2 is_canfd = Some files2 ->
  In (f1, c1) files1 -> In (f2, c2) files2 ->
  c1 = c2
  /\ exists df, Core.matrix_data self = Some df
       /\ Core.file_content df (Core.node_columns self) is_canfd = ok c1.
Proof.
  intros H1 H2 I1 I2.
  destruct (generate_dbc_files _ _ _ _ _ _ _ H1)
    as (df & d1 & b1 & Hm1 & _ & _ & Hf1).
  destruct (generate_dbc_files _ _ _ _ _ _ _ H2)
    as (df' & d2 & b2 & Hm2 & _ & _ & Hf2).
  rewrite Hm1 in Hm2. injection Hm2 as <-.
  destruct Hf1 as [[_ ->] | (t1 & Ht1 & ->)]; [destruct I1|].
  destruct Hf2 as [[_ ->] | (t2 & Ht2 & ->)]; [destruct I2|].
  apply in_map_iff in I1 as (x & E1 & _). injection E1 as _ <-.
  apply in_map_iff in I2 as (y & E2 & _). injection E2 as _ <-.
  rewrite Ht1 in Ht2. injection Ht2 as <-. split; [reflexivity|].
  now exists df.
Qed.

(** The file of the run for bus P alone and the second file of the run
    over all buses of [Examples.engine] hold the same text. *)
Lemma C10_same_text_witness :
  exists files1 files2,
    Core.generate_dbc Posix (Examples.core_of Examples.engine) (py "a.dbc")
      None None (Some (py "P")) false = Some files1
    /\ Core.generate_dbc Windows (Examples.core_of Examples.engine) (py "b.dbc")
         None None None false = Some files2
    /\ List.length files1 = 1%nat /\ List.length files2 = 2%nat
    /\ forall f1 c1 f2 c2, In (f1, c1) files1 -> In (f2, c2) files2 -> c1 = c2.
Proof.
  destruct (Core.generate_dbc Posix (Examples.core_of Examples.engine) (py "a.dbc")
              None None (Some (py "P")) false) as [files1|] eqn:E1;
    [|vm_compute in E1; discriminate].
  destruct (Core.generate_dbc Windows (Examples.core_of Examples.engine) (py "b.dbc")
              None None None false) as [files2|] eqn:E2;
    [|vm_compute in E2; discriminate].
  exists files1, files2. split; [reflexivity|]. split; [reflexivity|].
  split; [vm_compute in E1; injection E1 as <-; reflexivity|].
  split; [vm_compute in E2; injection E2 as <-; reflexivity|].
  intros f1 c1 f2 c2 I1 I2.
  exact (proj1 (@C10_same_text_on_every_bus _ _ _ _ _ _ _ _ _ _ _ _ _ _ _ _ _ _
                  E1 E2 I1 I2)).
Defined.

End Buses.

(** * Further properties of the code *)

(** ** The node columns of the modular tool *)

Section HandlerColumns.
Import Py Frame Spec.





End HandlerColumns.

(** ** The nodes of the [BU_] line *)

Section Nodes.
Import Py Frame Spec.

Lemma node_name_of_in (n col : str) :
  In n (Core.node_name_of col)
  <-> In underscore col /\ n = strip (bus_suffix col) /\ n <> [].
Proof.
  unfold Core.node_name_of, bus_suffix. cbv zeta.
  destruct (contains [underscore] col) eqn:Hc.
  - apply contains_char in Hc.
    destruct (str_eqb (strip (last_part (split underscore col))) []) eqn:E.
    + apply str_eqb_eq in E. split; [intros [] | intros (_ & -> & H); congruence].
    + apply str_eqb_neq in E. split.
      * intros [<-|[]]. auto.
      * intros (_ & -> & _). now left.
  - split; [intros []|]. intros (H & _). apply contains_char in H. congruence.
Qed.

Lemma unique_acc_incl (l : list cell) : forall seen c,
  In c (unique_acc seen l) -> In c l.
Proof.
  induction l as [|x t IH]; intros seen c H; [exact H|].
  cbn [unique_acc] in H. destruct (existsb (cell_eqb x) seen).
  - right. exact (IH _ _ H).
  - destruct H as [<-|H]; [now left | right; exact (IH _ _ H)].
Qed.

(** [unique] keeps every text it meets. *)
Lemma unique_acc_text (s : str) (l : list cell) : forall seen,
  In (CStr s) l -> In (CStr s) (unique_acc seen l) \/ In (CStr s) seen.
Proof.
  induction l as [|x t IH]; intros seen H; [destruct H|].
  cbn [unique_acc]. destruct (existsb (cell_eqb x) seen) eqn:E.
  - destruct H as [->|H]; [|exact (IH seen H)].
    right. apply existsb_exists in E as (c & Hc & Ec).
    assert (c = CStr s).
    { destruct c as [|z|[q| |b|]|u]; cbn in Ec; try discriminate.
      apply str_eqb_eq in Ec. now subst. }
    now subst c.
  - destruct H as [->|H]; [left; now left|].
    destruct (IH (x :: seen) H) as [G|[G|G]].
    + left. now right.
    + left. now left.
    + now right.
Qed.

Lemma dropna_unique_incl (l : list cell) (c : cell) :
  In c (dropna_unique l) -> In c l /\ notna c = true.
Proof.
  unfold dropna_unique. intros H. apply unique_acc_incl in H.
  now apply filter_In in H.
Qed.

Lemma dropna_unique_text (l : list cell) (s : str) :
  In (CStr s) l -> In (CStr s) (dropna_unique l).
Proof.
  intros H. unfold dropna_unique.
  destruct (@unique_acc_text s (filter notna l) []) as [G|[]]; [|exact G].
  apply filter_In. split; [exact H | reflexivity].
Qed.

(** The names the controller column gives. *)
Lemma controller_names_in (df : DataFrame) (n : str) :
  In n (Core.controller_names df) ->
  n <> []
  /\ exists col r c,
       find Core.is_controller_col (columns df) = Some col
       /\ In r (iterrows df) /\ get r (Some col) = c
       /\ notna c = true /\ n = strip (str_of c).
Proof.
  unfold Core.controller_names.
  destruct (find Core.is_controller_col (columns df)) as [col|]; [|intros []].
  intros H. apply filter_In in H as [H Hne].
  apply in_map_iff in H as (c & <- & Hc).
  apply dropna_unique_incl in Hc as [Hc Hn].
  apply in_map_iff in Hc as (r & Hr & Hin).
  split; [now apply str_eqb_neq, negb_true_iff|].
  now exists col, r, c.
Qed.

Lemma controller_names_text (df : DataFrame) (col : str) (r : row) (s : str) :
  find Core.is_controller_col (columns df) = Some col ->
  In r (iterrows df) -> get r (Some col) = CStr s -> strip s <> [] ->
  In (strip s) (Core.controller_names df).
Proof.
  intros Hf Hr Hg Hne. unfold Core.controller_names. rewrite Hf.
  apply filter_In. split; [|now apply negb_true_iff, str_eqb_neq].
  apply in_map_iff. exists (CStr s). split; [reflexivity|].
  apply dropna_unique_text. apply in_map_iff. now exists r.
Qed.

Lemma extract_nodes_in (df : DataFrame) (ncs : list str) (n : str) :
  In n (Core._extract_nodes df ncs)
  <-> (exists col, In col ncs /\ In underscore col
                   /\ n = strip (bus_suffix col) /\ n <> [])
      \/ In n (Core.controller_names df).
Proof.
  unfold Core._extract_nodes. rewrite sorted_set_in, in_app_iff, in_flat_map.
  split.
  - intros [(col & Hc & Hn)|H]; [left | now right].
    exists col. split; [exact Hc|]. now apply node_name_of_in.
  - intros [(col & Hc & Hn)|H]; [left | now right].
    exists col. split; [exact Hc|]. now apply node_name_of_in.
Qed.

Lemma generate_nodes_listed (nodes : list str) :
  nodes <> [] ->
  exists listed,
    Core._generate_nodes nodes
    = py "BU_: " ++ join (py " ") listed ++ Core.newline ++ Core.newline ++ Core.newline
    /\ (listed = nodes \/ listed = nodes ++ [Core.Vector__XXX])
    /\ In Core.Vector__XXX listed
    /\ (In Core.Vector__XXX nodes -> listed = nodes)
    /\ (NoDup nodes -> NoDup listed).
Proof.
  intros Hne. unfold Core._generate_nodes.
  destruct nodes as [|n0 t] eqn:En; [congruence|]. rewrite <- En. clear Hne.
  destruct (existsb (str_eqb Core.Vector__XXX) nodes) eqn:E.
  - exists nodes. split; [reflexivity|]. split; [now left|].
    assert (Hin : In Core.Vector__XXX nodes).
    { apply existsb_exists in E as (x & Hx & Ex). apply str_eqb_eq in Ex.
      now subst x. }
    repeat split; auto.
  - exists (nodes ++ [Core.Vector__XXX]). split; [reflexivity|].
    assert (Hout : ~ In Core.Vector__XXX nodes).
    { intros Hin. assert (T : existsb (str_eqb Core.Vector__XXX) nodes = true).
      { apply existsb_exists. exists Core.Vector__XXX. split; [exact Hin|].
        apply str_eqb_refl. }
      congruence. }
    split; [now right|]. split; [apply in_or_app; right; now left|].
    split; [intros Hin; contradiction|].
    intros Nd. apply NoDup_app; [exact Nd | repeat constructor; intros [] |].
    intros x Hx [<-|[]]. contradiction.
Qed.

(** X5: the nodes [_extract_nodes] returns are in strictly increasing
    code-point order, hence without repetition.  They are the texts after
    the last underscore of the node columns, stripped and not empty, and
    the names of the first controller column: the cells of it that are not
    missing, as text, stripped and not empty; every text cell of that
    column is among them. *)
Theorem X5_extract_nodes (df : DataFrame) (ncs : list str) :
  StronglySorted str_lt (Core._extract_nodes df ncs)
  /\ NoDup (Core._extract_nodes df ncs)
  /\ (forall n,
        In n (Core._extract_nodes df ncs)
        <-> (exists col, In col ncs /\ In underscore col
                         /\ n = strip (bus_suffix col) /\ n <> [])
            \/ In n (Core.controller_names df))
  /\ (forall n,
        In n (Core.controller_names df) ->
        n <> []
        /\ exists col r c,
             find Core.is_controller_col (columns df) = Some col
             /\ In r (iterrows df) /\ get r (Some col) = c
             /\ notna c = true /\ n = strip (str_of c))
  /\ (forall col r s,
        find Core.is_controller_col (columns df) = Some col ->
        In r (iterrows df) -> get r (Some col) = CStr s -> strip s <> [] ->
        In (strip s) (Core.controller_names df)).
Proof.
  split; [apply sorted_set_sorted|]. split; [apply sorted_set_nodup|].
  split; [exact (extract_nodes_in df ncs)|].
  split; [exact (controller_names_in df) | exact (@controller_names_text df)].
Qed.

(** X6: [_generate_nodes] writes three line feeds for an empty list of
    nodes.  For any other list it writes one [BU_] line that names the nodes
    in their order, then Vector__XXX when it is not among them, so that the
    line always names Vector__XXX, once when the nodes are distinct. *)
Theorem X6_generate_nodes :
  Core._generate_nodes [] = [10; 10; 10]%N
  /\ (forall nodes,
        nodes <> [] ->
        exists listed,
          Core._generate_nodes nodes
          = py "BU_: " ++ join (py " ") listed
            ++ Core.newline ++ Core.newline ++ Core.newline
          /\ (listed = nodes \/ listed = nodes ++ [Core.Vector__XXX])
          /\ In Core.Vector__XXX listed
          /\ (In Core.Vector__XXX nodes -> listed = nodes)
          /\ (NoDup nodes -> NoDup listed)).
Proof. split; [reflexivity | exact generate_nodes_listed]. Qed.

(** The nodes of [Examples.engine] with the node columns VCU_P and VCU_E. *)
Lemma X6_generate_nodes_witness :
  exists listed,
    Core._generate_nodes (Core._extract_nodes Examples.engine [py "VCU_P"; py "VCU_E"])
    = py "BU_: " ++ join (py " ") listed
      ++ Core.newline ++ Core.newline ++ Core.newline
    /\ In Core.Vector__XXX listed.
Proof.
  destruct (proj2 X6_generate_nodes
              (Core._extract_nodes Examples.engine [py "VCU_P"; py "VCU_E"]))
    as (listed & E & _ & Hin & _).
  - vm_compute. discriminate.
  - now exists listed.
Defined.

End Nodes.

(** ** The messages of the modular generator *)

Section Messages.
Import Py Frame Spec.

Lemma dict_mem_in {V} (d : Core.dict V) (k : str) :
  Core.dict_mem d k = true <-> In k (List.map fst d).
Proof.
  unfold Core.dict_mem. induction d as [|[k' v] t IH]; cbn [Core.dict_get List.map fst].
  - split; [discriminate | intros []].
  - destruct (str_eqb k' k) eqn:E.
    + apply str_eqb_eq in E. subst. split; [now left | reflexivity].
    + apply str_eqb_neq in E. rewrite IH. split; [now right|].
      intros [H|H]; [congruence | exact H].
Qed.

(** What one row does to the messages: nothing, or one message more at
    the end, under an id that was not there. *)
Lemma message_step_cases (idc namec dlcc : option str)
    (msgs msgs' : Core.dict Core.Message) (r : row) :
  Core.message_step idc namec dlcc msgs r = ok msgs' ->
  msgs' = msgs
  \/ exists dec hex dlc,
       Core.message_id_forms (strip (str_of (get r idc))) = ok (dec, hex)
       /\ Core.dlc_of dlcc r = ok dlc
       /\ Core.dict_mem msgs dec = false
       /\ msgs' = msgs ++
            [(dec, {| Core.msg_id := dec; Core.msg_hex_id := hex;
                      Core.msg_name := Core.message_name_of namec r hex;
                      Core.msg_dlc := dlc; Core.msg_sender := Core.Vector__XXX;
                      Core.msg_signals := [] |})].
Proof.
  unfold Core.message_step. cbv zeta.
  destruct (isna _); [intros H; injection H as <-; now left|].
  destruct (str_eqb _ []); [intros H; injection H as <-; now left|].
  destruct (Core.message_id_forms _) as [[| | |]|[dec hex]]; try discriminate;
    [intros H; injection H as <-; now left|].
  destruct (Core.dlc_of dlcc r) as [?|dlc]; [discriminate|]. cbn [bind].
  destruct (Core.dict_mem msgs dec) eqn:Em; intros H; injection H as <-;
    [now left|].
  right. now exists dec, hex, dlc.
Qed.

Lemma foldM_app {A S} (f : S -> A -> result S) (l1 l2 : list A) (st : S) :
  Core.foldM f (l1 ++ l2) st = bind (Core.foldM f l1 st) (Core.foldM f l2).
Proof.
  revert st. induction l1 as [|a t IH]; intros st; [reflexivity|].
  cbn [app Core.foldM]. destruct (f st a) as [e|s1]; [reflexivity|].
  cbn [bind]. apply IH.
Qed.

(** The messages only grow, at the end. *)
Lemma messages_grow (idc namec dlcc : option str) (l : list row) :
  forall msgs res,
    Core.foldM (Core.message_step idc namec dlcc) l msgs = ok res ->
    exists more, res = msgs ++ more.
Proof.
  induction l as [|r t IH]; intros msgs res H.
  - cbn in H. injection H as <-. exists []. now rewrite app_nil_r.
  - cbn [Core.foldM] in H.
    destruct (Core.message_step idc namec dlcc msgs r) as [e|m1] eqn:E;
      [discriminate|].
    cbn [bind] in H. destruct (IH _ _ H) as (more & ->).
    destruct (message_step_cases _ _ _ _ _ E) as [->|(dec & hex & dlc & _ & _ & _ & ->)].
    + now exists more.
    + rewrite <- app_assoc. eexists. reflexivity.
Qed.

Lemma message_name_nonempty (namec : option str) (r : row) (hex : str) :
  Core.message_name_of namec r hex <> [].
Proof.
  unfold Core.message_name_of. cbv zeta.
  destruct (str_eqb _ []) eqn:E; [discriminate|]. now apply str_eqb_neq in E.
Qed.

(** The DLC is the default 8, or the digits of the cell when they read as
    a number from 0 to 15. *)
Lemma dlc_of_cases (dlcc : option str) (r : row) (dlc : str) :
  Core.dlc_of dlcc r = ok dlc ->
  dlc = py "8"
  \/ (notna (get r dlcc) = true
      /\ dlc = strip (str_of (get r dlcc)) /\ isdigit dlc = true
      /\ exists n, int_of_str 10 dlc = Some n /\ (0 <= n <= 15)%Z).
Proof.
  unfold Core.dlc_of. destruct dlcc as [c|]; [|intros H; injection H as <-; now left].
  cbv zeta. destruct (notna (get r (Some c))) eqn:En;
    [|intros H; injection H as <-; now left].
  destruct (isdigit _) eqn:Ed; [|intros H; injection H as <-; now left].
  destruct (int_of_str 10 _) as [n|] eqn:Ei; [|discriminate].
  cbn [of_option bind ok].
  destruct ((0 <=? n)%Z && (n <=? 15)%Z) eqn:Eb; intros H; injection H as <-;
    [|now left].
  right. apply andb_true_iff in Eb as [B1 B2].
  apply Z.leb_le in B1, B2. repeat split; try assumption.
  exists n. split; [exact Ei | lia].
Qed.

Lemma dlc_in_range (dlcc : option str) (r : row) (dlc : str) :
  Core.dlc_of dlcc r = ok dlc ->
  exists n, int_of_str 10 dlc = Some n /\ (0 <= n <= 15)%Z.
Proof.
  intros H. destruct (dlc_of_cases _ _ H) as [->|(_ & _ & _ & G)]; [|exact G].
  exists 8%Z. split; [reflexivity | lia].
Qed.

Lemma message_step_keeps (idc namec dlcc : option str)
    (msgs msgs' : Core.dict Core.Message) (r : row) :
  NoDup (List.map fst msgs) /\ Forall well_formed_message msgs ->
  Core.message_step idc namec dlcc msgs r = ok msgs' ->
  NoDup (List.map fst msgs') /\ Forall well_formed_message msgs'.
Proof.
  intros [Nd F] H.
  destruct (message_step_cases _ _ _ _ _ H)
    as [->|(dec & hex & dlc & _ & Hd & Hm & ->)]; [now split|].
  split.
  - rewrite map_app. cbn [List.map fst]. apply NoDup_app; [exact Nd| |].
    + repeat constructor. intros [].
    + intros x Hx [<-|[]]. apply dict_mem_in in Hx. congruence.
  - apply Forall_app. split; [exact F|]. constructor; [|constructor].
    repeat split; cbn [snd fst Core.msg_id Core.msg_signals Core.msg_name Core.msg_dlc].
    + apply message_name_nonempty.
    + exact (dlc_in_range _ _ Hd).
Qed.

Lemma extract_messages_keeps (df : DataFrame) (msgs : Core.dict Core.Message) :
  Core._extract_messages df = ok msgs ->
  NoDup (List.map fst msgs) /\ Forall well_formed_message msgs.
Proof.
  unfold Core._extract_messages.
  destruct (find Core.is_message_id_col (columns df)) as [c|];
    [|intros H; injection H as <-; split; constructor].
  apply (@foldM_invariant row (Core.dict Core.Message)
           (fun m => NoDup (List.map fst m) /\ Forall well_formed_message m)).
  - intros st a st' Hp H. exact (message_step_keeps _ _ _ _ Hp H).
  - split; constructor.
Qed.

Lemma extract_messages_grow (cols : list str) (d1 d2 : list (list cell))
    (msgs : Core.dict Core.Message) :
  Core._extract_messages {| columns := cols; data := d1 ++ d2 |} = ok msgs ->
  exists first more,
    Core._extract_messages {| columns := cols; data := d1 |} = ok first
    /\ msgs = first ++ more.
Proof.
  unfold Core._extract_messages, iterrows. cbn [columns data].
  destruct (find Core.is_message_id_col cols) as [c|].
  - rewrite map_app, foldM_app.
    match goal with
    | |- bind ?x _ = _ -> _ => destruct x as [e|first] eqn:E1; [discriminate|]
    end.
    cbn [bind]. intros H. destruct (messages_grow _ _ _ _ _ H) as (more & ->).
    now exists first, more.
  - intros H. injection H as <-. now exists [], [].
Qed.

(** X7: the messages [_extract_messages] returns have pairwise distinct ids,
    each is stored under its own id, none has signals attached, and they
    stand in the order in which their ids first appear: the rows that follow
    never change or remove a message found before them, they only add
    messages at the end.  A row whose id is stored already changes nothing. *)
Theorem X7_messages_by_first_row :
  (forall df msgs,
     Core._extract_messages df = ok msgs ->
     NoDup (List.map fst msgs)
     /\ Forall (fun entry : str * Core.Message =>
                  Core.msg_id (snd entry) = fst entry
                  /\ Core.msg_signals (snd entry) = []) msgs)
  /\ (forall cols d1 d2 msgs,
        Core._extract_messages {| columns := cols; data := d1 ++ d2 |} = ok msgs ->
        exists first more,
          Core._extract_messages {| columns := cols; data := d1 |} = ok first
          /\ msgs = first ++ more)
  /\ (forall idc namec dlcc msgs r dec hex,
        Core.message_id_forms (strip (str_of (get r idc))) = ok (dec, hex) ->
        In dec (List.map fst msgs) ->
        forall msgs', Core.message_step idc namec dlcc msgs r = ok msgs' ->
                      msgs' = msgs).
Proof.
  split; [|split].
  - intros df msgs H. destruct (extract_messages_keeps _ H) as [Nd F].
    split; [exact Nd|]. eapply Forall_impl; [|exact F].
    intros e (H1 & H2 & _). now split.
  - exact extract_messages_grow.
  - intros idc namec dlcc msgs r dec hex Hf Hin msgs' H.
    destruct (message_step_cases _ _ _ _ _ H)
      as [->|(dec' & hex' & dlc & Hf' & _ & Hm & _)]; [reflexivity|].
    rewrite Hf in Hf'. injection Hf' as <- <-.
    apply dict_mem_in in Hin. congruence.
Qed.

(** [Examples.engine] with its header row repeated: one message. *)
Lemma X7_messages_witness :
  exists first more,
    Core._extract_messages
      {| columns := Examples.sheet_columns; data := data Examples.engine |}
    = ok first
    /\ first ++ more = first
    /\ List.length first = 1%nat
    /\ NoDup (List.map fst first).
Proof.
  destruct (Core._extract_messages
              {| columns := Examples.sheet_columns;
                 data := data Examples.engine ++ firstn 1 (data Examples.engine) |})
    as [e|msgs] eqn:E; [vm_compute in E; discriminate|].
  destruct (proj1 (proj2 X7_messages_by_first_row) _ _ _ _ E)
    as (first & more & E1 & E2).
  exists first, more. split; [exact E1|].
  assert (L : List.length msgs = 1%nat)
    by (vm_compute in E; injection E as <-; reflexivity).
  assert (L1 : List.length first = 1%nat)
    by (vm_compute in E1; injection E1 as <-; reflexivity).
  split.
  - rewrite E2, length_app, L1 in L. destruct more; [apply app_nil_r | cbn in L; lia].
  - split; [exact L1|]. exact (proj1 (proj1 X7_messages_by_first_row _ _ E1)).
Defined.

Lemma message_name_missing (c : str) (r : row) (hex : str) (v : cell) :
  lookup r c = Some v -> isna v = true ->
  Core.message_name_of (Some c) r hex = py "nan"
  \/ Core.message_name_of (Some c) r hex = py "None".
Proof.
  intros Hl Hn. unfold Core.message_name_of, get_or. rewrite Hl.
  destruct v as [|z|[q| |b|]|s]; try discriminate Hn; [right | left]; reflexivity.
Qed.

Lemma message_name_default (namec : option str) (r : row) (hex : str) :
  namec = None \/ strip (str_of (get_or r namec (CStr []))) = [] ->
  Core.message_name_of namec r hex = py "MSG_" ++ hex.
Proof.
  unfold Core.message_name_of. cbv zeta. intros [->|E]; [reflexivity|].
  destruct namec; [|reflexivity]. now rewrite E.
Qed.

(** X8: every message extracted has a name that is not empty and a DLC
    that is the text of an integer from 0 to 15.  The DLC is the default 8
    unless the DLC cell holds digits that read as such an integer, and is
    then the stripped text of the cell.  The name is [MSG_] followed by the
    hexadecimal id when there is no name column or the text under it is
    blank; a name cell that is missing gives no default: its text, [nan]
    or [None], becomes the name. *)
Theorem X8_message_fields :
  (forall df msgs,
     Core._extract_messages df = ok msgs ->
     Forall (fun entry : str * Core.Message =>
               Core.msg_name (snd entry) <> []
               /\ exists n, int_of_str 10 (Core.msg_dlc (snd entry)) = Some n
                            /\ (0 <= n <= 15)%Z) msgs)
  /\ (forall dlcc r dlc,
        Core.dlc_of dlcc r = ok dlc ->
        dlc = py "8"
        \/ (notna (get r dlcc) = true
            /\ dlc = strip (str_of (get r dlcc)) /\ isdigit dlc = true
            /\ exists n, int_of_str 10 dlc = Some n /\ (0 <= n <= 15)%Z))
  /\ (forall namec r hex,
        namec = None \/ strip (str_of (get_or r namec (CStr []))) = [] ->
        Core.message_name_of namec r hex = py "MSG_" ++ hex)
  /\ (forall c r hex v,
        lookup r c = Some v -> isna v = true ->
        Core.message_name_of (Some c) r hex = py "nan"
        \/ Core.message_name_of (Some c) r hex = py "None").
Proof.
  split; [|split; [exact dlc_of_cases|split;
                   [exact message_name_default | exact message_name_missing]]].
  intros df msgs H. destruct (extract_messages_keeps _ H) as [_ F].
  eapply Forall_impl; [|exact F]. intros e (_ & _ & H3 & H4). now split.
Qed.

(** The header row of [Examples.engine] gives DLC 8 from its cell; a header
    row with an empty name cell is named [None]. *)
Lemma X8_message_fields_witness :
  (exists msgs, Core._extract_messages Examples.engine = ok msgs
     /\ Forall (fun entry : str * Core.Message =>
                  Core.msg_name (snd entry) <> []
                  /\ exists n, int_of_str 10 (Core.msg_dlc (snd entry)) = Some n
                               /\ (0 <= n <= 15)%Z) msgs)
  /\ (Core.message_name_of (Some Legacy.col_msg_name)
        (combine Examples.sheet_columns (Examples.sheet_row [Examples.text "0x100"]))
        (py "0x100")
      = py "nan"
      \/ Core.message_name_of (Some Legacy.col_msg_name)
           (combine Examples.sheet_columns (Examples.sheet_row [Examples.text "0x100"]))
        (py "0x100")
         = py "None").
Proof.
  split.
  - destruct (Core._extract_messages Examples.engine) as [e|msgs] eqn:E;
      [vm_compute in E; discriminate|].
    exists msgs. split; [reflexivity|].
    exact (proj1 X8_message_fields Examples.engine msgs E).
  - apply (proj2 (proj2 (proj2 X8_message_fields)) _ _ _ CNone); reflexivity.
Defined.

End Messages.

(** ** Hexadecimal ids read back *)

Section HexIds.
Import Py Frame Spec.

Lemma printable_not_space (c : N) :
  (33 <= c <= 126)%N -> isspace_cp c = false /\ isspace_num_cp c = false.
Proof.
  intros H.
  assert (S1 : isspace_cp c = false).
  { unfold isspace_cp, whitespace. cbn [existsb].
    repeat (match goal with
            | |- (N.eqb c ?k || _)%bool = false =>
              replace (N.eqb c k) with false by (symmetry; apply N.eqb_neq; lia);
              cbn [orb]
            end). reflexivity. }
  split; [exact S1|]. unfold isspace_num_cp. now rewrite S1.
Qed.

Lemma hex_char_value (c : N) :
  hex_char c ->
  c <> underscore /\ upper_cp c = c
  /\ exists d, digit_value c = Some d /\ (0 <= d < 16)%Z
               /\ d = (if (c <=? 57)%N then Z.of_N c - 48 else Z.of_N c - 55)%Z.
Proof.
  intros H. unfold underscore, upper_cp, digit_value, isdigit_cp, islower_cp, isupper_cp.
  destruct H as [H|H].
  - replace (48 <=? c)%N with true by (symmetry; apply N.leb_le; lia).
    replace (c <=? 57)%N with true by (symmetry; apply N.leb_le; lia).
    replace (97 <=? c)%N with false by (symmetry; apply N.leb_gt; lia).
    cbn [andb]. repeat split; try lia.
    exists (Z.of_N c - 48)%Z. repeat split; lia.
  - replace (48 <=? c)%N with true by (symmetry; apply N.leb_le; lia).
    replace (c <=? 57)%N with false by (symmetry; apply N.leb_gt; lia).
    replace (97 <=? c)%N with false by (symmetry; apply N.leb_gt; lia).
    replace (65 <=? c)%N with true by (symmetry; apply N.leb_le; lia).
    replace (c <=? 90)%N with true by (symmetry; apply N.leb_le; lia).
    cbn [andb]. repeat split; try lia.
    exists (Z.of_N c - 55)%Z. repeat split; lia.
Qed.

Lemma hex_digit_char (d : Z) :
  (0 <= d < 16)%Z ->
  let c := if (d <? 10)%Z then Z.to_N (48 + d) else Z.to_N (55 + d) in
  hex_char c /\ digit_value c = Some d.
Proof.
  intros H c. subst c. destruct (Z.ltb_spec d 10) as [L|L].
  - assert (Hc : hex_char (Z.to_N (48 + d))) by (left; lia).
    split; [exact Hc|].
    destruct (hex_char_value Hc) as (_ & _ & v & E & _ & Ev). rewrite E. f_equal.
    replace (Z.to_N (48 + d) <=? 57)%N with true in Ev by (symmetry; apply N.leb_le; lia).
    lia.
  - assert (Hc : hex_char (Z.to_N (55 + d))) by (right; lia).
    split; [exact Hc|].
    destruct (hex_char_value Hc) as (_ & _ & v & E & _ & Ev). rewrite E. f_equal.
    replace (Z.to_N (55 + d) <=? 57)%N with false in Ev by (symmetry; apply N.leb_gt; lia).
    lia.
Qed.

Lemma digits_value_hex_char (c : N) (d a : Z) (r : str) :
  hex_char c -> digit_value c = Some d ->
  digits_value 16 a (c :: r) = digits_value 16 (a * 16 + d) r.
Proof.
  intros Hc Hd. destruct (hex_char_value Hc) as (Hu & _ & v & E & B & _).
  rewrite Hd in E. injection E as <-.
  cbn [digits_value]. apply N.eqb_neq in Hu. rewrite Hu, Hd.
  now replace (d <? 16)%Z with true by (symmetry; apply Z.ltb_lt; lia).
Qed.

(** The digits [digits_acc] writes in base 16 read back as the number. *)
Lemma digits_acc_hex (f : nat) : forall (n : Z) (acc : str),
  (0 <= n < 16 ^ Z.of_nat (S f))%Z ->
  exists c ds,
    digits_acc 16 true (S f) n acc = (c :: ds) ++ acc
    /\ Forall hex_char (c :: ds)
    /\ forall a rest, digits_value 16 a ((c :: ds) ++ rest)
                      = digits_value 16 (a * 16 ^ Z.of_nat (S (List.length ds)) + n) rest.
Proof.
  induction f as [|f IH]; intros n acc Hn; rewrite digits_acc_S; cbv zeta.
  - assert (L : (n <? 16)%Z = true) by (apply Z.ltb_lt; simpl in Hn; lia).
    rewrite L. rewrite Z.mod_small by (simpl in Hn; lia).
    destruct (@hex_digit_char n) as [Hc Hd]; [simpl in Hn; lia|].
    eexists. exists []. split; [reflexivity|]. split; [constructor; [exact Hc | constructor]|].
    intros a rest. cbn [app List.length]. rewrite (digits_value_hex_char a rest Hc Hd).
    f_equal.
  - assert (R : (0 <= n mod 16 < 16)%Z) by (apply Z.mod_pos_bound; lia).
    destruct (@hex_digit_char (n mod 16) R) as [Hc Hd].
    destruct (Z.ltb_spec n 16) as [L|L].
    + eexists. exists []. split; [reflexivity|]. split; [constructor; [exact Hc | constructor]|].
      intros a rest. cbn [app List.length].
      rewrite (digits_value_hex_char a rest Hc Hd). f_equal.
      rewrite Z.mod_small by lia. reflexivity.
    + assert (B : (0 <= n / 16 < 16 ^ Z.of_nat (S f))%Z).
      { split; [apply Z.div_pos; lia|].
        apply Z.div_lt_upper_bound; [lia|].
        replace (Z.of_nat (S (S f))) with (Z.succ (Z.of_nat (S f))) in Hn by lia.
        rewrite Z.pow_succ_r in Hn by lia. lia. }
      destruct (IH (n / 16)%Z
                  ((if (n mod 16 <? 10)%Z then Z.to_N (48 + n mod 16)
                    else Z.to_N (55 + n mod 16)) :: acc) B)
        as (c & ds & E1 & F1 & E2).
      exists c.
      exists (ds ++ [if (n mod 16 <? 10)%Z then Z.to_N (48 + n mod 16)
                     else Z.to_N (55 + n mod 16)]).
      split; [rewrite E1; cbn [app]; now rewrite <- app_assoc|].
      split.
      * inversion F1 as [|? ? Hc1 Hds]; subst. constructor; [exact Hc1|].
        apply Forall_app. split; [exact Hds | constructor; [exact Hc | constructor]].
      * intros a rest.
        replace ((c :: ds ++
                  [if (n mod 16 <? 10)%Z then Z.to_N (48 + n mod 16)
                   else Z.to_N (55 + n mod 16)]) ++ rest)
          with ((c :: ds) ++
                (if (n mod 16 <? 10)%Z then Z.to_N (48 + n mod 16)
                 else Z.to_N (55 + n mod 16)) :: rest)
          by (cbn [app]; now rewrite <- app_assoc).
        rewrite E2, (digits_value_hex_char _ rest Hc Hd). f_equal.
        rewrite length_app. cbn [List.length].
        replace (Z.of_nat (S (List.length ds + 1)))
          with (Z.succ (Z.of_nat (S (List.length ds)))) by lia.
        rewrite Z.pow_succ_r by lia.
        pose proof (Z.div_mod n 16). lia.
Qed.

Lemma hex_numeral (n : Z) :
  (0 <= n)%Z ->
  exists c ds,
    numeral 16 true n = c :: ds /\ Forall hex_char (c :: ds)
    /\ nonempty_digits 16 (c :: ds) = Some n.
Proof.
  intros H. unfold numeral.
  assert (B : (0 <= n < 16 ^ Z.of_nat (S (Z.to_nat (Z.log2 n))))%Z).
  { split; [exact H|].
    destruct (Z.eq_dec n 0) as [->|Hz]; [reflexivity|].
    pose proof (Z.log2_spec n ltac:(lia)) as [_ U].
    pose proof (Z.log2_nonneg n).
    replace (Z.of_nat (S (Z.to_nat (Z.log2 n)))) with (Z.succ (Z.log2 n)) by lia.
    eapply Z.lt_le_trans; [exact U|].
    apply Z.pow_le_mono_l. lia. }
  destruct (@digits_acc_hex _ n [] B) as (c & ds & E & F & V).
  rewrite app_nil_r in E. exists c, ds. split; [exact E|]. split; [exact F|].
  unfold nonempty_digits, is_digit_in.
  inversion F as [|? ? Hc _]; subst.
  destruct (hex_char_value Hc) as (_ & _ & d & Ed & Bd & _). rewrite Ed.
  replace (d <? 16)%Z with true by (symmetry; apply Z.ltb_lt; lia).
  specialize (V 0%Z []). rewrite app_nil_r in V. rewrite V. cbn [digits_value].
  f_equal; lia.
Qed.

Lemma hex_char_plain (c : N) :
  hex_char c ->
  isspace_cp c = false /\ isspace_num_cp c = false /\ c <> 88%N /\ c <> 120%N.
Proof.
  intros H. destruct (@printable_not_space c) as [S1 S2];
    [destruct H; lia|].
  repeat split; try assumption; destruct H; lia.
Qed.

(** [int("0x" + digits, 16)], with either letter in the prefix. *)
Lemma int_of_prefixed_hex (x : N) (n : Z) :
  x = 120%N \/ x = 88%N -> (0 <= n)%Z ->
  int_of_str 16 (48%N :: x :: hex_of_int n) = Some n.
Proof.
  intros Hx Hn. unfold hex_of_int.
  replace (n <? 0)%Z with false by (symmetry; apply Z.ltb_ge; lia).
  destruct (hex_numeral Hn) as (c & ds & E & F & V). rewrite E.
  assert (S : strip_by isspace_num_cp (48%N :: x :: c :: ds) = 48%N :: x :: c :: ds).
  { apply strip_by_id. constructor; [reflexivity|]. constructor.
    - destruct Hx as [-> | ->]; reflexivity.
    - eapply Forall_impl; [|exact F]. intros a Ha. now apply hex_char_plain in Ha. }
  unfold int_of_str. rewrite S. cbv beta iota.
  unfold unsigned_of_str.
  replace ((16 =? 16)%Z && ((x =? 120) || (x =? 88))%N) with true
    by (destruct Hx as [-> | ->]; reflexivity).
  inversion F as [|? ? Hc _]; subst.
  destruct (hex_char_value Hc) as (Hu & _). apply N.eqb_neq in Hu. now rewrite Hu.
Qed.

Lemma hex_text_upper (n : Z) :
  (0 <= n)%Z ->
  upper (hex_of_int n) = hex_of_int n /\ strip (hex_of_int n) = hex_of_int n
  /\ startswith (py "0X") (hex_of_int n) = false
  /\ hex_of_int n <> [].
Proof.
  intros Hn. unfold hex_of_int.
  replace (n <? 0)%Z with false by (symmetry; apply Z.ltb_ge; lia).
  destruct (hex_numeral Hn) as (c & ds & E & F & _). rewrite E.
  split; [|split; [|split; [|discriminate]]].
  - unfold upper. rewrite <- (map_id (c :: ds)) at 2. apply map_ext_in.
    intros a Ha. rewrite Forall_forall in F.
    now destruct (hex_char_value (F a Ha)) as (_ & U & _).
  - apply strip_by_id. eapply Forall_impl; [|exact F].
    intros a Ha. now apply hex_char_plain in Ha.
  - change (py "0X") with [48; 88]%N. destruct ds as [|d ds'].
    + cbn [startswith]. now rewrite andb_false_r.
    + inversion F as [|? ? _ F']; subst. inversion F' as [|? ? Hd _]; subst.
      destruct (hex_char_plain Hd) as (_ & _ & X & _).
      cbn [startswith]. apply not_eq_sym, N.eqb_neq in X. rewrite X.
      now rewrite andb_false_r.
Qed.

Lemma message_id_forms_hex_numeral (n : Z) :
  (0 <= n)%Z ->
  Core.message_id_forms (py "0x" ++ hex_of_int n)
  = ok (str_of_int n, py "0x" ++ hex_of_int n).
Proof.
  intros Hn. apply message_id_forms_hex.
  - change (py "0x") with [48; 120]%N. unfold Core.has_hex_prefix.
    change (py "0x") with [48; 120]%N. cbn [app startswith].
    now rewrite !N.eqb_refl.
  - change (py "0x") with [48; 120]%N. apply int_of_prefixed_hex; auto.
Qed.

Lemma header_step_hex_numeral (st : Core.SignalState) (n : Z) :
  (0 <= n)%Z ->
  Core.header_step st (CStr (py "0x" ++ hex_of_int n))
  = {| Core.current_msg_id := Some (str_of_int n);
       Core.signals := Core.signals st |}.
Proof.
  intros Hn.
  assert (S : strip (py "0x" ++ hex_of_int n) = py "0x" ++ hex_of_int n).
  { destruct (hex_text_upper Hn) as (_ & S & _).
    unfold hex_of_int in *.
    replace (n <? 0)%Z with false in * by (symmetry; apply Z.ltb_ge; lia).
    destruct (hex_numeral Hn) as (c & ds & E & F & _). rewrite E.
    apply strip_by_id. change (py "0x") with [48; 120]%N.
    constructor; [reflexivity|]. constructor; [reflexivity|].
    eapply Forall_impl; [|exact F]. intros a Ha. now apply hex_char_plain in Ha. }
  apply header_step_parsed; cbn [str_of]; rewrite S.
  - discriminate.
  - unfold read_id.
    assert (P : Core.has_hex_prefix (py "0x" ++ hex_of_int n) = true).
    { unfold Core.has_hex_prefix. change (py "0x") with [48; 120]%N.
      cbn [app startswith]. now rewrite !N.eqb_refl. }
    rewrite P. change (py "0x") with [48; 120]%N.
    apply int_of_prefixed_hex; auto.
Qed.

Lemma format_message_id_hex (n : Z) :
  (0 <= n)%Z ->
  int_of_str 16 (Legacy._format_message_id (CStr (py "0x" ++ hex_of_int n))) = Some n
  /\ int_of_str 16 (Legacy._format_message_id (CStr (hex_of_int n))) = Some n.
Proof.
  intros Hn. destruct (hex_text_upper Hn) as (U & S & P & _).
  unfold Legacy._format_message_id. cbn [str_of]. split.
  - assert (S2 : strip (py "0x" ++ hex_of_int n) = py "0x" ++ hex_of_int n).
    { unfold hex_of_int in *.
      replace (n <? 0)%Z with false in * by (symmetry; apply Z.ltb_ge; lia).
      destruct (hex_numeral Hn) as (c & ds & E & F & _). rewrite E.
      apply strip_by_id. change (py "0x") with [48; 120]%N.
      constructor; [reflexivity|]. constructor; [reflexivity|].
      eapply Forall_impl; [|exact F]. intros a Ha. now apply hex_char_plain in Ha. }
    rewrite S2. unfold upper. rewrite map_app. fold (upper (hex_of_int n)).
    rewrite U. change (List.map upper_cp (py "0x")) with [48; 88]%N.
    change (py "0X") with [48; 88]%N. cbn [app startswith].
    rewrite !N.eqb_refl. cbn [andb]. apply int_of_prefixed_hex; auto.
  - rewrite S, U, P. change (py "0x") with [48; 120]%N.
    apply int_of_prefixed_hex; auto.
Qed.

(** X9: a hexadecimal id reads back.  For a number [n >= 0], the text
    [0x] followed by its upper-case hexadecimal digits is read by the
    modular generator as the message with the decimal id [n], by the
    message loop and by the signal loop alike; the hexadecimal id the
    generator computes for a decimal id names the same message.  The
    single-file generator reads that text, with or without the prefix, as
    [n]. *)
Theorem X9_hex_id_reads_back (n : Z) :
  (0 <= n)%Z ->
  int_of_str 16 (py "0x" ++ hex_of_int n) = Some n
  /\ Core.message_id_forms (py "0x" ++ hex_of_int n)
     = ok (str_of_int n, py "0x" ++ hex_of_int n)
  /\ (forall dec hex,
        Core.message_id_forms (str_of_int n) = ok (dec, hex) ->
        Core.message_id_forms hex = ok (dec, hex))
  /\ (forall st,
        Core.header_step st (CStr (py "0x" ++ hex_of_int n))
        = {| Core.current_msg_id := Some (str_of_int n);
             Core.signals := Core.signals st |})
  /\ int_of_str 16 (Legacy._format_message_id (CStr (py "0x" ++ hex_of_int n)))
     = Some n
  /\ int_of_str 16 (Legacy._format_message_id (CStr (hex_of_int n))) = Some n.
Proof.
  intros Hn.
  split; [change (py "0x") with [48; 120]%N; apply int_of_prefixed_hex; auto|].
  split; [now apply message_id_forms_hex_numeral|].
  split.
  { intros dec hex H. rewrite message_id_forms_numeral in H.
    injection H as <- <-. now apply message_id_forms_hex_numeral. }
  split; [intros st; now apply header_step_hex_numeral|].
  now apply format_message_id_hex.
Qed.

(** The id 0x1A5 is 421. *)
Lemma X9_hex_id_witness :
  int_of_str 16 (py "0x1A5") = Some 421%Z
  /\ Core.message_id_forms (py "0x1A5") = ok (py "421", py "0x1A5").
Proof.
  destruct (X9_hex_id_reads_back (n := 421)) as (H1 & H2 & _); [lia|].
  split; [exact H1 | exact H2].
Defined.

End HexIds.

(** ** The keys of the signals *)

Section SignalKeys.
Import Py Frame Spec.

Lemma dict_get_none {V} (d : Core.dict V) (k : str) :
  ~ In k (List.map fst d) -> Core.dict_get d k = None.
Proof.
  intros H. destruct (Core.dict_get d k) eqn:E; [|reflexivity].
  exfalso. apply H, dict_mem_in. unfold Core.dict_mem. now rewrite E.
Qed.

Lemma dict_append_keys {V} (d : Core.dict (list V)) (k : str) (v : V) :
  List.map fst (Core.dict_append d k v)
  = if Core.dict_mem d k then List.map fst d else List.map fst d ++ [k].
Proof.
  unfold Core.dict_mem.
  induction d as [|[k' l] t IH]; cbn [Core.dict_append Core.dict_get List.map fst];
    [reflexivity|].
  destruct (str_eqb k' k); [reflexivity|].
  cbn [List.map fst]. rewrite IH. now destruct (Core.dict_get t k).
Qed.

Lemma dict_append_nodup {V} (d : Core.dict (list V)) (k : str) (v : V) :
  NoDup (List.map fst d) -> NoDup (List.map fst (Core.dict_append d k v)).
Proof.
  intros Nd. rewrite dict_append_keys. destruct (Core.dict_mem d k) eqn:E;
    [exact Nd|].
  apply NoDup_app; [exact Nd | repeat constructor; intros [] |].
  intros x Hx [<-|[]]. apply dict_mem_in in Hx. congruence.
Qed.

Lemma dict_append_forall {V} (P : str -> Prop) (d : Core.dict (list V))
    (k : str) (v : V) :
  Forall (fun entry => P (fst entry) /\ snd entry <> []) d -> P k ->
  Forall (fun entry => P (fst entry) /\ snd entry <> []) (Core.dict_append d k v).
Proof.
  intros F Hk. induction F as [|[k' l] t [H1 H2] Ft IH]; cbn [Core.dict_append].
  - constructor; [|constructor]. split; [exact Hk | discriminate].
  - destruct (str_eqb k' k).
    + constructor; [|exact Ft]. split; [exact H1|]. cbn. now destruct l.
    + constructor; [now split | exact IH].
Qed.

Lemma header_step_keeps (st : Core.SignalState) (v : cell) :
  signal_state_ok st -> signal_state_ok (Core.header_step st v).
Proof.
  intros (H1 & H2 & H3). unfold Core.header_step. cbv zeta.
  destruct (str_eqb _ []); [now repeat split|].
  repeat split; cbn [Core.current_msg_id Core.signals]; try assumption.
  intros id. destruct (if Core.has_hex_prefix _ then _ else _) as [n|];
    [|discriminate].
  intros H. injection H as <-. now exists n.
Qed.

Lemma signal_step_keeps (mc sc : option str) (cs : Core.SignalColumns)
    (st st' : Core.SignalState) (r : row) :
  signal_state_ok st -> Core.signal_step mc sc cs st r = ok st' ->
  signal_state_ok st'.
Proof.
  intros Hst. unfold Core.signal_step. cbv zeta.
  destruct (notna (get r mc));
    [intros H; injection H as <-; now apply header_step_keeps|].
  destruct (Core.current_msg_id st) as [id|] eqn:Ec;
    [|intros H; injection H as <-; exact Hst].
  destruct (str_eqb id []); [intros H; injection H as <-; exact Hst|].
  destruct (notna (get r sc)); [|intros H; injection H as <-; exact Hst].
  destruct (str_eqb _ []); [intros H; injection H as <-; exact Hst|].
  destruct (Core.signal_of_row cs r _) as [e|sg]; [discriminate|].
  cbn [bind]. intros H. injection H as <-.
  destruct Hst as (H1 & H2 & H3).
  repeat split; cbn [Core.current_msg_id Core.signals].
  - intros id0 H. injection H as <-. exact (H1 id Ec).
  - apply dict_append_forall; [exact H2 | exact (H1 id Ec)].
  - now apply dict_append_nodup.
Qed.

Lemma extract_signals_keys (df : DataFrame) (sigs : Core.dict (list Core.Signal)) :
  Core._extract_signals df = ok sigs ->
  NoDup (List.map fst sigs)
  /\ Forall (fun entry : str * list Core.Signal =>
               canonical_id (fst entry) /\ snd entry <> []) sigs.
Proof.
  unfold Core._extract_signals.
  destruct (find Core.is_message_id_col (columns df)) as [mc|];
    [|intros H; injection H as <-; split; constructor].
  destruct (find Core.is_signal_name_col (columns df)) as [sc|];
    [|intros H; injection H as <-; split; constructor].
  destruct (Core.foldM _ (iterrows df) _) as [e|st] eqn:E; [discriminate|].
  cbn [bind]. intros H. injection H as <-.
  assert (I : signal_state_ok st).
  { revert E. apply foldM_invariant.
    - intros s a s' Hp H. exact (signal_step_keeps _ _ _ _ Hp H).
    - repeat split; cbn; [discriminate | constructor | constructor]. }
  destruct I as (_ & I2 & I3). now split.
Qed.

Lemma not_canonical (s : str) (n : Z) :
  int_of_str 10 s = Some n -> s <> str_of_int n -> ~ canonical_id s.
Proof.
  intros Hi Hs (m & ->). rewrite int_of_str_of_int in Hi. injection Hi as ->.
  congruence.
Qed.

Lemma message_without_signals (sigs : Core.dict (list Core.Signal))
    (k : str) (m : Core.Message) :
  Forall (fun entry : str * list Core.Signal => canonical_id (fst entry)) sigs ->
  ~ canonical_id k ->
  Core.message_lines sigs (k, m) = [Core.bo_line k m; []; []; []].
Proof.
  intros F Hk. unfold Core.message_lines. rewrite dict_get_none; [reflexivity|].
  intros Hin. apply in_map_iff in Hin as ([k' l] & <- & Hin).
  rewrite Forall_forall in F. exact (Hk (F _ Hin)).
Qed.

(** X10: the signals [_extract_signals] returns are grouped under pairwise
    distinct keys, each the decimal numeral of an integer, and no group is
    empty.  A message is stored under its id text as written when that
    text has no [0x] prefix; so when the text reads as an integer without
    being its numeral (a leading zero, a plus sign, an underscore between
    digits), the message is written without any of its signals. *)
Theorem X10_signal_keys (df : DataFrame) (sigs : Core.dict (list Core.Signal)) :
  Core._extract_signals df = ok sigs ->
  NoDup (List.map fst sigs)
  /\ Forall (fun entry : str * list Core.Signal =>
               canonical_id (fst entry) /\ snd entry <> []) sigs
  /\ (forall s n m,
        Core.has_hex_prefix s = false -> int_of_str 10 s = Some n ->
        s <> str_of_int n ->
        Core.message_id_forms s = ok (s, py "0x" ++ hex_of_int n)
        /\ Core.message_lines sigs (s, m) = [Core.bo_line s m; []; []; []]).
Proof.
  intros H. destruct (extract_signals_keys _ H) as [Nd F].
  split; [exact Nd|]. split; [exact F|].
  intros s n m Hp Hi Hs. split; [now apply message_id_forms_decimal|].
  apply message_without_signals.
  - eapply Forall_impl; [|exact F]. now intros e [He _].
  - exact (not_canonical Hi Hs).
Qed.

(** [Examples.engine] with the id text [0256]: the signal is found under
    256, the message is stored under [0256] and written alone. *)
Lemma X10_signal_keys_witness :
  exists sigs,
    Core._extract_signals (Examples.engine_with_id (Examples.text "0256")) = ok sigs
    /\ List.map fst sigs = [py "256"]
    /\ forall m, Core.message_lines sigs (py "0256", m)
                 = [Core.bo_line (py "0256") m; []; []; []].
Proof.
  destruct (Core._extract_signals (Examples.engine_with_id (Examples.text "0256")))
    as [e|sigs] eqn:E; [vm_compute in E; discriminate|].
  exists sigs. split; [reflexivity|].
  split; [vm_compute in E; injection E as <-; reflexivity|].
  intros m.
  apply (proj2 (proj2 (X10_signal_keys _ E)) (py "0256") 256%Z m);
    [reflexivity | reflexivity | discriminate].
Defined.

End SignalKeys.

(** ** Id cells that hold a float *)

Section FloatIds.
Import Py Frame Spec.

Lemma lstrip_by_keeps (sp : N -> bool) (c : N) (s : str) :
  In c s -> sp c = false -> In c (lstrip_by sp s).
Proof.
  intros H Hc. induction s as [|x r IH]; [destruct H|].
  cbn [lstrip_by]. destruct (sp x) eqn:E; [|exact H].
  destruct H as [->|H]; [congruence | exact (IH H)].
Qed.

Lemma strip_by_keeps (sp : N -> bool) (c : N) (s : str) :
  In c s -> sp c = false -> In c (strip_by sp s).
Proof.
  intros H Hc. unfold strip_by. apply -> in_rev.
  apply lstrip_by_keeps; [|exact Hc]. apply -> in_rev.
  now apply lstrip_by_keeps.
Qed.

(** A character that is no digit of the base ends the reading. *)
Lemma digits_value_bad (b : Z) (c : N) (s : str) : forall acc,
  In c s -> is_digit_in b c = false -> c <> underscore ->
  digits_value b acc s = None.
Proof.
  induction s as [|x r IH]; intros acc H Hd Hu; [destruct H|].
  cbn [digits_value]. destruct (x =? underscore)%N eqn:Ex.
  - apply N.eqb_eq in Ex. subst x.
    destruct H as [H|H]; [congruence|].
    destruct r as [|d r']; [reflexivity|].
    destruct (is_digit_in b d); [|reflexivity]. now apply IH.
  - destruct H as [->|H].
    + unfold is_digit_in in Hd. destruct (digit_value c) as [v|]; [|reflexivity].
      now rewrite Hd.
    + destruct (digit_value x) as [v|]; [|reflexivity].
      destruct (v <? b)%Z; [|reflexivity]. now apply IH.
Qed.

Lemma nonempty_digits_bad (b : Z) (c : N) (s : str) :
  In c s -> is_digit_in b c = false -> c <> underscore ->
  nonempty_digits b s = None.
Proof.
  intros H Hd Hu. unfold nonempty_digits. destruct s as [|x r]; [reflexivity|].
  destruct (is_digit_in b x); [|reflexivity]. now apply (@digits_value_bad b c).
Qed.

Lemma signless (A : Type) (x : N) (r : str) (f g h : str -> A) :
  x <> 43%N -> x <> 45%N ->
  match x :: r with
  | 43%N :: t => f t
  | 45%N :: t => g t
  | t => h t
  end = h (x :: r).
Proof.
  intros H1 H2. destruct x as [|p]; [reflexivity|].
  do 6 (destruct p as [p|p|]; try reflexivity); congruence.
Qed.

(** [int(s)] fails on a text that holds a character which is no digit,
    sign, blank or underscore. *)
Lemma int_of_str_bad (c : N) (s : str) :
  In c s -> is_digit_in 10 c = false -> c <> underscore ->
  isspace_num_cp c = false -> c <> 43%N -> c <> 45%N ->
  int_of_str 10 s = None.
Proof.
  intros H Hd Hu Hs Hp Hm. unfold int_of_str.
  pose proof (@strip_by_keeps isspace_num_cp c s H Hs) as K.
  destruct (strip_by isspace_num_cp s) as [|x r]; [destruct K|].
  destruct (N.eq_dec x 43) as [->|N1].
  - destruct K as [K|K]; [congruence|].
    rewrite unsigned_of_str_decimal. now apply (@nonempty_digits_bad 10 c).
  - destruct (N.eq_dec x 45) as [->|N2].
    + destruct K as [K|K]; [congruence|].
      rewrite unsigned_of_str_decimal.
      now rewrite (@nonempty_digits_bad 10 c r K Hd Hu).
    + rewrite (signless r (unsigned_of_str 10)
                 (fun t => option_map Z.opp (unsigned_of_str 10 t))
                 (unsigned_of_str 10) N1 N2).
      rewrite unsigned_of_str_decimal. now apply (@nonempty_digits_bad 10 c).
Qed.

Lemma lstrip_cp_incl (c x : N) (s : str) : In x (lstrip_cp c s) -> In x s.
Proof.
  induction s as [|d r IH]; [intros []|].
  cbn [lstrip_cp]. destruct (d =? c)%N; [|auto]. intros H. right. exact (IH H).
Qed.

Lemma rstrip_cp_incl (c x : N) (s : str) : In x (rstrip_cp c s) -> In x s.
Proof.
  unfold rstrip_cp. intros H. now apply in_rev, lstrip_cp_incl, in_rev in H.
Qed.

Lemma shortest_digits_digits (q : Q) :
  Forall (fun c => isdigit_cp c = true) (fst (shortest_digits q)).
Proof.
  unfold shortest_digits. cbv zeta.
  destruct (shortest q (floor_log10 q + 1) 16 1) as [c n]. cbn [fst].
  apply Forall_forall. intros x Hx. apply rstrip_cp_incl in Hx.
  pose proof (numeral_digits c) as D. rewrite Forall_forall in D. now apply D.
Qed.

Lemma digit_float_char (l : str) :
  Forall (fun c => isdigit_cp c = true) l -> Forall float_char l.
Proof. intros H. eapply Forall_impl; [|exact H]. intros c Hc. now left. Qed.

Lemma repeat_zero_float_char (k : nat) : Forall float_char (repeat zero_cp k).
Proof.
  apply Forall_forall. intros x Hx. apply repeat_spec in Hx. subst. now left.
Qed.

Lemma literal_float_char (l : str) :
  forallb (fun c => existsb (N.eqb c) [46; 101; 43; 45; 110; 97; 105; 102; 48]%N) l = true ->
  Forall float_char l.
Proof.
  intros H. rewrite forallb_forall in H. apply Forall_forall. intros x Hx.
  specialize (H x Hx). apply existsb_exists in H as (y & Hy & E).
  apply N.eqb_eq in E. subst y. cbn [In] in Hy.
  destruct Hy as [<-|[<-|[<-|[<-|[<-|[<-|[<-|[<-|[<-|[]]]]]]]]]];
    try (right; cbn; tauto). now left.
Qed.

(** The text of a positive float: its characters, and a character among
    them that no integer numeral holds. *)
Lemma repr_positive_chars (q : Q) :
  Forall float_char (repr_positive q)
  /\ (In 46%N (repr_positive q)
      \/ (In 101%N (repr_positive q)
          /\ (In 43%N (repr_positive q) \/ In 45%N (repr_positive q)))).
Proof.
  unfold repr_positive. pose proof (shortest_digits_digits q) as D.
  destruct (shortest_digits q) as [ds decpt]. cbn [fst] in D.
  apply digit_float_char in D.
  destruct ((decpt <=? -4)%Z || (16 <? decpt)%Z).
  - split.
    + apply Forall_app. split.
      * destruct ds as [|d [|d' r]]; try exact D.
        inversion D as [|? ? Hd Hr]; subst.
        constructor; [exact Hd|]. constructor; [right; cbn; tauto | exact Hr].
      * constructor; [right; cbn; tauto|]. apply Forall_app. split.
        -- destruct (decpt - 1 <? 0)%Z; constructor;
             try (right; cbn; tauto); constructor.
        -- unfold pad_left. apply Forall_app. split;
             [apply repeat_zero_float_char | apply digit_float_char, numeral_digits].
    + right. split.
      * apply in_or_app. right. now left.
      * destruct (decpt - 1 <? 0)%Z; [right | left];
          apply in_or_app; right; right; now left.
  - destruct (decpt <=? 0)%Z.
    + split.
      * constructor; [now left|]. constructor; [right; cbn; tauto|].
        apply Forall_app. split; [apply repeat_zero_float_char | exact D].
      * left. right. now left.
    + destruct (Z.of_nat (List.length ds) <=? decpt)%Z.
      * split.
        -- apply Forall_app. split; [exact D|]. apply Forall_app. split;
             [apply repeat_zero_float_char|].
           constructor; [right; cbn; tauto|]. constructor; [now left | constructor].
        -- left. apply in_or_app. right. apply in_or_app. right. now left.
      * split.
        -- apply Forall_app. split.
           ++ apply Forall_forall. intros x Hx. rewrite Forall_forall in D.
              apply D. rewrite <- (firstn_skipn (Z.to_nat decpt) ds).
              apply in_or_app. now left.
           ++ constructor; [right; cbn; tauto|].
              apply Forall_forall. intros x Hx. rewrite Forall_forall in D.
              apply D. rewrite <- (firstn_skipn (Z.to_nat decpt) ds).
              apply in_or_app. now right.
        -- left. apply in_or_app. right. now left.
Qed.

Lemma float_repr_chars (x : float) :
  Forall float_char (float_repr x)
  /\ (exists c, In c (float_repr x) /\ (c = 46 \/ c = 101 \/ c = 110)%N)
  /\ (exists c, In c (float_repr x) /\ (c = 46 \/ c = 110 \/ c = 43 \/ c = 45)%N).
Proof.
  destruct x as [q| |b|]; cbn [float_repr].
  - destruct (Qcompare q 0).
    + split; [apply literal_float_char; reflexivity|].
      split; exists 46%N; (split; [cbn; tauto | tauto]).
    + split; [constructor; [right; cbn; tauto | apply repr_positive_chars]|].
      split; [|exists 45%N; split; [now left | tauto]].
      destruct (proj2 (repr_positive_chars (- q))) as [H|[H _]];
        [exists 46%N | exists 101%N]; (split; [now right | tauto]).
    + split; [apply repr_positive_chars|].
      destruct (proj2 (repr_positive_chars q)) as [H|[H [G|G]]].
      * split; exists 46%N; (split; [exact H | tauto]).
      * split; [exists 101%N | exists 43%N]; (split; [assumption | tauto]).
      * split; [exists 101%N | exists 45%N]; (split; [assumption | tauto]).
  - split; [apply literal_float_char; reflexivity|].
    split; exists 46%N; (split; [cbn; tauto | tauto]).
  - destruct b; (split; [apply literal_float_char; reflexivity|]);
      split; exists 110%N; (split; [cbn; tauto | tauto]).
  - split; [apply literal_float_char; reflexivity|].
    split; exists 110%N; (split; [cbn; tauto | tauto]).
Qed.

Lemma float_char_plain (c : N) :
  float_char c ->
  isspace_cp c = false /\ isspace_num_cp c = false
  /\ c <> 120%N /\ c <> 88%N /\ c <> underscore.
Proof.
  intros [H|H].
  - destruct (@plain_char c (or_introl H)) as (S1 & S2 & X1 & X2).
    apply N.eqb_neq in X1, X2. repeat split; try assumption.
    intros ->. discriminate H.
  - cbn [In] in H.
    destruct H as [<-|[<-|[<-|[<-|[<-|[<-|[<-|[<-|[]]]]]]]]];
      repeat split; try reflexivity; discriminate.
Qed.

Lemma float_text_no_prefix (s : str) :
  Forall float_char s ->
  Core.has_hex_prefix s = false /\ startswith (py "0X") (upper s) = false.
Proof.
  intros F. unfold Core.has_hex_prefix.
  change (py "0x") with [48; 120]%N. change (py "0X") with [48; 88]%N.
  destruct s as [|a [|b r]]; cbn [upper List.map startswith].
  - split; reflexivity.
  - rewrite !andb_false_r. split; reflexivity.
  - inversion F as [|? ? _ F']; subst. inversion F' as [|? ? Hb _]; subst.
    destruct (float_char_plain Hb) as (_ & _ & X1 & X2 & _).
    assert (X3 : upper_cp b <> 88%N).
    { unfold upper_cp. destruct (islower_cp b) eqn:L; [|exact X2].
      unfold islower_cp in L. apply andb_true_iff in L as [L1 L2].
      apply N.leb_le in L1, L2. intros E.
      assert (b = 120%N) by lia. contradiction. }
    apply not_eq_sym, N.eqb_neq in X1, X2, X3. rewrite X1, X2, X3.
    rewrite !andb_false_r. split; reflexivity.
Qed.

Lemma strip_float_text (x : float) : strip (float_repr x) = float_repr x.
Proof.
  apply strip_by_id. eapply Forall_impl; [|apply float_repr_chars].
  intros c Hc. now apply float_char_plain in Hc.
Qed.

(** The text of a float reads as no integer, in base 10 or 16. *)
Lemma float_text_is_no_id (x : float) :
  float_repr x <> []
  /\ read_id (float_repr x) = None
  /\ int_of_str 16 (Legacy._format_message_id (CFloat x)) = None.
Proof.
  destruct (float_repr_chars x) as (F & (c & Hc & Mc) & (d & Hd & Md)).
  split; [intros E; rewrite E in Hc; destruct Hc|]. split.
  - unfold read_id. rewrite (proj1 (float_text_no_prefix F)).
    apply (@int_of_str_bad c); [exact Hc | | | | |];
      destruct Mc as [->|[-> | ->]]; try reflexivity; discriminate.
  - unfold Legacy._format_message_id. cbn [str_of]. rewrite strip_float_text.
    rewrite (proj2 (float_text_no_prefix F)).
    set (u := upper (float_repr x)).
    assert (Hu : exists e, In e u /\ (e = 46 \/ e = 78 \/ e = 43 \/ e = 45)%N).
    { exists (upper_cp d). split; [now apply in_map|].
      destruct Md as [->|[->|[-> | ->]]]; cbn; tauto. }
    destruct Hu as (e & He & Me).
    assert (Pu : Forall (fun a => isspace_num_cp a = false /\ a <> underscore) u).
    { apply Forall_forall. intros a Ha. apply in_map_iff in Ha as (a0 & <- & Ha0).
      rewrite Forall_forall in F. specialize (F a0 Ha0).
      unfold upper_cp. destruct (islower_cp a0) eqn:L.
      - unfold islower_cp in L. apply andb_true_iff in L as [L1 L2].
        apply N.leb_le in L1, L2.
        destruct (@printable_not_space (a0 - 32)) as [_ S2]; [lia|].
        split; [exact S2|]. unfold underscore. lia.
      - destruct (float_char_plain F) as (_ & S2 & _ & _ & U). now split. }
    assert (S : strip_by isspace_num_cp ([48; 120]%N ++ u) = [48; 120]%N ++ u).
    { apply strip_by_id. constructor; [reflexivity|]. constructor; [reflexivity|].
      eapply Forall_impl; [|exact Pu]. now intros a [Ha _]. }
    change (py "0x") with [48; 120]%N. unfold int_of_str. rewrite S.
    cbn [app]. cbv beta iota. unfold unsigned_of_str. cbn [Z.eqb N.eqb Pos.eqb andb orb].
    destruct u as [|a r] eqn:Eu; [reflexivity|].
    inversion Pu as [|? ? [_ Ua] _]; subst.
    apply N.eqb_neq in Ua. rewrite Ua.
    apply (@nonempty_digits_bad 16 e); [exact He | |];
      destruct Me as [->|[->|[-> | ->]]]; try reflexivity; discriminate.
Qed.

Lemma message_step_float_id (idc namec dlcc : option str)
    (msgs : Core.dict Core.Message) (r : row) (x : float) :
  get r idc = CFloat x -> Core.message_step idc namec dlcc msgs r = ok msgs.
Proof.
  intros Hg. destruct (float_text_is_no_id x) as (_ & R & _).
  unfold Core.message_step. cbv zeta. rewrite Hg.
  destruct (isna (CFloat x)); [reflexivity|].
  cbn [str_of]. rewrite strip_float_text.
  destruct (str_eqb (float_repr x) []); [reflexivity|].
  unfold Core.message_id_forms. unfold read_id in R.
  destruct (Core.has_hex_prefix (float_repr x)); now rewrite R.
Qed.

Lemma header_step_float_id (st : Core.SignalState) (x : float) :
  Core.header_step st (CFloat x)
  = {| Core.current_msg_id := None; Core.signals := Core.signals st |}.
Proof.
  destruct (float_text_is_no_id x) as (Ne & R & _).
  apply header_step_unparsable; cbn [str_of]; now rewrite strip_float_text.
Qed.

(** X11: an id cell that holds a float, as a column of numbers with empty
    cells is read, is never taken as an id, whatever the number.  In the
    modular generator the row adds no message, and in the signal loop it
    closes the open message, so that the signal rows after it are dropped.
    In the single-file generator the id stored for it does not read in
    base 16, which ends the run when the message is written. *)
Theorem X11_float_id_cell (x : float) :
  (forall idc namec dlcc msgs r,
     get r idc = CFloat x -> Core.message_step idc namec dlcc msgs r = ok msgs)
  /\ (forall mc sc cs st r,
        get r mc = CFloat x -> isna (CFloat x) = false ->
        Core.signal_step mc sc cs st r
        = ok {| Core.current_msg_id := None; Core.signals := Core.signals st |})
  /\ (forall m, Legacy.id m = Legacy._format_message_id (CFloat x) ->
                Legacy.msg_id_dec_of m = raise ValueError).
Proof.
  split; [intros idc namec dlcc msgs r Hg;
          exact (message_step_float_id idc namec dlcc msgs r Hg)|]. split.
  - intros mc sc cs st r Hg Hn.
    rewrite signal_step_header by (now rewrite Hg).
    now rewrite Hg, header_step_float_id.
  - intros m Hm. unfold Legacy.msg_id_dec_of. rewrite Hm.
    now rewrite (proj2 (proj2 (float_text_is_no_id x))).
Qed.

(** The id 256.0. *)
Lemma X11_float_id_witness :
  Core.signal_step (Some Legacy.col_msg_id) (Some Legacy.col_signal_name)
    Examples.role_columns
    {| Core.current_msg_id := Some (py "256"); Core.signals := [] |}
    (combine Examples.sheet_columns (Examples.sheet_row [Examples.number 256]))
  = ok {| Core.current_msg_id := None; Core.signals := [] |}.
Proof.
  apply (proj1 (proj2 (X11_float_id_cell (FFin 256)))); reflexivity.
Defined.

End FloatIds.

(** ** How the signal loop can fail *)

Section SignalErrors.
Import Py Frame Spec.

Lemma foldM_error {A S} (P : exn -> Prop) (f : S -> A -> result S) (l : list A) :
  (forall st a e, f st a = inl e -> P e) ->
  forall st e, Core.foldM f l st = inl e -> P e.
Proof.
  intros Hf. induction l as [|a t IH]; intros st e H; [discriminate|].
  cbn [Core.foldM] in H. destruct (f st a) as [e1|s1] eqn:E.
  - cbn in H. injection H as <-. exact (Hf _ _ _ E).
  - exact (IH _ _ H).
Qed.

Lemma signal_step_raises (mc sc : option str) (cs : Core.SignalColumns)
    (st : Core.SignalState) (r : row) (e : exn) :
  Core.signal_step mc sc cs st r = inl e -> e = OverflowError.
Proof.
  unfold Core.signal_step. cbv zeta.
  destruct (notna (get r mc)); [discriminate|].
  destruct (Core.current_msg_id st) as [id|]; [|discriminate].
  destruct (str_eqb id []); [discriminate|].
  destruct (notna (get r sc)); [|discriminate].
  destruct (str_eqb _ []); [discriminate|].
  destruct (Core.signal_of_row cs r _) as [e1|sg] eqn:E; [|discriminate].
  cbn. intros H. injection H as <-. exact (signal_of_row_raises _ _ _ E).
Qed.

Lemma extract_signals_raises (df : DataFrame) (e : exn) :
  Core._extract_signals df = inl e -> e = OverflowError.
Proof.
  unfold Core._extract_signals.
  destruct (find Core.is_message_id_col (columns df)) as [mc|]; [|discriminate].
  destruct (find Core.is_signal_name_col (columns df)) as [sc|]; [|discriminate].
  destruct (Core.foldM _ (iterrows df) _) as [e1|st] eqn:E; [|discriminate].
  cbn. intros H. injection H as <-. revert E.
  apply (@foldM_error row Core.SignalState (fun e => e = OverflowError)).
  intros st a e. apply signal_step_raises.
Qed.

(** An infinite length stops the row. *)
Lemma infinite_length (cs : Core.SignalColumns) (r : row) (name : str) (neg : bool) :
  Core.signal_length_col cs <> None ->
  float_of (get r (Core.signal_length_col cs)) = ok (FInf neg) ->
  Core.signal_of_row cs r name = raise OverflowError.
Proof.
  intros Hc Hf. unfold Core.signal_of_row. cbv zeta.
  assert (L : Core.signal_length_of cs r = raise OverflowError).
  { unfold Core.signal_length_of. revert Hc Hf.
    destruct (Core.signal_length_col cs) as [c|]; [|intros Hc _; now destruct Hc].
    intros _ Hf.
    assert (Hn : notna (get r (Some c)) = true).
    { destruct (get r (Some c)) as [|z|[q| |b|]|s]; try reflexivity; discriminate. }
    rewrite Hn. unfold int_of_float_of. rewrite Hf. reflexivity. }
  now rewrite L.
Qed.

Lemma no_file_without_content (os : platform) (self : Core.DBCGenerator)
    (output_file : str) (node_type controller_name target : option str)
    (is_canfd : bool) (df : DataFrame) (e : exn) (files : list (str * str)) :
  Core.matrix_data self = Some df ->
  Core.file_content df (Core.node_columns self) is_canfd = inl e ->
  Core.generate_dbc os self output_file node_type controller_name target is_canfd
  = Some files ->
  files = [].
Proof.
  intros Hm Hc H.
  destruct (generate_dbc_files _ _ _ _ _ _ _ H)
    as (df' & detected & bts & Hm' & _ & _ & Hf).
  rewrite Hm in Hm'. injection Hm' as <-.
  destruct Hf as [[_ ->]|(content & Hc' & _)]; [reflexivity|].
  rewrite Hc in Hc'. discriminate Hc'.
Qed.

(** X12: the loop over the signal rows fails in one way only, with the
    overflow of a number that no float or integer holds: an integer cell
    too large for a float, or an infinite start byte, start bit or length.
    A length cell that reads as an infinite float does so.  Any other cell
    that does not convert leaves the default of its field.  On a table
    whose signals fail, a run returns [True] only when it has no bus to
    write a file for. *)
Theorem X12_signal_loop_failure :
  (forall df e, Core._extract_signals df = inl e -> e = OverflowError)
  /\ (forall cs r name neg,
        Core.signal_length_col cs <> None ->
        float_of (get r (Core.signal_length_col cs)) = ok (FInf neg) ->
        Core.signal_of_row cs r name = raise OverflowError)
  /\ (forall os self output_file node_type controller_name target is_canfd df e files,
        Core.matrix_data self = Some df ->
        Core._extract_signals df = inl e ->
        Core.generate_dbc os self output_file node_type controller_name target
          is_canfd = Some files ->
        files = []).
Proof.
  split; [exact extract_signals_raises|]. split; [exact infinite_length|].
  intros os self output_file node_type controller_name target is_canfd df e files
    Hm He H.
  assert (C : exists e', Core.file_content df (Core.node_columns self) is_canfd = inl e').
  { unfold Core.file_content. cbv zeta.
    destruct (Core._extract_messages df) as [e1|msgs]; [now exists e1|].
    cbn [bind]. rewrite He. now exists e. }
  destruct C as (e' & C). exact (no_file_without_content _ _ _ _ _ _ _ Hm C H).
Qed.

(** A signal row whose length cell is the text [inf]. *)
Lemma X12_signal_loop_witness :
  Core._extract_signals
    {| columns := Examples.sheet_columns;
       data := [Examples.sheet_row [Examples.text "0x100"];
                Examples.sheet_row
                  [CNone; CNone; CNone; Examples.text "EngineSpeed"; CNone; CNone;
                   Examples.text "inf"]] |}
  = raise OverflowError.
Proof.
  match goal with
  | |- ?x = _ => destruct x as [e|sigs] eqn:E; [|vm_compute in E; discriminate]
  end.
  now rewrite (proj1 X12_signal_loop_failure _ _ E).
Defined.

End SignalErrors.

(** ** The columns of the signal attributes *)

Section RoleColumns.
Import Py Frame Spec.

Lemma find_app {A} (p : A -> bool) (a b : list A) :
  find p (a ++ b) = match find p a with
                    | Some x => Some x
                    | None => find p b
                    end.
Proof.
  induction a as [|x t IH]; [reflexivity|]. cbn [app find].
  destruct (p x); [reflexivity | exact IH].
Qed.

(** One column: it takes the place of the column of its role, if it has one. *)
Lemma assign_column_role (cs : Core.SignalColumns) (col : str) (r : role) :
  column_of (Core.assign_column cs col) r
  = if has_role r col then Some col else column_of cs r.
Proof.
  unfold Core.assign_column, has_role, role_of, roles. cbv zeta.
  cbn [find]. unfold names_role. cbv beta zeta iota.
  destruct cs as [sbit sbyte len bo vt fa off un mi ma].
  repeat match goal with
         | |- context [if ?b then Core.Build_SignalColumns _ _ _ _ _ _ _ _ _ _ else _] =>
           destruct b
         end;
    destruct r; reflexivity.
Qed.

Lemma fold_assign_role (r : role) (cols : list str) : forall cs,
  column_of (fold_left Core.assign_column cols cs) r
  = match find (has_role r) (rev cols) with
    | Some c => Some c
    | None => column_of cs r
    end.
Proof.
  induction cols as [|c t IH]; intros cs; [reflexivity|].
  cbn [fold_left rev]. rewrite IH, find_app, assign_column_role.
  destruct (find (has_role r) (rev t)); [reflexivity|].
  cbn [find]. now destruct (has_role r c).
Qed.

Lemma signal_columns_role (df : DataFrame) (r : role) :
  column_of (Core.signal_columns df) r = find (has_role r) (rev (columns df)).
Proof.
  unfold Core.signal_columns. rewrite fold_assign_role.
  destruct (find _ _); [reflexivity | now destruct r].
Qed.

(** X13: the column an attribute of the signals is read from is the last
    column of the table that has the role of that attribute, and none when
    no column has it.  A label has one role at most: of the roles whose
    keyword it holds, in lower case, the first in the order start bit,
    start byte, length, byte order, value type, factor, offset, unit,
    minimum, maximum. *)
Theorem X13_attribute_columns (df : DataFrame) (r : role) :
  column_of (Core.signal_columns df) r = find (has_role r) (rev (columns df))
  /\ (forall c, column_of (Core.signal_columns df) r = Some c ->
                In c (columns df) /\ role_of c = Some r)
  /\ (column_of (Core.signal_columns df) r = None <->
      forall c, In c (columns df) -> role_of c <> Some r).
Proof.
  pose proof (signal_columns_role df r) as E. split; [exact E|].
  assert (R : forall c, has_role r c = true <-> role_of c = Some r).
  { intros c. unfold has_role. destruct (role_of c) as [r'|].
    - split.
      + intros H. f_equal. destruct r', r; try discriminate H; reflexivity.
      + intros H. injection H as ->. now destruct r.
    - split; discriminate. }
  split.
  - intros c Hc. rewrite E in Hc. apply find_some in Hc as [Hin Hr].
    split; [now apply in_rev | now apply R].
  - rewrite E. split.
    + intros Hn c Hin Hr. apply in_rev in Hin.
      pose proof (find_none _ _ Hn c Hin) as F. apply R in Hr. congruence.
    + intros Hn. destruct (find _ _) as [c|] eqn:F; [|reflexivity].
      apply find_some in F as [Hin Hr]. apply in_rev in Hin. apply R in Hr.
      now destruct (Hn c Hin).
Qed.

(** Two columns hold [min]: the later one is read.  A label that holds
    [start bit] and [unit] is the start bit column. *)
Lemma X13_attribute_columns_witness :
  column_of
    (Core.signal_columns
       {| columns := List.map py ["Signal Min. Value (phys)"; "Start Bit Unit";
                                  "Signal Min. Value (Hex)"]%string;
          data := [] |}) MinVal
  = Some (py "Signal Min. Value (Hex)")
  /\ role_of (py "Start Bit Unit") = Some StartBit.
Proof.
  split.
  - rewrite (proj1 (X13_attribute_columns _ MinVal)). reflexivity.
  - apply (proj1 (proj2 (X13_attribute_columns
             {| columns := List.map py ["Signal Min. Value (phys)"; "Start Bit Unit";
                                        "Signal Min. Value (Hex)"]%string;
                data := [] |} StartBit))).
    rewrite (proj1 (X13_attribute_columns _ StartBit)). reflexivity.
Defined.

End RoleColumns.

(** ** Runs of the modular generator that write one file, or none *)

Section RunEdges.
Import Py Frame Spec.

Lemma foldM_raises {A S} (f : S -> A -> result S) (l : list A) (a : A) :
  In a l -> (forall st, exists e, f st a = inl e) ->
  forall st, exists e, Core.foldM f l st = inl e.
Proof.
  intros Hin Hf. induction l as [|x t IH]; intros st; [destruct Hin|].
  cbn [Core.foldM]. destruct (f st x) as [e|s1] eqn:E; [now exists e|].
  cbn [bind]. destruct Hin as [->|Hin]; [|now apply IH].
  destruct (Hf st) as (e & He). congruence.
Qed.

Lemma not_mem_str (x : str) (l : list str) :
  ~ In x l -> existsb (str_eqb x) l = false.
Proof.
  intros H. destruct (existsb (str_eqb x) l) eqn:E; [|reflexivity].
  exfalso. apply H. now apply mem_str_in.
Qed.

(** A node column that is no column of the table. *)
Lemma bus_suffix_of_missing (df : DataFrame) (col : str) :
  In underscore col -> ~ In col (columns df) ->
  Core.bus_suffix_of df col = raise KeyError.
Proof.
  intros Hu Hc. unfold Core.bus_suffix_of. cbv zeta.
  rewrite (proj2 (contains_char underscore col) Hu), (@split_two_parts col Hu).
  unfold column. now rewrite (not_mem_str _ _ Hc).
Qed.

Lemma bus_suffix_of_empty (df : DataFrame) (col : str) :
  ~ In underscore col \/ no_data df col -> Core.bus_suffix_of df col = ok [].
Proof.
  intros H. unfold Core.bus_suffix_of. cbv zeta.
  destruct (contains [underscore] col) eqn:Ec; [|reflexivity].
  destruct (2 <=? _)%nat; [|reflexivity].
  destruct H as [H|(cells & Hc & Hd)];
    [apply contains_char in Ec; contradiction|].
  rewrite Hc. cbn [bind ok]. cbv zeta. now rewrite filter_notna_length, Hd.
Qed.

Lemma detect_without_data (df : DataFrame) (ncs : list str) :
  (forall col, In col ncs -> ~ In underscore col \/ no_data df col) ->
  Core.detect_bus_types df ncs = ok [].
Proof.
  intros H. unfold Core.detect_bus_types.
  assert (F : forall acc,
            Core.foldM (fun acc col =>
                          bind (Core.bus_suffix_of df col) (fun l => ok (acc ++ l)))
              ncs acc = ok acc).
  { induction ncs as [|c t IH]; intros acc; [reflexivity|].
    cbn [Core.foldM]. rewrite bus_suffix_of_empty by (apply H; now left).
    cbn [bind ok]. rewrite app_nil_r. apply IH. intros col Hc. apply H. now right. }
  now rewrite F.
Qed.

Lemma generate_dbc_missing_column (os : platform) (self : Core.DBCGenerator)
    (output_file : str) (node_type controller_name target : option str)
    (is_canfd : bool) (df : DataFrame) (col : str) :
  Core.matrix_data self = Some df ->
  In col (Core.node_columns self) -> In underscore col -> ~ In col (columns df) ->
  Core.generate_dbc os self output_file node_type controller_name target is_canfd
  = None.
Proof.
  intros Hm Hin Hu Hc. unfold Core.generate_dbc. rewrite Hm.
  destruct (Core.node_columns self) as [|c0 t] eqn:En; [reflexivity|].
  rewrite <- En in *.
  assert (D : exists e, Core.detect_bus_types df (Core.node_columns self) = inl e).
  { unfold Core.detect_bus_types.
    destruct (@foldM_raises str (list str)
                (fun acc c => bind (Core.bus_suffix_of df c) (fun l => ok (acc ++ l)))
                (Core.node_columns self) col Hin) with (st := @nil str) as (e & He).
    - intros st. exists KeyError. now rewrite bus_suffix_of_missing.
    - exists e. now rewrite He. }
  destruct D as (e & ->). reflexivity.
Qed.

Lemma generate_dbc_without_data (os : platform) (self : Core.DBCGenerator)
    (output_file : str) (node_type controller_name target : option str)
    (is_canfd : bool) (df : DataFrame) :
  Core.matrix_data self = Some df -> Core.node_columns self <> [] ->
  (forall col, In col (Core.node_columns self) ->
               ~ In underscore col \/ no_data df col) ->
  Core.generate_dbc os self output_file node_type controller_name target is_canfd
  = if Core.truthy target then None else Some [].
Proof.
  intros Hm Hn H. unfold Core.generate_dbc. rewrite Hm.
  destruct (Core.node_columns self) as [|c0 t] eqn:En; [congruence|].
  rewrite <- En in *. rewrite (@detect_without_data df _ H).
  destruct (Core.truthy target) eqn:Et; [|reflexivity].
  destruct target as [t0|]; [|discriminate]. reflexivity.
Qed.

Lemma generate_dbc_target (os : platform) (self : Core.DBCGenerator)
    (output_file : str) (node_type controller_name : option str) (t : str)
    (is_canfd : bool) (files : list (str * str)) :
  t <> [] ->
  Core.generate_dbc os self output_file node_type controller_name (Some t) is_canfd
  = Some files ->
  exists df content col,
    Core.matrix_data self = Some df
    /\ Core.file_content df (Core.node_columns self) is_canfd = ok content
    /\ files = [(Core.bus_output_file os output_file t, content)]
    /\ In col (Core.node_columns self) /\ bus_suffix col = t /\ has_data df col.
Proof.
  intros Ht H.
  destruct (generate_dbc_files _ _ _ _ _ _ _ H)
    as (df & detected & bts & Hm & Hd & Hb & Hf).
  destruct Hb as [[Hb _]|(t' & Et & Hin & ->)];
    [destruct t; [congruence | discriminate Hb]|].
  injection Et as <-.
  destruct Hf as [[Hf _]|(content & Hc & ->)]; [discriminate Hf|].
  destruct (detect_bus_types_in _ _ Hd) as (_ & I1 & _).
  destruct (I1 t Hin) as (col & Hcol & Hs & Hdata).
  exists df, content, col. repeat split; auto.
Qed.

Lemma generate_dbc_unknown_target (os : platform) (self : Core.DBCGenerator)
    (output_file : str) (node_type controller_name : option str) (t : str)
    (is_canfd : bool) (df : DataFrame) :
  t <> [] -> Core.matrix_data self = Some df ->
  (forall col, In col (Core.node_columns self) -> has_data df col ->
               bus_suffix col <> t) ->
  Core.generate_dbc os self output_file node_type controller_name (Some t) is_canfd
  = None.
Proof.
  intros Ht Hm Hn.
  destruct (Core.generate_dbc os self output_file node_type controller_name
              (Some t) is_canfd) as [files|] eqn:E; [|reflexivity].
  destruct (generate_dbc_target _ _ _ _ _ _ Ht E)
    as (df' & content & col & Hm' & _ & _ & Hin & Hs & Hd).
  rewrite Hm in Hm'. injection Hm' as <-. now destruct (Hn col Hin Hd).
Qed.

(** X14: a run for one bus type.  When it succeeds it writes one file,
    named after that bus type, and a node column with data has that bus
    type as its suffix.  When no node column with data has that suffix the
    run fails. *)
Theorem X14_one_bus_run (os : platform) (self : Core.DBCGenerator)
    (output_file : str) (node_type controller_name : option str) (t : str)
    (is_canfd : bool) :
  t <> [] ->
  (forall files,
     Core.generate_dbc os self output_file node_type controller_name (Some t)
       is_canfd = Some files ->
     exists df content col,
       Core.matrix_data self = Some df
       /\ Core.file_content df (Core.node_columns self) is_canfd = ok content
       /\ files = [(Core.bus_output_file os output_file t, content)]
       /\ In col (Core.node_columns self) /\ bus_suffix col = t /\ has_data df col)
  /\ (forall df,
        Core.matrix_data self = Some df ->
        (forall col, In col (Core.node_columns self) -> has_data df col ->
                     bus_suffix col <> t) ->
        Core.generate_dbc os self output_file node_type controller_name (Some t)
          is_canfd = None).
Proof.
  intros Ht. split.
  - intros files H. eapply generate_dbc_target; eassumption.
  - intros df Hm Hn. eapply generate_dbc_unknown_target; eassumption.
Qed.

(** [Examples.engine] for bus E: one file; for bus C: none. *)
Lemma X14_one_bus_run_witness :
  (exists content,
     Core.generate_dbc Posix (Examples.core_of Examples.engine) (py "m.dbc")
       None None (Some (py "E")) false
     = Some [(py "m_ECAN.dbc", content)])
  /\ Core.generate_dbc Posix (Examples.core_of Examples.engine) (py "m.dbc")
       None None (Some (py "C")) false = None.
Proof.
  split.
  - destruct (Core.generate_dbc Posix (Examples.core_of Examples.engine) (py "m.dbc")
                None None (Some (py "E")) false) as [files|] eqn:E;
      [|vm_compute in E; discriminate].
    destruct (proj1 (@X14_one_bus_run Posix (Examples.core_of Examples.engine)
                       (py "m.dbc") None None (py "E") false ltac:(discriminate))
                files E)
      as (df & content & col & _ & _ & -> & _).
    now exists content.
  - apply (proj2 (@X14_one_bus_run Posix (Examples.core_of Examples.engine)
                    (py "m.dbc") None None (py "C") false ltac:(discriminate))
             Examples.engine); [reflexivity|].
    intros col [<-|[<-|[]]] _; discriminate.
Defined.

(** X15: a node column with an underscore that is no column of the table
    makes every run fail: counting its cells raises [KeyError]. *)
Theorem X15_missing_node_column (os : platform) (self : Core.DBCGenerator)
    (output_file : str) (node_type controller_name target : option str)
    (is_canfd : bool) (df : DataFrame) (col : str) :
  Core.matrix_data self = Some df ->
  In col (Core.node_columns self) -> In underscore col -> ~ In col (columns df) ->
  Core.bus_suffix_of df col = raise KeyError
  /\ Core.generate_dbc os self output_file node_type controller_name target is_canfd
     = None.
Proof.
  intros Hm Hin Hu Hc. split; [now apply bus_suffix_of_missing|].
  now apply (@generate_dbc_missing_column _ _ _ _ _ _ _ df col).
Qed.

Lemma X15_missing_node_column_witness :
  Core.bus_suffix_of Examples.engine (py "BMS_C") = raise KeyError
  /\ Core.generate_dbc Posix (Examples.core_with Examples.engine ["VCU_P"; "BMS_C"]%string)
       (py "m.dbc") None None None false = None.
Proof.
  apply (@X15_missing_node_column Posix
           (Examples.core_with Examples.engine ["VCU_P"; "BMS_C"]%string)
           (py "m.dbc") None None None false Examples.engine (py "BMS_C")).
  - reflexivity.
  - right. now left.
  - vm_compute. tauto.
  - vm_compute. intuition discriminate.
Defined.

(** X16: when no node column names a bus with data (each is without
    underscore, or a column of the table without any cell filled), a run
    over all buses succeeds and writes no file, and a run for one bus
    fails. *)
Theorem X16_run_without_data (os : platform) (self : Core.DBCGenerator)
    (output_file : str) (node_type controller_name target : option str)
    (is_canfd : bool) (df : DataFrame) :
  Core.matrix_data self = Some df -> Core.node_columns self <> [] ->
  (forall col, In col (Core.node_columns self) ->
               ~ In underscore col \/ no_data df col) ->
  Core.generate_dbc os self output_file node_type controller_name target is_canfd
  = if Core.truthy target then None else Some [].
Proof. exact (@generate_dbc_without_data os self output_file _ _ _ _ df). Qed.

(** The column LV1_EV of [Examples.engine] is empty. *)
Lemma X16_run_without_data_witness :
  Core.generate_dbc Posix (Examples.core_with Examples.engine ["LV1_EV"]%string)
    (py "m.dbc") None None None false = Some [].
Proof.
  apply (@X16_run_without_data Posix
           (Examples.core_with Examples.engine ["LV1_EV"]%string)
           (py "m.dbc") None None None false Examples.engine).
  - reflexivity.
  - discriminate.
  - intros col [<-|[]]. right. eexists. split; vm_compute; reflexivity.
Defined.

End RunEdges.

(** ** The names of the files *)

Section OutputNames.
Import Py Frame Spec.

Lemma rev_ext_some (r : str) : forall e,
  rev_ext r = Some e ->
  exists body rest,
    e = body ++ [dot_cp] /\ r = e ++ rest /\ ~ In dot_cp body.
Proof.
  induction r as [|c t IH]; intros e H; [discriminate|].
  cbn [rev_ext] in H. destruct (c =? dot_cp)%N eqn:Ec.
  - apply N.eqb_eq in Ec. subst c.
    destruct (forallb (N.eqb dot_cp) t); [discriminate|]. injection H as <-.
    exists [], t. repeat split. intros [].
  - destruct (rev_ext t) as [e'|] eqn:Et; [|discriminate]. injection H as <-.
    destruct (IH e' eq_refl) as (body & rest & -> & -> & Hb).
    exists (c :: body), rest. repeat split.
    intros [H|H]; [|contradiction]. apply N.eqb_neq in Ec. congruence.
Qed.

Lemma rev_basename_prefix (os : platform) (r : str) :
  exists rest,
    r = rev_basename os r ++ rest
    /\ Forall (fun c => is_sep os c = false) (rev_basename os r).
Proof.
  induction r as [|c t (rest & E & F)]; [exists []; split; [reflexivity | constructor]|].
  cbn [rev_basename]. destruct (is_sep os c) eqn:Es.
  - exists (c :: t). split; [reflexivity | constructor].
  - exists rest. split; [cbn [app]; now rewrite <- E | now constructor].
Qed.

(** [splitext] cuts the path in two: what it returns, put together again,
    is the path. *)
Lemma splitext_parts (os : platform) (p : str) :
  exists base ext,
    splitext os p = (base, ext) /\ base ++ ext = p
    /\ (ext = []
        \/ exists x, ext = dot_cp :: x
                     /\ Forall (fun c => c <> dot_cp /\ is_sep os c = false) x).
Proof.
  unfold splitext. destruct (rev_basename_prefix os (rev p)) as (rest1 & E1 & F1).
  destruct (rev_ext (rev_basename os (rev p))) as [e|] eqn:Ee.
  - destruct (rev_ext_some _ Ee) as (body & rest2 & -> & E2 & Hb).
    exists (rev (rest2 ++ rest1)), (rev (body ++ [dot_cp])).
    assert (Ep : p = rev (rest2 ++ rest1) ++ rev (body ++ [dot_cp])).
    { rewrite <- rev_app_distr, (app_assoc (body ++ [dot_cp]) rest2 rest1).
      rewrite <- E2, <- E1. now rewrite rev_involutive. }
    split; [|split; [now rewrite <- Ep|]].
    + f_equal. rewrite Ep at 2. rewrite firstn_app.
      replace (List.length p - List.length (body ++ [dot_cp]))%nat
        with (List.length (rev (rest2 ++ rest1)))
        by (rewrite Ep at 1; rewrite length_app, (length_rev (body ++ [dot_cp])); lia).
      rewrite firstn_all, Nat.sub_diag. cbn [firstn]. apply app_nil_r.
    + right. exists (rev body). split; [now rewrite rev_app_distr|].
      apply Forall_forall. intros c Hc. apply in_rev in Hc. split.
      * intros ->. contradiction.
      * rewrite Forall_forall in F1. apply F1. rewrite E2.
        apply in_or_app. left. apply in_or_app. now left.
  - exists p, []. split; [reflexivity|]. split; [apply app_nil_r | now left].
Qed.

(** X17: the file of a bus type is named after the output path: its
    extension, if it has one, is cut off, [_], the bus type and [CAN] are
    put after the rest, and the extension is put back.  The extension
    starts with the last dot of the file name and holds no other dot and
    no separator.  Two bus types never give the same name. *)
Theorem X17_bus_file_name (os : platform) (output_file bus_type : str) :
  (exists base ext,
     splitext os output_file = (base, ext) /\ base ++ ext = output_file
     /\ Core.bus_output_file os output_file bus_type
        = base ++ py "_" ++ bus_type ++ py "CAN" ++ ext
     /\ (ext = []
         \/ exists x, ext = dot_cp :: x
                      /\ Forall (fun c => c <> dot_cp /\ is_sep os c = false) x))
  /\ (forall other,
        Core.bus_output_file os output_file other
        = Core.bus_output_file os output_file bus_type ->
        other = bus_type).
Proof.
  split.
  - destruct (splitext_parts os output_file) as (base & ext & E & Hp & He).
    exists base, ext. repeat split; try assumption.
    unfold Core.bus_output_file. now rewrite E.
  - intros other. apply bus_output_file_inj.
Qed.

End OutputNames.

(** ** Reading the table, and the command line *)

Section Reading.
Import Py Frame Spec.

Lemma lookup_combine (cols : list str) : forall (cells : list cell) (c : str) (v : cell),
  lookup (combine cols cells) c = Some v -> In v cells.
Proof.
  induction cols as [|k t IH]; intros cells c v H; [discriminate|].
  destruct cells as [|x r]; [discriminate|].
  cbn [combine lookup] in H. destruct (str_eqb k c).
  - injection H as <-. now left.
  - right. exact (IH _ _ _ H).
Qed.

(** Every cell of a row without data is missing. *)
Lemma empty_row (cols : list str) (cells : list cell) (col : option str) :
  forallb isna cells = true -> isna (get (combine cols cells) col) = true.
Proof.
  intros H. unfold get, get_or. destruct col as [c|]; [|reflexivity].
  destruct (lookup (combine cols cells) c) as [v|] eqn:E; [|reflexivity].
  rewrite forallb_forall in H. apply H. exact (lookup_combine _ _ _ E).
Qed.

Lemma foldM_skip {A B S} (f : S -> B -> result S) (g : A -> B) (keep : A -> bool)
    (l : list A) :
  (forall st a, keep a = false -> f st (g a) = ok st) ->
  forall st, Core.foldM f (List.map g (filter keep l)) st
             = Core.foldM f (List.map g l) st.
Proof.
  intros Hf. induction l as [|a t IH]; intros st; [reflexivity|].
  cbn [filter List.map]. destruct (keep a) eqn:E.
  - cbn [List.map Core.foldM]. destruct (f st (g a)); [reflexivity|]. apply IH.
  - cbn [Core.foldM]. rewrite (Hf st a E). cbn [bind ok]. apply IH.
Qed.

Lemma foldM_ext {A S} (f g : S -> A -> result S) (l : list A) :
  (forall st a, f st a = g st a) ->
  forall st, Core.foldM f l st = Core.foldM g l st.
Proof.
  intros H. induction l as [|a t IH]; intros st; [reflexivity|].
  cbn [Core.foldM]. rewrite H. destruct (g st a); [reflexivity|]. apply IH.
Qed.

Lemma filter_map_skip {A} (h : A -> cell) (keep : A -> bool) (l : list A) :
  (forall a, keep a = false -> notna (h a) = false) ->
  filter notna (List.map h (filter keep l)) = filter notna (List.map h l).
Proof.
  intros Hh. induction l as [|a t IH]; [reflexivity|].
  cbn [filter List.map]. destruct (keep a) eqn:E.
  - cbn [List.map filter]. now rewrite IH.
  - now rewrite (Hh a E).
Qed.

Lemma kept_row (cells : list cell) :
  negb (forallb isna cells) = false -> forallb isna cells = true.
Proof. now destruct (forallb isna cells). Qed.

Lemma extract_messages_dropna (df : DataFrame) :
  Core._extract_messages (dropna_all df) = Core._extract_messages df.
Proof.
  unfold Core._extract_messages, iterrows, dropna_all. cbn [columns data].
  destruct (find Core.is_message_id_col (columns df)) as [c|]; [|reflexivity].
  apply foldM_skip. intros st cells E. apply kept_row in E.
  unfold Core.message_step. cbv zeta. now rewrite empty_row.
Qed.

Lemma extract_signals_dropna (df : DataFrame) :
  Core._extract_signals (dropna_all df) = Core._extract_signals df.
Proof.
  unfold Core._extract_signals, iterrows. cbn [columns data dropna_all].
  destruct (find Core.is_message_id_col (columns df)) as [mc|]; [|reflexivity].
  destruct (find Core.is_signal_name_col (columns df)) as [sc|]; [|reflexivity].
  unfold Core.signal_columns. cbn [columns]. f_equal.
  apply foldM_skip. intros st cells E. apply kept_row in E.
  unfold Core.signal_step, notna. cbv zeta. rewrite !empty_row by exact E.
  cbn [negb]. destruct (Core.current_msg_id st) as [id|]; [|reflexivity].
  now destruct (str_eqb id []).
Qed.

Lemma notna_cells_dropna (df : DataFrame) (col : option str) :
  filter notna (List.map (fun r => get r col) (iterrows (dropna_all df)))
  = filter notna (List.map (fun r => get r col) (iterrows df)).
Proof.
  unfold iterrows, dropna_all. cbn [columns data]. rewrite !map_map.
  apply filter_map_skip. intros cells E. apply kept_row in E.
  unfold notna. now rewrite empty_row.
Qed.

Lemma extract_nodes_dropna (df : DataFrame) (ncs : list str) :
  Core._extract_nodes (dropna_all df) ncs = Core._extract_nodes df ncs.
Proof.
  unfold Core._extract_nodes, Core.controller_names, dropna_unique.
  cbn [columns dropna_all].
  destruct (find Core.is_controller_col (columns df)) as [c|]; [|reflexivity].
  now rewrite (notna_cells_dropna df (Some c)).
Qed.

Lemma bus_suffix_of_dropna (df : DataFrame) (col : str) :
  Core.bus_suffix_of (dropna_all df) col = Core.bus_suffix_of df col.
Proof.
  unfold Core.bus_suffix_of, column. cbv zeta. cbn [columns dropna_all].
  destruct (contains [underscore] col); [|reflexivity].
  destruct (2 <=? _)%nat; [|reflexivity].
  destruct (existsb (str_eqb col) (columns df)); [|reflexivity].
  cbn [bind ok]. now rewrite (notna_cells_dropna df (Some col)).
Qed.

Lemma generate_dbc_dropna (os : platform) (df : DataFrame) (ncs : list str)
    (output_file : str) (node_type controller_name target : option str)
    (is_canfd : bool) :
  Core.generate_dbc os {| Core.matrix_data := Some (dropna_all df);
                          Core.node_columns := ncs |}
    output_file node_type controller_name target is_canfd
  = Core.generate_dbc os {| Core.matrix_data := Some df; Core.node_columns := ncs |}
      output_file node_type controller_name target is_canfd.
Proof.
  unfold Core.generate_dbc, Core.detect_bus_types, Core.file_content.
  cbn [Core.matrix_data Core.node_columns]. cbv zeta.
  rewrite extract_messages_dropna, extract_signals_dropna, extract_nodes_dropna.
  rewrite (@foldM_ext str (list str)
             (fun acc col => bind (Core.bus_suffix_of (dropna_all df) col)
                               (fun l => ok (acc ++ l)))
             (fun acc col => bind (Core.bus_suffix_of df col)
                               (fun l => ok (acc ++ l))));
    [reflexivity|].
  intros st a. now rewrite bus_suffix_of_dropna.
Qed.

Lemma read_matrix_file_some (file_path : str) (df : DataFrame) :
  file_path <> [] ->
  Excel.read_matrix_file file_path (Some df) = Some (dropna_all df).
Proof. now destruct file_path. Qed.

(** X18: reading drops the rows of the sheet that hold no cell and keeps
    the labels; such rows would change nothing: the node columns, and the
    files of every run, are those of the sheet as it stands.  Without a
    path, or when no reader succeeds, nothing is read. *)
Theorem X18_rows_without_data :
  (forall sheet, Excel.read_matrix_file [] sheet = None)
  /\ (forall file_path, Excel.read_matrix_file file_path None = None)
  /\ (forall file_path df,
        file_path <> [] ->
        Excel.read_matrix_file file_path (Some df) = Some (dropna_all df))
  /\ (forall df, Excel.extract_node_columns (Some (dropna_all df))
                 = Excel.extract_node_columns (Some df))
  /\ (forall os df ncs output_file node_type controller_name target is_canfd,
        Core.generate_dbc os {| Core.matrix_data := Some (dropna_all df);
                                Core.node_columns := ncs |}
          output_file node_type controller_name target is_canfd
        = Core.generate_dbc os {| Core.matrix_data := Some df;
                                  Core.node_columns := ncs |}
            output_file node_type controller_name target is_canfd).
Proof.
  split; [reflexivity|]. split; [now intros [|c t]|].
  split; [exact read_matrix_file_some|]. split; [reflexivity|].
  exact generate_dbc_dropna.
Qed.




End Reading.

(** ** The separate writers of the modular generator *)

Section SeparateWriters.
Import Py Frame Spec.

Lemma startswith_app (p r : str) : startswith p (p ++ r) = true.
Proof.
  induction p as [|a t IH]; [reflexivity|]. cbn [app startswith].
  now rewrite N.eqb_refl, IH.
Qed.

Lemma bo_lines_of_message (sigs : Core.dict (list Core.Signal))
    (entry : str * Core.Message) :
  filter (startswith (py "BO_ ")) (Core.message_lines sigs entry)
  = [Core.bo_line (fst entry) (snd entry)].
Proof.
  destruct entry as [k m]. unfold Core.message_lines. cbn [fst snd app filter].
  unfold Core.bo_line at 1. rewrite startswith_app.
  change (startswith (py "BO_ ") []) with false. cbv iota. f_equal.
  rewrite filter_app.
  assert (S : forall l, filter (startswith (py "BO_ ")) (List.map Core.sg_line l) = []).
  { induction l as [|sg t IH]; [reflexivity|]. cbn [List.map filter].
    now rewrite IH. }
  destruct (Core.dict_get sigs k) as [l|]; [rewrite S|]; reflexivity.
Qed.

Lemma bo_lines_of_messages (sigs : Core.dict (list Core.Signal))
    (msgs : Core.dict Core.Message) :
  filter (startswith (py "BO_ ")) (flat_map (Core.message_lines sigs) msgs)
  = List.map (fun entry => Core.bo_line (fst entry) (snd entry)) msgs.
Proof.
  induction msgs as [|e t IH]; [reflexivity|].
  cbn [flat_map List.map]. now rewrite filter_app, bo_lines_of_message, IH.
Qed.

(** X20: the two writers the generator does not call.  Without messages,
    or without signals, they write nothing.  [_generate_messages] writes
    the [BO_] lines of the text the generator writes, in the same order.
    [_generate_signals] writes the byte order of each signal, 1 for Intel
    and 0 otherwise; the text the generator writes has 1 for every
    signal. *)
Theorem X20_separate_writers :
  Core._generate_messages [] = []
  /\ Core._generate_signals [] = []
  /\ (forall msgs sigs,
        Core._generate_messages msgs
        = join Core.newline
            (filter (startswith (py "BO_ "))
               (flat_map (Core.message_lines sigs) msgs)))
  /\ (forall sg,
        let head := py " SG_ " ++ Core.sig_name sg ++ py " : "
                    ++ Core.sig_start_bit sg ++ py "|" ++ Core.sig_length sg in
        (exists rest, Core.sg_line sg = head ++ py "@1" ++ rest)
        /\ (exists rest,
              Core.separate_sg_line sg
              = head ++ py "@"
                ++ (if str_eqb (Core.sig_byte_order sg) (py "Intel")
                    then py "1" else py "0")
                ++ rest)).
Proof.
  split; [reflexivity|]. split; [reflexivity|]. split.
  - intros msgs sigs. rewrite bo_lines_of_messages.
    now destruct msgs.
  - intros sg head. subst head. split.
    + unfold Core.sg_line. cbv zeta. eexists.
      rewrite <- ?app_assoc. reflexivity.
    + unfold Core.separate_sg_line. eexists.
      rewrite <- ?app_assoc. reflexivity.
Qed.

End SeparateWriters.

(** ** The single-file generator: numbers, names and filters *)

Section LegacyEdges.
Import Py Frame Spec Legacy.

Lemma format_num_raises (n : num) (e : exn) :
  format_num n = inl e
  <-> (exists neg, n = NFloat (FInf neg) /\ e = OverflowError)
      \/ (n = NFloat FNan /\ e = ValueError).
Proof.
  destruct n as [z|[q| |b|]]; unfold format_num, int_of_float;
    cbn [bind ok raise cell_eqb].
  - split; [discriminate|]. intros [(b & H & _)|[H _]]; discriminate.
  - split.
    + destruct (Qeq_bool _ q); discriminate.
    + intros [(b & H & _)|[H _]]; discriminate.
  - split; [discriminate|]. intros [(b & H & _)|[H _]]; discriminate.
  - split.
    + intros H. injection H as <-. left. now exists b.
    + intros [(b' & H & ->)|[H _]]; [reflexivity | discriminate].
  - split.
    + intros H. injection H as <-. now right.
    + intros [(b' & H & _)|[_ ->]]; [discriminate | reflexivity].
Qed.

Lemma signal_def_raises (self : DBCGenerator) (node_type : option str)
    (sg : Signal) (e : exn) :
  signal_def self node_type sg = inl e
  <-> format_num (factor sg) = inl e
      \/ (exists t, format_num (factor sg) = ok t)
         /\ (format_num (offset sg) = inl e
             \/ (exists t, format_num (offset sg) = ok t)
                /\ (format_num (min_phys sg) = inl e
                    \/ (exists t, format_num (min_phys sg) = ok t)
                       /\ format_num (max_phys sg) = inl e)).
Proof.
  unfold signal_def. cbv zeta. cbn [format_num bind].
  destruct (format_num (factor sg)) as [e1|t1]; cbn [bind].
  { split; [intros H; now left|].
    intros [H|[(t & H) _]]; [exact H | discriminate]. }
  destruct (format_num (offset sg)) as [e2|t2]; cbn [bind].
  { split; [intros H; right; split; [now exists t1 | now left]|].
    intros [H|[_ [H|[(t & H) _]]]]; [discriminate | exact H | discriminate]. }
  destruct (format_num (min_phys sg)) as [e3|t3]; cbn [bind].
  { split.
    - intros H. right. split; [now exists t1|]. right. split; [now exists t2|].
      now left.
    - intros [H|[_ [H|[_ [H|[(t & H) _]]]]]]; try discriminate. exact H. }
  destruct (format_num (max_phys sg)) as [e4|t4]; cbn [bind].
  { split.
    - intros H. right. split; [now exists t1|]. right. split; [now exists t2|].
      right. split; [now exists t3 | exact H].
    - intros [H|[_ [H|[_ [H|[_ H]]]]]]; try discriminate. exact H. }
  split; [discriminate|].
  intros [H|[_ [H|[_ [H|[_ H]]]]]]; discriminate.
Qed.

Lemma float_value_read (r : row) (cols : list str) (d : float) (col : str)
    (x : float) :
  find (present r) cols = Some col -> float_of (get r (Some col)) = ok x ->
  get_float_value r cols d = ok (NFloat x).
Proof. intros Hf Hx. unfold get_float_value. now rewrite Hf, Hx. Qed.

Lemma concatM_raises {A} (f : A -> result str) (l : list A) (a : A) (e : exn) :
  In a l -> f a = inl e -> exists e', concatM f l = inl e'.
Proof.
  intros Hin Hf. unfold concatM.
  apply (@foldM_raises A str (fun acc x => bind (f x) (fun t => ok (acc ++ t))) l a Hin).
  intros st. exists e. now rewrite Hf.
Qed.

Lemma dbc_content_raises (self : DBCGenerator) (node_type : option str)
    (msgs : dict Message) (name : str) (m : Message) (sg : Signal) (e : exn) :
  In (name, m) msgs -> In sg (signals m) -> signal_def self node_type sg = inl e ->
  exists e', dbc_content_of self node_type msgs = inl e'.
Proof.
  intros Hm Hs He. unfold dbc_content_of.
  assert (B : exists e', message_block self node_type (name, m) = inl e').
  { unfold message_block. cbv beta iota zeta.
    destruct (msg_id_dec_of m) as [e1|i]; [now exists e1|].
    cbn [bind].
    match goal with
    | |- exists e', bind ?X _ = inl e' => assert (Q : exists e2, X = inl e2)
    end.
    { eapply foldM_raises with (a := sg); [exact Hs|].
      intros st. exists e. now rewrite He. }
    destruct Q as (e2 & ->). now exists e2. }
  destruct B as (e1 & B).
  destruct (@concatM_raises _ (message_block self node_type) msgs (name, m) e1 Hm B)
    as (e2 & E2).
  rewrite E2. now exists e2.
Qed.

(** X21: [format_num] fails on the two infinities, with [OverflowError], and
    on NaN, with [ValueError], and on nothing else; the float zero with a
    sign is written [0].  A factor, offset, minimum or maximum cell whose
    text reads as such a float is taken as it is, so that the [SG_] line of
    its signal cannot be written, and no text either when the signal
    belongs to a message that is written. *)
Theorem X21_number_that_is_no_number :
  (forall n e,
     format_num n = inl e
     <-> (exists neg, n = NFloat (FInf neg) /\ e = OverflowError)
         \/ (n = NFloat FNan /\ e = ValueError))
  /\ format_num (NFloat FNegZero) = ok (py "0")
  /\ (forall r cols d col x,
        find (present r) cols = Some col -> float_of (get r (Some col)) = ok x ->
        get_float_value r cols d = ok (NFloat x))
  /\ (forall self node_type sg e,
        format_num (factor sg) = inl e \/ format_num (offset sg) = inl e
        \/ format_num (min_phys sg) = inl e \/ format_num (max_phys sg) = inl e ->
        exists e', signal_def self node_type sg = inl e')
  /\ (forall self node_type msgs name m sg e,
        In (name, m) msgs -> In sg (signals m) ->
        signal_def self node_type sg = inl e ->
        exists e', dbc_content_of self node_type msgs = inl e').
Proof.
  split; [exact format_num_raises|]. split; [reflexivity|].
  split; [exact float_value_read|]. split; [|exact dbc_content_raises].
  intros self node_type sg e H.
  destruct (format_num (factor sg)) as [e1|t1] eqn:E1.
  { exists e1. apply signal_def_raises. now left. }
  destruct (format_num (offset sg)) as [e2|t2] eqn:E2.
  { exists e2. apply signal_def_raises. right. split; [now exists t1 | now left]. }
  destruct (format_num (min_phys sg)) as [e3|t3] eqn:E3.
  { exists e3. apply signal_def_raises. right. split; [now exists t1|].
    right. split; [now exists t2 | now left]. }
  destruct H as [H|[H|[H|H]]]; try discriminate H.
  exists e. apply signal_def_raises. right. split; [now exists t1|].
  right. split; [now exists t2|]. right. split; [now exists t3 | exact H].
Qed.

(** A sheet with the factor [nan] gives no file; with the factor 1 it
    gives one. *)
Lemma X21_number_witness :
  format_num (NFloat FNan) = inl ValueError
  /\ generate_dbc (load_matrix (Examples.with_factor (Examples.text "nan")))
       (py "out") None None None = None
  /\ exists file,
       generate_dbc (load_matrix (Examples.with_factor (Examples.text "1")))
         (py "out") None None None = Some file.
Proof.
  split; [|split].
  - apply (proj1 X21_number_that_is_no_number). now right.
  - vm_compute. reflexivity.
  - eexists. vm_compute. reflexivity.
Defined.

Lemma endswith_app (p a : str) : endswith p (a ++ p) = true.
Proof. unfold endswith. rewrite rev_app_distr. apply startswith_app. Qed.

Lemma written_name (output_file : str) :
  let name := if endswith (py ".dbc") (lower output_file) then output_file
              else output_file ++ py ".dbc" in
  endswith (py ".dbc") (lower name) = true.
Proof.
  cbv zeta. destruct (endswith (py ".dbc") (lower output_file)) eqn:E; [exact E|].
  unfold lower. rewrite map_app. apply endswith_app.
Qed.

(** X22: the file the single-file generator writes has a name that ends
    with [.dbc], in any case of the letters: the output path when it ends
    so already, the output path followed by [.dbc] when it does not. *)
Theorem X22_written_name (self : DBCGenerator) (output_file : str)
    (node_type controller_name can_bus_type : option str) (name text : str) :
  generate_dbc self output_file node_type controller_name can_bus_type
  = Some (name, text) ->
  endswith (py ".dbc") (lower name) = true
  /\ (endswith (py ".dbc") (lower output_file) = true -> name = output_file)
  /\ (endswith (py ".dbc") (lower output_file) = false ->
      name = output_file ++ py ".dbc").
Proof.
  unfold generate_dbc. destruct (matrix_data self) as [df|]; [|discriminate].
  destruct (_extract_message_info self df) as [e|messages]; [discriminate|].
  cbn [bind].
  destruct (_extract_signal_info self df) as [e|sigs]; [discriminate|].
  cbn [bind].
  match goal with
  | |- context [dbc_content_of ?a ?b ?c] => destruct (dbc_content_of a b c) as [e|t]
  end; [discriminate|].
  cbn [bind ok]. intros H. injection H as <- _.
  split; [apply written_name|].
  destruct (endswith (py ".dbc") (lower output_file)); split; congruence.
Qed.

Lemma X22_written_name_witness :
  exists text,
    generate_dbc (load_matrix Examples.engine) (py "Out.DBC") None None None
    = Some (py "Out.DBC", text).
Proof.
  destruct (generate_dbc (load_matrix Examples.engine) (py "Out.DBC") None None None)
    as [[name text]|] eqn:E; [|vm_compute in E; discriminate].
  exists text.
  destruct (X22_written_name _ _ _ _ _ E) as (_ & H & _).
  now rewrite (H eq_refl).
Defined.

(** X23: the bus type [main] names the default output file after is the
    text after the last underscore of the node type followed by [CAN], for
    any such text: the five bus types it tells apart get the name the
    general rule gives them.  A node type without underscore gives the
    node type followed by [_CAN]. *)
Theorem X23_bus_type_name :
  (forall node_type,
     bus_type_of node_type
     = if contains [underscore] node_type
       then bus_suffix node_type ++ py "CAN"
       else node_type ++ py "_CAN")
  /\ (forall prefix suffix,
        ~ In underscore suffix ->
        bus_type_of (prefix ++ [underscore] ++ suffix) = suffix ++ py "CAN")
  /\ (forall base_name node_type,
        node_type <> [] ->
        named_output_path base_name (py "output.dbc") (Some node_type)
        = base_name ++ py "_" ++ bus_type_of node_type ++ py ".dbc")
  /\ (forall base_name output_path node_type,
        output_path <> py "output.dbc" \/ truthy node_type = false ->
        named_output_path base_name output_path node_type = output_path).
Proof.
  assert (G : forall node_type,
            bus_type_of node_type
            = if contains [underscore] node_type
              then bus_suffix node_type ++ py "CAN"
              else node_type ++ py "_CAN").
  { intros nt. unfold bus_type_of, bus_suffix. cbv zeta.
    destruct (contains [underscore] nt); [|reflexivity].
    repeat match goal with
           | |- (if str_eqb ?a ?b then _ else _) = _ =>
             let H := fresh "E" in
             destruct (str_eqb a b) eqn:H;
               [apply str_eqb_eq in H; rewrite H; reflexivity|]
           end.
    reflexivity. }
  split; [exact G|]. split; [|split].
  - intros prefix suffix Hs. rewrite G.
    rewrite (proj2 (contains_char underscore _))
      by (apply in_or_app; right; now left).
    unfold bus_suffix.
    change (prefix ++ [underscore] ++ suffix) with (prefix ++ underscore :: suffix).
    now rewrite (proj1 (@split_at_last underscore prefix suffix Hs)).
  - intros base_name [|c t] H; [congruence | reflexivity].
  - intros base_name output_path node_type [H|H]; unfold named_output_path.
    + apply str_eqb_neq in H. now rewrite H.
    + rewrite H. now rewrite andb_false_r.
Qed.

Lemma X23_bus_type_witness :
  bus_type_of (py "VCU" ++ [underscore] ++ py "X") = py "X" ++ py "CAN"
  /\ named_output_path (py "F511C") (py "output.dbc") (Some (py "VCU_P"))
     = py "F511C" ++ py "_" ++ bus_type_of (py "VCU_P") ++ py ".dbc".
Proof.
  split.
  - apply (proj1 (proj2 X23_bus_type_name)). intros [H|[]]. discriminate H.
  - apply (proj1 (proj2 (proj2 X23_bus_type_name))). discriminate.
Defined.

End LegacyEdges.

(** ** The single-file generator: messages and their signals *)

Section LegacyMessages.
Import Py Frame Spec Legacy.

Lemma lookup_combine_none (cols : list str) : forall (cells : list cell) (c : str),
  ~ In c cols -> lookup (combine cols cells) c = None.
Proof.
  induction cols as [|k t IH]; intros cells c H; [reflexivity|].
  destruct cells as [|x r]; [reflexivity|]. cbn [combine lookup].
  destruct (str_eqb k c) eqn:E.
  - apply str_eqb_eq in E. subst. exfalso. apply H. now left.
  - apply IH. intros G. apply H. now right.
Qed.

Lemma text_at_missing (cols : list str) (cells : list cell) (c d : str) :
  ~ In c cols -> text_at (combine cols cells) c d = raise KeyError.
Proof.
  intros H. unfold text_at, at_. now rewrite lookup_combine_none.
Qed.

(** What one row does to the messages. *)
Lemma message_info_step_cases (ncs : list str) (msgs res : dict Message) (r : row) :
  message_info_step ncs msgs r = ok res ->
  exists name,
    text_at r col_msg_name [] = ok name
    /\ (name <> [] -> In name (List.map fst res))
    /\ (res = msgs
        \/ exists m, res = msgs ++ [(name, m)] /\ signals m = []
                     /\ ~ In name (List.map fst msgs)).
Proof.
  unfold message_info_step.
  destruct (text_at r col_msg_name []) as [e|name]; [discriminate|]. cbn [bind].
  destruct (str_eqb name []) eqn:En; cbn [negb andb].
  - intros H. injection H as <-. exists name. split; [reflexivity|].
    apply str_eqb_eq in En. split; [congruence | now left].
  - apply str_eqb_neq in En. destruct (Core.dict_mem msgs name) eqn:Em; cbn [negb].
    + intros H. injection H as <-. exists name. split; [reflexivity|].
      split; [intros _; now apply dict_mem_in | now left].
    + destruct (at_ r col_msg_id) as [e|idv]; [discriminate|]. cbn [bind].
      destruct (int_at r col_msg_length 8) as [e|len]; [discriminate|]. cbn [bind].
      destruct (cycle_time_of r) as [e|ct]; [discriminate|]. cbn [bind ok].
      intros H. injection H as <-. exists name. split; [reflexivity|]. split.
      * intros _. rewrite map_app. apply in_or_app. right. now left.
      * right. eexists. split; [reflexivity|]. split; [reflexivity|].
        intros Hin. apply dict_mem_in in Hin. congruence.
Qed.

Lemma legacy_messages (ncs : list str) (l : list row) : forall acc res,
  Core.foldM (message_info_step ncs) l acc = ok res ->
  (forall k, In k (List.map fst acc) -> In k (List.map fst res))
  /\ (forall r name, In r l -> text_at r col_msg_name [] = ok name -> name <> [] ->
        In name (List.map fst res))
  /\ (NoDup (List.map fst acc) -> NoDup (List.map fst res))
  /\ (Forall (fun entry : str * Message => signals (snd entry) = []) acc ->
      Forall (fun entry : str * Message => signals (snd entry) = []) res).
Proof.
  induction l as [|r t IH]; intros acc res H.
  - cbn in H. injection H as <-. repeat split; auto. intros r name [].
  - cbn [Core.foldM] in H.
    destruct (message_info_step ncs acc r) as [e|a1] eqn:E; [discriminate|].
    cbn [bind] in H. destruct (IH _ _ H) as (I1 & I2 & I3 & I4).
    destruct (message_info_step_cases _ _ _ E) as (name & Hn & Hin & Hc).
    assert (K : forall k, In k (List.map fst acc) -> In k (List.map fst a1)).
    { destruct Hc as [->|(m & -> & _)]; [auto|].
      intros k Hk. rewrite map_app. apply in_or_app. now left. }
    split; [auto|]. split; [|split].
    + intros r0 name0 [<-|Hr] Ht Hne; [|exact (I2 r0 name0 Hr Ht Hne)].
      rewrite Hn in Ht. injection Ht as <-. auto.
    + intros Nd. apply I3. destruct Hc as [->|(m & -> & _ & Hout)]; [exact Nd|].
      rewrite map_app. apply NoDup_app; [exact Nd | repeat constructor; intros [] |].
      intros x Hx [<-|[]]. contradiction.
    + intros F. apply I4. destruct Hc as [->|(m & -> & Hs & _)]; [exact F|].
      apply Forall_app. split; [exact F | now repeat constructor].
Qed.

Lemma legacy_signal_of_row (ncs : list str) (r : row) (cur name : str) (sg : Signal) :
  signal_of_row ncs r cur name = ok sg -> msg_name sg = cur /\ sig_name sg = name.
Proof.
  unfold signal_of_row.
  destruct (int_at r col_start_byte 0) as [?|sb]; [discriminate|]. cbn [bind].
  destruct (int_at r col_start_bit 0) as [?|bi]; [discriminate|]. cbn [bind].
  destruct (int_at r col_bit_length 8) as [?|len]; [discriminate|]. cbn [bind].
  destruct (text_at r col_byte_order _) as [?|bo]; [discriminate|]. cbn [bind].
  destruct (text_at r col_value_type _) as [?|vt]; [discriminate|]. cbn [bind].
  destruct (get_float_value r col_factor _) as [?|fa]; [discriminate|]. cbn [bind].
  destruct (get_float_value r col_offset _) as [?|off]; [discriminate|]. cbn [bind].
  destruct (get_float_value r col_min_phys _) as [?|mi]; [discriminate|]. cbn [bind].
  destruct (get_float_value r col_max_phys _) as [?|ma]; [discriminate|].
  cbn [bind ok]. intros H. injection H as <-. split; reflexivity.
Qed.

(** The signals carry the name of the message of their row, or of a row
    before it. *)
Lemma legacy_signals (ncs : list str) (l : list row) : forall cur acc cur' res,
  Core.foldM (signal_info_step ncs) l (cur, acc) = ok (cur', res) ->
  forall sg, In sg res ->
    In sg acc
    \/ (msg_name sg <> [] /\ sig_name sg <> []
        /\ (msg_name sg = cur
            \/ exists r, In r l /\ text_at r col_msg_name [] = ok (msg_name sg))).
Proof.
  induction l as [|r t IH]; intros cur acc cur' res H sg Hsg.
  - cbn in H. injection H as <- <-. now left.
  - cbn [Core.foldM] in H.
    destruct (signal_info_step ncs (cur, acc) r) as [e|[c1 a1]] eqn:E; [discriminate|].
    cbn [bind] in H.
    unfold signal_info_step in E.
    destruct (text_at r col_msg_name []) as [e|name] eqn:En; [discriminate|].
    cbn [bind] in E.
    destruct (text_at r col_signal_name []) as [e|sname]; [discriminate|].
    cbn [bind] in E.
    set (c := if str_eqb name [] then cur else name) in *.
    assert (Hc : c = cur \/ (c = name /\ name <> [])).
    { subst c. destruct (str_eqb name []) eqn:Ee; [now left|].
      right. split; [reflexivity | now apply str_eqb_neq]. }
    assert (Step : forall s, In s a1 ->
              In s acc \/ (msg_name s = c /\ c <> [] /\ sig_name s <> [])).
    { destruct (negb (str_eqb c []) && negb (str_eqb sname [])) eqn:Eb.
      - apply andb_true_iff in Eb as [B1 B2].
        apply negb_true_iff, str_eqb_neq in B1, B2.
        destruct (signal_of_row ncs r c sname) as [e|s0] eqn:Es; [discriminate|].
        cbn [bind ok] in E. injection E as _ <-.
        intros s Hs. apply in_app_or in Hs as [Hs|[<-|[]]]; [now left|].
        right. destruct (legacy_signal_of_row _ _ _ _ Es) as [-> ->]. auto.
      - injection E as _ <-. intros s Hs. now left. }
    assert (Ec : c1 = c).
    { destruct (negb (str_eqb c []) && negb (str_eqb sname [])).
      - destruct (signal_of_row ncs r c sname); [discriminate|].
        cbn [bind ok] in E. now injection E as <- _.
      - now injection E as <- _. }
    subst c1.
    destruct (IH _ _ _ _ H sg Hsg) as [Ha|(N1 & N2 & Hm)].
    + destruct (Step sg Ha) as [Hacc|(M1 & M2 & M3)]; [now left|].
      right. split; [congruence|]. split; [exact M3|].
      destruct Hc as [Hc|[Hc Hne]]; [left; congruence|].
      right. exists r. split; [now left|]. rewrite M1, Hc. exact En.
    + right. split; [exact N1|]. split; [exact N2|].
      destruct Hm as [Hm|(r0 & Hr0 & Ht)].
      * destruct Hc as [Hc|[Hc Hne]]; [left; congruence|].
        right. exists r. split; [now left|]. rewrite Hm, Hc. exact En.
      * right. exists r0. split; [now right | exact Ht].
Qed.

Lemma attach_signals_in (sigs : list Signal) (msgs : dict Message)
    (name : str) (m' : Message) :
  In (name, m') (attach_signals sigs msgs)
  <-> exists m, In (name, m) msgs
        /\ m' = {| id := id m; dlc := dlc m; sender := sender m;
                   cycle_time := cycle_time m;
                   signals := signals m
                              ++ filter (fun sg => str_eqb (msg_name sg) name) sigs |}.
Proof.
  unfold attach_signals. rewrite in_map_iff. split.
  - intros ([k m] & E & Hin). injection E as -> <-. now exists m.
  - intros (m & Hin & ->). now exists (name, m).
Qed.

(** X24: in the single-file generator no signal is lost when the signals
    are put under their messages: every signal read carries a message name
    and a signal name that are not empty, the messages have pairwise
    distinct names, and the signal stands under the message of its name.
    The signals under a message are the signals read that carry its name,
    in the order of their rows. *)
Theorem X24_signals_under_messages (self : DBCGenerator) (df : DataFrame)
    (messages : dict Message) (sigs : list Signal) :
  _extract_message_info self df = ok messages ->
  _extract_signal_info self df = ok sigs ->
  NoDup (List.map fst messages)
  /\ (forall sg, In sg sigs ->
        msg_name sg <> [] /\ sig_name sg <> []
        /\ exists m, In (msg_name sg, m) (attach_signals sigs messages)
                     /\ In sg (signals m))
  /\ (forall name m, In (name, m) (attach_signals sigs messages) ->
        signals m = filter (fun sg => str_eqb (msg_name sg) name) sigs).
Proof.
  unfold _extract_message_info, _extract_signal_info. intros Hm Hs.
  destruct (legacy_messages _ _ _ Hm) as (_ & M2 & M3 & M4).
  destruct (Core.foldM (signal_info_step (node_columns self)) (iterrows df) ([], []))
    as [e|[cur res]] eqn:Es; [discriminate|].
  cbn [bind ok snd] in Hs. injection Hs as <-.
  split; [apply M3; constructor|]. split.
  - intros sg Hsg.
    destruct (legacy_signals _ _ _ _ Es sg Hsg) as [[]|(N1 & N2 & [N3|(r & Hr & Ht)])];
      [congruence|].
    split; [exact N1|]. split; [exact N2|].
    pose proof (M2 r _ Hr Ht N1) as Hk.
    apply in_map_iff in Hk as ([k m] & Ek & Hin). cbn [fst] in Ek. subst k.
    eexists. split; [apply attach_signals_in; exists m; split; [exact Hin | reflexivity]|].
    cbn [signals]. apply in_or_app. right. apply filter_In.
    split; [exact Hsg | apply str_eqb_refl].
  - intros name m Hin. apply attach_signals_in in Hin as (m0 & Hin & ->).
    cbn [signals]. specialize (M4 (Forall_nil _)). rewrite Forall_forall in M4.
    pose proof (M4 _ Hin) as Z. cbn [snd] in Z. now rewrite Z.
Qed.

(** The signal of [Examples.engine] stands under its message. *)
Lemma X24_signals_witness :
  exists messages sigs,
    _extract_message_info (load_matrix Examples.engine) Examples.engine = ok messages
    /\ _extract_signal_info (load_matrix Examples.engine) Examples.engine = ok sigs
    /\ List.length sigs = 1%nat
    /\ NoDup (List.map fst messages)
    /\ forall sg, In sg sigs ->
         exists m, In (msg_name sg, m) (attach_signals sigs messages)
                   /\ In sg (signals m).
Proof.
  destruct (_extract_message_info (load_matrix Examples.engine) Examples.engine)
    as [e|messages] eqn:Em; [vm_compute in Em; discriminate|].
  destruct (_extract_signal_info (load_matrix Examples.engine) Examples.engine)
    as [e|sigs] eqn:Es; [vm_compute in Es; discriminate|].
  exists messages, sigs. split; [reflexivity|]. split; [reflexivity|].
  split; [vm_compute in Es; injection Es as <-; reflexivity|].
  destruct (X24_signals_under_messages _ _ Em Es) as (Nd & H & _).
  split; [exact Nd|]. intros sg Hsg. now destruct (H sg Hsg) as (_ & _ & G).
Defined.

Lemma filter_message_cases (nt : str) (name : str) (m : Message) :
  filter_message nt (name, m)
  = match kept_signals nt m with
    | [] => []
    | l => [(name, {| id := id m; dlc := dlc m; sender := sender m;
                      cycle_time := cycle_time m; signals := l |})]
    end.
Proof.
  unfold filter_message, kept_signals. cbv zeta.
  now destruct (filter _ (signals m)).
Qed.

(** X25: with a node type, a message is written when one of its signals at
    least is kept, and with the kept signals only; a signal is kept when
    the node type is among its receivers or is the sender of the message.
    So a message the node sends is written whole, unless it has no signal:
    a message without signals is never written. *)
Theorem X25_node_type_filter (node_type : str) (msgs : dict Message) :
  (forall name m',
     In (name, m') (flat_map (filter_message node_type) msgs)
     <-> exists m, In (name, m) msgs /\ kept_signals node_type m <> []
           /\ m' = {| id := id m; dlc := dlc m; sender := sender m;
                      cycle_time := cycle_time m;
                      signals := kept_signals node_type m |})
  /\ (forall m sg, In sg (kept_signals node_type m)
                   <-> In sg (signals m)
                       /\ (In node_type (receivers sg) \/ sender m = node_type))
  /\ (forall m, sender m = node_type -> kept_signals node_type m = signals m)
  /\ (forall name m, signals m = [] -> filter_message node_type (name, m) = []).
Proof.
  split; [|split; [|split]].
  - intros name m'. rewrite in_flat_map. split.
    + intros ([k m] & Hin & H). rewrite filter_message_cases in H.
      destruct (kept_signals node_type m) as [|s0 t] eqn:Ek; [destruct H|].
      destruct H as [H|[]]. injection H as -> <-.
      exists m. split; [exact Hin|]. rewrite Ek. split; [discriminate | reflexivity].
    + intros (m & Hin & Hne & ->). exists (name, m). split; [exact Hin|].
      rewrite filter_message_cases.
      destruct (kept_signals node_type m); [congruence | now left].
  - intros m sg. unfold kept_signals. rewrite filter_In, orb_true_iff.
    now rewrite mem_str_in, str_eqb_eq.
  - intros m Hs. unfold kept_signals. rewrite Hs, str_eqb_refl.
    induction (signals m) as [|s t IH]; [reflexivity|].
    cbn [filter]. rewrite orb_true_r. now rewrite IH.
  - intros name m Hs. rewrite filter_message_cases. unfold kept_signals.
    now rewrite Hs.
Qed.

(** The cycle time plays no part in the text. *)
Lemma concatM_map {A B} (f : B -> result str) (g : A -> B) (h : A -> result str)
    (l : list A) :
  (forall a, f (g a) = h a) -> concatM f (List.map g l) = concatM h l.
Proof.
  intros H. unfold concatM. generalize (@nil N).
  induction l as [|a t IH]; intros acc; [reflexivity|].
  cbn [List.map Core.foldM]. rewrite H. destruct (h a); [reflexivity|].
  cbn [bind ok]. apply IH.
Qed.

Lemma content_without_cycle_time (self : DBCGenerator) (node_type : option str)
    (msgs : dict Message) (t : str * Message -> Z) :
  dbc_content_of self node_type
    (List.map (fun entry => (fst entry, with_cycle_time (snd entry) (t entry))) msgs)
  = dbc_content_of self node_type msgs.
Proof.
  unfold dbc_content_of.
  rewrite (concatM_map (message_block self node_type) _
             (message_block self node_type)) by (now intros [k m]).
  rewrite (concatM_map attribute_values _ attribute_values) by (now intros [k m]).
  rewrite (concatM_map value_tables _ value_tables) by (now intros [k m]).
  reflexivity.
Qed.

(** X26: the cycle time the single-file generator reads for a message is
    never written: the text is the same whatever the cycle times, and the
    attribute GenMsgCycleTime of every message is 100. *)
Theorem X26_cycle_time_is_not_written :
  (forall self node_type msgs t,
     dbc_content_of self node_type
       (List.map (fun entry => (fst entry, with_cycle_time (snd entry) (t entry)))
          msgs)
     = dbc_content_of self node_type msgs)
  /\ (forall name m i,
        msg_id_dec_of m = ok i ->
        exists rest,
          attribute_values (name, m)
          = ok (q "BA_ 'GenMsgSendType' BO_ " ++ str_of_int i ++ py " 0;" ++ newline
                ++ q "BA_ 'GenMsgCycleTime' BO_ " ++ str_of_int i ++ py " 100;"
                ++ newline ++ rest)).
Proof.
  split; [exact content_without_cycle_time|].
  intros name m i H. unfold attribute_values. rewrite H. cbn [bind].
  eexists. rewrite <- ?app_assoc. reflexivity.
Qed.

Lemma X26_cycle_time_witness :
  exists rest,
    attribute_values
      (py "EngineStatus",
       {| id := py "0X100"; dlc := 8; sender := py "VCU_P"; cycle_time := 20;
          signals := [] |})
    = ok (q "BA_ 'GenMsgSendType' BO_ " ++ str_of_int 256 ++ py " 0;" ++ newline
          ++ q "BA_ 'GenMsgCycleTime' BO_ " ++ str_of_int 256 ++ py " 100;"
          ++ newline ++ rest).
Proof. apply (proj2 X26_cycle_time_is_not_written). reflexivity. Defined.

(** X27: the post-processing changes nothing in a text it has gone
    through. *)
Theorem X27_post_process_twice (content : str) :
  post_process (post_process content) = post_process content.
Proof.
  apply post_process_id; [apply post_process_ascii | apply post_process_no_cr].
Qed.

Lemma empty_table_content (self : DBCGenerator) (node_type : option str) :
  exists text, dbc_content_of self node_type [] = ok text.
Proof. unfold dbc_content_of, concatM. cbn [Core.foldM bind ok]. eexists. reflexivity. Qed.

Lemma run_on_empty_table (self : DBCGenerator) (output_file : str)
    (node_type controller_name can_bus_type : option str) (df : DataFrame) :
  matrix_data self = Some df -> data df = [] ->
  exists text,
    dbc_content_of self node_type [] = ok text
    /\ generate_dbc self output_file node_type controller_name can_bus_type
       = Some (if endswith (py ".dbc") (lower output_file) then output_file
               else output_file ++ py ".dbc",
               post_process text).
Proof.
  intros Hm Hd. destruct (empty_table_content self node_type) as (text & Ht).
  exists text. split; [exact Ht|].
  unfold generate_dbc, _extract_message_info, _extract_signal_info, iterrows.
  rewrite Hm, Hd. cbn [List.map Core.foldM bind ok snd]. unfold attach_signals.
  cbn [List.map]. revert Ht.
  destruct node_type as [[|c t]|]; intros Ht; cbn [flat_map]; rewrite Ht;
    reflexivity.
Qed.

Lemma run_without_name_columns (self : DBCGenerator) (output_file : str)
    (node_type controller_name can_bus_type : option str) (df : DataFrame) :
  matrix_data self = Some df -> data df <> [] ->
  ~ In col_msg_name (columns df) \/ ~ In col_signal_name (columns df) ->
  generate_dbc self output_file node_type controller_name can_bus_type = None.
Proof.
  intros Hm Hd Hc. unfold generate_dbc. rewrite Hm.
  destruct (data df) as [|c0 t] eqn:Ed; [congruence|].
  assert (Hs : exists e, _extract_signal_info self df = inl e).
  { unfold _extract_signal_info, iterrows. rewrite Ed. cbn [List.map Core.foldM].
    unfold signal_info_step at 1.
    destruct (text_at (combine (columns df) c0) col_msg_name []) as [e|name] eqn:En;
      [exists e; reflexivity|].
    destruct Hc as [Hc|Hc]; [now rewrite text_at_missing in En|].
    cbn [bind]. rewrite (@text_at_missing (columns df) c0 col_signal_name [] Hc).
    exists KeyError. reflexivity. }
  destruct (_extract_message_info self df) as [e|messages]; [reflexivity|].
  cbn [bind]. destruct Hs as (e & ->). reflexivity.
Qed.

(** X28: the single-file generator and the columns of the sheet.  Without a
    sheet it fails.  On a sheet without rows it succeeds, whatever its
    columns, and writes the text of no message.  On a sheet with a row it
    fails when the message name column or the signal name column is not
    there: both are read from every row. *)
Theorem X28_required_columns (self : DBCGenerator) (output_file : str)
    (node_type controller_name can_bus_type : option str) :
  (matrix_data self = None ->
   generate_dbc self output_file node_type controller_name can_bus_type = None)
  /\ (forall df,
        matrix_data self = Some df -> data df = [] ->
        exists text,
          dbc_content_of self node_type [] = ok text
          /\ generate_dbc self output_file node_type controller_name can_bus_type
             = Some (if endswith (py ".dbc") (lower output_file) then output_file
                     else output_file ++ py ".dbc",
                     post_process text))
  /\ (forall df,
        matrix_data self = Some df -> data df <> [] ->
        ~ In col_msg_name (columns df) \/ ~ In col_signal_name (columns df) ->
        generate_dbc self output_file node_type controller_name can_bus_type = None).
Proof.
  split; [|split].
  - intros H. unfold generate_dbc. now rewrite H.
  - intros df. apply run_on_empty_table.
  - intros df. apply run_without_name_columns.
Qed.

(** [Examples.engine] without its signal name column. *)
Lemma X28_required_columns_witness :
  generate_dbc
    (load_matrix
       {| columns := List.map (fun c => if str_eqb c col_signal_name then py "Signal" else c)
                       Examples.sheet_columns;
          data := data Examples.engine |})
    (py "out") None None None
  = None.
Proof.
  match goal with
  | |- generate_dbc (load_matrix ?t) _ _ _ _ = _ =>
    apply (proj2 (proj2 (X28_required_columns (load_matrix t) (py "out")
                           None None None)) t)
  end.
  - reflexivity.
  - discriminate.
  - right. vm_compute. intuition discriminate.
Defined.

End LegacyMessages.

(** ** Options that change nothing *)

Section Options.
Import Py Frame Spec.


End Options.

(** ** [_parse_hex_value] *)

Section ParseHex.
Import Py Frame Spec Legacy.

Lemma parse_hex_raises (v : cell) (e : exn) :
  _parse_hex_value v = inl e
  <-> exists neg, v = CFloat (FInf neg) /\ e = OverflowError.
Proof.
  unfold _parse_hex_value. destruct v as [|z|[q| |b|]|s].
  - split; [discriminate | intros (b & H & _); discriminate].
  - split; [discriminate | intros (b & H & _); discriminate].
  - split; [discriminate | intros (b & H & _); discriminate].
  - split; [discriminate | intros (b & H & _); discriminate].
  - split.
    + intros H. injection H as <-. now exists b.
    + intros (b' & _ & ->). reflexivity.
  - split; [discriminate | intros (b & H & _); discriminate].
  - split; [|intros (b & H & _); discriminate]. cbv zeta.
    repeat match goal with
           | |- context [if ?c then _ else _] => destruct c
           end;
      match goal with
      | |- context [of_option _ ?o] => destruct o
      end; discriminate.
Qed.

Lemma parse_hex_prefixed (n : Z) :
  (0 <= n)%Z -> _parse_hex_value (CStr (py "0x" ++ hex_of_int n)) = ok n.
Proof.
  intros Hn. destruct (hex_text_upper Hn) as (U & _ & _ & _).
  unfold _parse_hex_value. cbv zeta.
  assert (S : strip (py "0x" ++ hex_of_int n) = py "0x" ++ hex_of_int n).
  { unfold hex_of_int in *.
    replace (n <? 0)%Z with false in * by (symmetry; apply Z.ltb_ge; lia).
    destruct (hex_numeral Hn) as (c & ds & E & F & _). rewrite E.
    apply strip_by_id. change (py "0x") with [48; 120]%N.
    constructor; [reflexivity|]. constructor; [reflexivity|].
    eapply Forall_impl; [|exact F]. intros a Ha. now apply hex_char_plain in Ha. }
  rewrite S. unfold upper. rewrite map_app. fold (upper (hex_of_int n)). rewrite U.
  change (List.map upper_cp (py "0x")) with [48; 88]%N.
  change (py "0X") with [48; 88]%N. cbn [app startswith].
  rewrite !N.eqb_refl. cbn [andb].
  now rewrite int_of_prefixed_hex by auto.
Qed.

Lemma parse_hex_decimal (n : Z) : _parse_hex_value (CStr (str_of_int n)) = ok n.
Proof.
  pose proof (str_of_int_chars n) as C.
  assert (S : strip (str_of_int n) = str_of_int n).
  { apply strip_by_id. eapply Forall_impl; [|exact C].
    intros c Hc. now apply plain_char in Hc. }
  assert (U : upper (str_of_int n) = str_of_int n).
  { unfold upper. rewrite <- (map_id (str_of_int n)) at 2. apply map_ext_in.
    intros c Hc. rewrite Forall_forall in C. unfold upper_cp.
    destruct (C c Hc) as [H| ->]; [|reflexivity].
    unfold isdigit_cp in H. apply andb_true_iff in H as [H1 H2].
    apply N.leb_le in H1, H2. unfold islower_cp.
    now replace (97 <=? c)%N with false by (symmetry; apply N.leb_gt; lia). }
  assert (P : forall x, x = 88%N \/ x = 66%N ->
              startswith [48%N; x] (str_of_int n) = false).
  { intros x Hx. destruct (str_of_int n) as [|a [|b r]]; try reflexivity.
    - cbn [startswith]. now rewrite !andb_false_r.
    - inversion C as [|? ? _ C']; subst. inversion C' as [|? ? Hb _]; subst.
      cbn [startswith]. replace (x =? b)%N with false; [now rewrite !andb_false_r|].
      symmetry. apply N.eqb_neq. intros E. subst b.
      destruct Hx as [Hx|Hx]; subst x; destruct Hb as [Hb|Hb]; discriminate. }
  unfold _parse_hex_value. cbv zeta. rewrite S, U.
  change (py "0X") with [48; 88]%N. change (py "0B") with [48; 66]%N.
  rewrite !P by auto. now rewrite int_of_str_of_int.
Qed.

(** X30: [_parse_hex_value] returns a number for every text and every cell
    but one: an infinite float, on which it fails with [OverflowError].
    What does not read as a number gives 0.  A text with the prefix [0x]
    is read in base 16, so that the hexadecimal numeral of a number, after
    that prefix, gives the number; a text without prefix is read in base
    10, the numeral [1A] as 0; an integer cell gives its value. *)
Theorem X30_parse_hex_value :
  (forall v e,
     _parse_hex_value v = inl e
     <-> exists neg, v = CFloat (FInf neg) /\ e = OverflowError)
  /\ (forall n, (0 <= n)%Z ->
        _parse_hex_value (CStr (py "0x" ++ hex_of_int n)) = ok n)
  /\ (forall n, _parse_hex_value (CStr (str_of_int n)) = ok n)
  /\ (forall z, _parse_hex_value (CInt z) = ok z)
  /\ _parse_hex_value (CStr (py "1A")) = ok 0%Z
  /\ _parse_hex_value (CStr (py " 0b101 ")) = ok 5%Z
  /\ _parse_hex_value CNone = ok 0%Z
  /\ _parse_hex_value (CFloat FNan) = ok 0%Z.
Proof.
  split; [exact parse_hex_raises|]. split; [exact parse_hex_prefixed|].
  split; [exact parse_hex_decimal|]. repeat split; vm_compute; reflexivity.
Qed.

Lemma X30_parse_hex_witness :
  _parse_hex_value (CStr (py "0x" ++ hex_of_int 421)) = ok 421%Z.
Proof. apply (proj1 (proj2 X30_parse_hex_value)). lia. Defined.

End ParseHex.
